(** * brainstorm-helper: the queue-and-provider subsystem

    A shallow embedding of the message-queue hook ([useBrainstormQueue]),
    the provider adapters, the [LLMProviderManager] and the summary parser
    of [AgentProcessor], with the properties of the specification stated
    over it.

    Conventions.
    - A time value is a number of milliseconds since the epoch, in [Z]; a
      field declared [Date] holds a [Time.TimeValue], which is a [Date]
      object or what a reload left in its place.
    - A value typed [any] (the result of [JSON.parse]) is a [json] tree.
    - A [try]/[catch] is a computation in [outcome]: [Ret] is a normal
      completion, [Throw] an exception.
    - An [async] function is cut at each [await]: the part before it is one
      function, the part after it another, taking what the awaited call
      settled with.
    - A React state cell is a field of [Hook]; a functional update
      [setX (prev => ...)] acts on that field; what a callback reads from
      its closure (the [queue] or [agentContext] of the render that created
      it) is an explicit argument. *)

From stdpp Require Import base option list gmap strings pretty.
From Stdlib Require Import ZArith Lia Ascii.

Set Warnings "-register-all".

Local Open Scope string_scope.
Local Open Scope list_scope.
Local Open Scope Z_scope.

(** ** Text helpers *)

(** The double quote, by its code (a literal cannot hold one). *)
Definition dquote : ascii := ascii_of_nat 34.
Definition backslash : ascii := ascii_of_nat 92.
Definition newline : ascii := ascii_of_nat 10.
Definition nl : string := String newline "".
Definition quoted (s : string) : string := String dquote (s +:+ String dquote "").

(** [Array.prototype.join]. *)
Fixpoint join (sep : string) (l : list string) : string :=
  match l with
  | [] => ""
  | [x] => x
  | x :: r => x +:+ sep +:+ join sep r
  end.

(** ** Exceptions *)

Inductive outcome (E A : Type) : Type :=
| Ret (a : A)
| Throw (e : E).
Arguments Ret {E A} a.
Arguments Throw {E A} e.

Definition bind_outcome {E A B} (m : outcome E A) (k : A -> outcome E B) : outcome E B :=
  match m with
  | Ret a => k a
  | Throw e => Throw e
  end.

(** [try { body } catch (e) { handler e }]. *)
Definition try_catch {E A} (body : outcome E A) (handler : E -> outcome E A) : outcome E A :=
  match body with
  | Ret a => Ret a
  | Throw e => handler e
  end.

#[global] Instance outcome_ret E : MRet (outcome E) := fun A a => Ret a.
#[global] Instance outcome_bind E : MBind (outcome E) := fun A B k m => bind_outcome m k.

(** A thrown JavaScript value: the message of the [Error]. *)
Definition JsError := string.

(** ** JSON values, [JSON.parse] and [JSON.stringify] *)

Module JSON.

(** A number is kept as an exact decimal [mantissa * 10 ^ exponent]. *)
Inductive json : Type :=
| JNull
| JBool (b : bool)
| JNum (mantissa exponent : Z)
| JStr (s : string)
| JArr (items : list json)
| JObj (members : list (string * json)).

Definition chars := list ascii.

Definition is_ws (c : ascii) : bool :=
  let n := nat_of_ascii c in
  (n =? 32)%nat || (n =? 9)%nat || (n =? 10)%nat || (n =? 13)%nat.

Fixpoint skip_ws (s : chars) : chars :=
  match s with
  | c :: r => if is_ws c then skip_ws r else s
  | [] => []
  end.

Definition digit_val (c : ascii) : option Z :=
  let n := nat_of_ascii c in
  if ((48 <=? n) && (n <=? 57))%nat then Some (Z.of_nat n - 48) else None.

Definition hex_val (c : ascii) : option Z :=
  let n := nat_of_ascii c in
  if ((48 <=? n) && (n <=? 57))%nat then Some (Z.of_nat n - 48)
  else if ((65 <=? n) && (n <=? 70))%nat then Some (Z.of_nat n - 55)
  else if ((97 <=? n) && (n <=? 102))%nat then Some (Z.of_nat n - 87)
  else None.

(** Reads a maximal run of digits: its value, its length, the rest. *)
Fixpoint read_digits (s : chars) (acc : Z) (count : nat) : Z * nat * chars :=
  match s with
  | c :: r =>
      match digit_val c with
      | Some d => read_digits r (10 * acc + d) (S count)
      | None => (acc, count, s)
      end
  | [] => (acc, count, [])
  end.

(** number = [-] int [frac] [exp], with no leading zero in int. *)
Definition parse_number (s : chars) : option (json * chars) :=
  let '(neg, s1) :=
    match s with
    | "-"%char :: r => (true, r)
    | _ => (false, s)
    end in
  '(ip, s2) ←
    match s1 with
    | "0"%char :: r => Some (0, r)
    | _ =>
        let '(v, n, r) := read_digits s1 0 0 in
        if (n =? 0)%nat then None else Some (v, r)
    end;
  '(m, fe, s3) ←
    match s2 with
    | "."%char :: r =>
        let '(v, n, r') := read_digits r ip 0 in
        if (n =? 0)%nat then None else Some (v, - Z.of_nat n, r')
    | _ => Some (ip, 0, s2)
    end;
  '(e, s4) ←
    match s3 with
    | c :: r =>
        if Ascii.eqb c "e" || Ascii.eqb c "E" then
          let '(sg, r1) :=
            match r with
            | "+"%char :: r' => (1, r')
            | "-"%char :: r' => (-1, r')
            | _ => (1, r)
            end in
          let '(v, n, r2) := read_digits r1 0 0 in
          if (n =? 0)%nat then None else Some (sg * v, r2)
        else Some (0, s3)
    | [] => Some (0, s3)
    end;
  Some (JNum (if neg then - m else m) (fe + e), s4).

(** The UTF-8 bytes of a code unit below 0x10000. *)
Definition utf8 (n : Z) : chars :=
  let byte z := ascii_of_nat (Z.to_nat z) in
  if n <? 128 then [byte n]
  else if n <? 2048 then [byte (192 + n / 64); byte (128 + n mod 64)]
  else [byte (224 + n / 4096); byte (128 + (n / 64) mod 64); byte (128 + n mod 64)].

(** The characters of a string after its opening quote, up to the
    closing one. A control character is refused, as is an unknown
    escape. *)
Fixpoint parse_string_body (fuel : nat) (s acc : chars) : option (string * chars) :=
  match fuel with
  | O => None
  | S fuel' =>
      match s with
      | [] => None
      | c :: r =>
          if Ascii.eqb c dquote then Some (String.string_of_list_ascii (rev acc), r)
          else if Ascii.eqb c backslash then
            match r with
            | e :: r' =>
                let simple x := parse_string_body fuel' r' (x :: acc) in
                if Ascii.eqb e dquote then simple dquote
                else if Ascii.eqb e backslash then simple backslash
                else if Ascii.eqb e "/" then simple "/"%char
                else if Ascii.eqb e "b" then simple (ascii_of_nat 8)
                else if Ascii.eqb e "f" then simple (ascii_of_nat 12)
                else if Ascii.eqb e "n" then simple (ascii_of_nat 10)
                else if Ascii.eqb e "r" then simple (ascii_of_nat 13)
                else if Ascii.eqb e "t" then simple (ascii_of_nat 9)
                else if Ascii.eqb e "u" then
                  match r' with
                  | h1 :: h2 :: h3 :: h4 :: r'' =>
                      a ← hex_val h1; b ← hex_val h2;
                      c' ← hex_val h3; d ← hex_val h4;
                      parse_string_body fuel' r''
                        (rev (utf8 (4096 * a + 256 * b + 16 * c' + d)) ++ acc)
                  | _ => None
                  end
                else None
            | [] => None
            end
          else if (nat_of_ascii c <? 32)%nat then None
          else parse_string_body fuel' r (c :: acc)
      end
  end.

Definition expect (lit : string) (s : chars) : option chars :=
  let l := String.list_ascii_of_string lit in
  if bool_decide (take (length l) s = l) then Some (drop (length l) s) else None.

Fixpoint parse_value (fuel : nat) (s : chars) : option (json * chars) :=
  match fuel with
  | O => None
  | S fuel' =>
      match skip_ws s with
      | [] => None
      | c :: r =>
          if Ascii.eqb c "n" then r' ← expect "ull" r; Some (JNull, r')
          else if Ascii.eqb c "t" then r' ← expect "rue" r; Some (JBool true, r')
          else if Ascii.eqb c "f" then r' ← expect "alse" r; Some (JBool false, r')
          else if Ascii.eqb c dquote then
            '(str, r') ← parse_string_body (S (length r)) r []; Some (JStr str, r')
          else if Ascii.eqb c "[" then
            match skip_ws r with
            | "]"%char :: r' => Some (JArr [], r')
            | _ => parse_elements fuel' r []
            end
          else if Ascii.eqb c "{" then
            match skip_ws r with
            | "}"%char :: r' => Some (JObj [], r')
            | _ => parse_members fuel' r []
            end
          else parse_number (c :: r)
      end
  end
with parse_elements (fuel : nat) (s : chars) (acc : list json) : option (json * chars) :=
  match fuel with
  | O => None
  | S fuel' =>
      '(v, r) ← parse_value fuel' s;
      match skip_ws r with
      | ","%char :: r' => parse_elements fuel' r' (v :: acc)
      | "]"%char :: r' => Some (JArr (rev (v :: acc)), r')
      | _ => None
      end
  end
with parse_members (fuel : nat) (s : chars) (acc : list (string * json)) : option (json * chars) :=
  match fuel with
  | O => None
  | S fuel' =>
      match skip_ws s with
      | c :: r =>
          if Ascii.eqb c dquote then
            '(key, r1) ← parse_string_body (S (length r)) r [];
            match skip_ws r1 with
            | ":"%char :: r2 =>
                '(v, r3) ← parse_value fuel' r2;
                match skip_ws r3 with
                | ","%char :: r4 => parse_members fuel' r4 ((key, v) :: acc)
                | "}"%char :: r4 => Some (JObj (rev ((key, v) :: acc)), r4)
                | _ => None
                end
            | _ => None
            end
          else None
      | [] => None
      end
  end.

(** [JSON.parse text]: [None] stands for the [SyntaxError] it throws.
    Two units of fuel for a character are enough: entering an array or an
    object takes two calls for a character read. *)
Definition parse (text : string) : option json :=
  let s := String.list_ascii_of_string text in
  '(v, r) ← parse_value (2 * length s + 2) s;
  match skip_ws r with
  | [] => Some v
  | _ => None
  end.

(** *** [JSON.stringify] *)

Definition hex_digit (n : Z) : ascii :=
  ascii_of_nat (Z.to_nat (if n <? 10 then 48 + n else 87 + n)).

Fixpoint escape (s : string) : string :=
  match s with
  | EmptyString => ""
  | String c r =>
      let n := nat_of_ascii c in
      let two x := String backslash (String x (escape r)) in
      if Ascii.eqb c dquote then two dquote
      else if Ascii.eqb c backslash then two backslash
      else if (n =? 8)%nat then two "b"%char
      else if (n =? 12)%nat then two "f"%char
      else if (n =? 10)%nat then two "n"%char
      else if (n =? 13)%nat then two "r"%char
      else if (n =? 9)%nat then two "t"%char
      else if (n <? 32)%nat then
        String backslash
          ("u00" +:+ String (hex_digit (Z.of_nat n / 16))
             (String (hex_digit (Z.of_nat n mod 16)) (escape r)))
      else String c (escape r)
  end.

Definition stringify_string (s : string) : string :=
  String dquote (escape s +:+ String dquote "").

Fixpoint stringify (v : json) : string :=
  match v with
  | JNull => "null"
  | JBool true => "true"
  | JBool false => "false"
  | JNum m e => if e =? 0 then pretty m else pretty m +:+ "e" +:+ pretty e
  | JStr s => stringify_string s
  | JArr items =>
      "[" +:+ join "," ((fix each (l : list json) : list string :=
                           match l with
                           | [] => []
                           | x :: r => stringify x :: each r
                           end) items) +:+ "]"
  | JObj members =>
      "{" +:+ join "," ((fix each (l : list (string * json)) : list string :=
                           match l with
                           | [] => []
                           | (k, x) :: r =>
                               (stringify_string k +:+ ":" +:+ stringify x) :: each r
                           end) members) +:+ "}"
  end.

(** *** What JavaScript does with a parsed value *)

(** Truthiness, as [||], [&&] and [if] test it. *)
Definition truthy (v : json) : bool :=
  match v with
  | JNull => false
  | JBool b => b
  | JNum m _ => negb (m =? 0)
  | JStr s => negb (String.eqb s "")
  | JArr _ | JObj _ => true
  end.

(** The last member named [key]: a repeated key keeps its last value. *)
Fixpoint member (key : string) (members : list (string * json)) : option json :=
  match members with
  | [] => None
  | (k, v) :: r =>
      match member key r with
      | Some v' => Some v'
      | None => if String.eqb k key then Some v else None
      end
  end.

(** [v.key], for a [key] that no prototype defines: [None] is
    [undefined]; reading a property of [null] throws a [TypeError]. *)
Definition get (v : json) (key : string) : outcome JsError (option json) :=
  match v with
  | JNull => Throw ("TypeError: Cannot read properties of null (reading '" +:+ key +:+ "')")
  | JObj members => Ret (member key members)
  | _ => Ret None
  end.

(** [a || b]. *)
Definition or_else (a : option json) (b : json) : json :=
  match a with
  | Some v => if truthy v then v else b
  | None => b
  end.

End JSON.

(** ** Time values *)

Module Time.

(** The date of a day of a 400-year era, whose day 0 is a first of
    March: the year of the era, the month and the day of the month. *)
Definition civil_of_era_day (doe : Z) : Z * Z * Z :=
  let yoe := (doe - doe / 1460 + doe / 36524 - doe / 146096) / 365 in
  let doy := doe - (365 * yoe + yoe / 4 - yoe / 100) in
  let mp := (5 * doy + 2) / 153 in
  let d := doy - (153 * mp + 2) / 5 + 1 in
  let m := if mp <? 10 then mp + 3 else mp - 9 in
  (yoe, m, d).

Definition era_day_of_civil (yoe m d : Z) : Z :=
  yoe * 365 + yoe / 4 - yoe / 100
  + ((153 * (if 2 <? m then m - 3 else m + 9) + 2) / 5 + d - 1).

(** Days since the epoch to a civil date (proleptic Gregorian), and
    back. *)
Definition civil_from_days (days : Z) : Z * Z * Z :=
  let z := days + 719468 in
  let '(yoe, m, d) := civil_of_era_day (z mod 146097) in
  (yoe + z / 146097 * 400 + (if m <=? 2 then 1 else 0), m, d).

Definition days_from_civil (y m d : Z) : Z :=
  let y' := if m <=? 2 then y - 1 else y in
  y' / 400 * 146097 + era_day_of_civil (y' mod 400) m d - 719468.

Definition digit_char (d : Z) : ascii := ascii_of_nat (Z.to_nat (48 + d)).

(** The last [width] decimal digits of [n], most significant first. *)
Fixpoint pad (width : nat) (n : Z) : string :=
  match width with
  | O => ""
  | S w => String (digit_char (n / 10 ^ Z.of_nat w mod 10)) (pad w n)
  end.

(** Four digits for the years 0 to 9999, a sign and six digits for the
    others. *)
Definition year_string (y : Z) : string :=
  if (0 <=? y) && (y <=? 9999) then pad 4 y
  else (if y <? 0 then "-" else "+") +:+ pad 6 (Z.abs y).

(** [Date.prototype.toISOString], for a valid time value. *)
Definition toISOString (ms : Z) : string :=
  let days := ms / 86400000 in
  let r := ms mod 86400000 in
  let '(y, m, d) := civil_from_days days in
  year_string y +:+ "-" +:+ pad 2 m +:+ "-" +:+ pad 2 d +:+ "T"
  +:+ pad 2 (r / 3600000) +:+ ":" +:+ pad 2 (r / 60000 mod 60) +:+ ":"
  +:+ pad 2 (r / 1000 mod 60) +:+ "." +:+ pad 3 (r mod 1000) +:+ "Z".

(** Exactly [n] digits. *)
Fixpoint digits (n : nat) (s : list ascii) (acc : Z) : option (Z * list ascii) :=
  match n with
  | O => Some (acc, s)
  | S n' =>
      match s with
      | c :: r => d ← JSON.digit_val c; digits n' r (10 * acc + d)
      | [] => None
      end
  end.

Definition sep (c : ascii) (s : list ascii) : option (list ascii) :=
  match s with
  | c' :: r => if Ascii.eqb c c' then Some r else None
  | [] => None
  end.

(** A year: four digits, or a sign and six digits (minus zero is not a
    year). *)
Definition parse_year (s : list ascii) : option (Z * list ascii) :=
  match s with
  | "+"%char :: r => digits 6 r 0
  | "-"%char :: r => '(v, r') ← digits 6 r 0; if v =? 0 then None else Some (- v, r')
  | _ => digits 4 s 0
  end.

(** The time value of a string in the format [toISOString] writes;
    [None] for any other string (no state this program saves holds a
    date string in another format). *)
Definition parseISO (text : string) : option Z :=
  let s := String.list_ascii_of_string text in
  '(y, s) ← parse_year s;
  s ← sep "-" s; '(m, s) ← digits 2 s 0;
  s ← sep "-" s; '(d, s) ← digits 2 s 0;
  s ← sep "T" s; '(h, s) ← digits 2 s 0;
  s ← sep ":" s; '(mi, s) ← digits 2 s 0;
  s ← sep ":" s; '(sec, s) ← digits 2 s 0;
  s ← sep "." s; '(milli, s) ← digits 3 s 0;
  s ← sep "Z" s;
  match s with
  | [] =>
      if (1 <=? m) && (m <=? 12) && (1 <=? d) && (d <=? 31)
         && (h <=? 23) && (mi <=? 59) && (sec <=? 59)
      then Some (days_from_civil y m d * 86400000
                 + h * 3600000 + mi * 60000 + sec * 1000 + milli)
      else None
  | _ => None
  end.

(** The time values a [Date] can hold: 100 million days either side of
    the epoch. *)
Definition in_range (ms : Z) : Prop :=
  -8640000000000000 <= ms <= 8640000000000000.

(** [f] holds of the [count] integers from [from] on. *)
Fixpoint all_from (count : nat) (from : Z) (f : Z -> bool) : bool :=
  match count with
  | O => true
  | S k => f from && all_from k (from + 1) f
  end.

(** The day [doe] of an era comes back from its date, and its date is a
    date. *)
Definition era_day_ok (doe : Z) : bool :=
  let '(yoe, m, d) := civil_of_era_day doe in
  (0 <=? yoe) && (yoe <? 400) && (1 <=? m) && (m <=? 12) && (1 <=? d) && (d <=? 31)
  && (era_day_of_civil yoe m d =? doe).

(** What a field declared [Date] holds at run time. *)
Inductive TimeValue : Type :=
| Date (ms : Z)            (* a Date object with this time value *)
| InvalidDate              (* a Date object whose time value is NaN *)
| IsoString (s : string)   (* a string, as JSON.parse leaves a saved date *)
| NullValue.               (* null, as JSON.parse leaves a saved invalid date *)

(** [new Date(v)] for [v] a date, a string or [null]. *)
Definition new_Date (v : TimeValue) : TimeValue :=
  match v with
  | Date ms => Date ms
  | InvalidDate => InvalidDate
  | IsoString s =>
      match parseISO s with
      | Some ms => Date ms
      | None => InvalidDate
      end
  | NullValue => Date 0
  end.

(** What [JSON.parse (JSON.stringify v)] is for such a field: a date is
    written through [toJSON], that is [toISOString], and read back as a
    string. *)
Definition through_json (v : TimeValue) : TimeValue :=
  match v with
  | Date ms => IsoString (toISOString ms)
  | InvalidDate => NullValue
  | IsoString s => IsoString s
  | NullValue => NullValue
  end.

Definition is_date (v : TimeValue) : bool :=
  match v with
  | Date _ | InvalidDate => true
  | _ => false
  end.

(** A [Date] object holding a time value, as [new Date()] makes them. *)
Definition valid_date (v : TimeValue) : Prop :=
  match v with
  | Date ms => in_range ms
  | _ => False
  end.

End Time.

(** ** The summary synthesizer ([AgentProcessor]) *)

Module AgentProcessor.
Import JSON.

(** [MarkdownSummary]. The parsed payload is typed [any], so each field
    taken from it holds whatever value the payload had. *)
Record MarkdownSummary : Type := {
  title : json;
  overview : json;
  keyInsights : json;
  generatedIdeas : json;
  actionItems : json;
  questions : json;
  nextSteps : json;
  createdAt : Time.TimeValue
}.

(** [parseMarkdownSummary]: one [JSON.parse] of the whole response, and
    the fixed fallback object when it throws (the [console.error] of the
    handler is left out). *)
Definition parseMarkdownSummary (content : string) : json :=
  match JSON.parse content with
  | Some v => v
  | None =>
      JObj [("title", JStr "Brainstorm Session");
            ("overview", JStr content);
            ("keyInsights", JArr []);
            ("generatedIdeas", JArr []);
            ("actionItems", JArr []);
            ("questions", JArr []);
            ("nextSteps", JArr [])]
  end.

(** [generateMarkdownSummary] after its [await]: [content] is
    [response.content], [now] the time of [new Date()] and [localeDate]
    what [toLocaleDateString] prints for it. *)
Definition generateMarkdownSummary_resume
    (content : string) (now : Z) (localeDate : string)
    : outcome JsError MarkdownSummary :=
  let parsed := parseMarkdownSummary content in
  t ← get parsed "title";
  o ← get parsed "overview";
  k ← get parsed "keyInsights";
  g ← get parsed "generatedIdeas";
  a ← get parsed "actionItems";
  q ← get parsed "questions";
  n ← get parsed "nextSteps";
  Ret {| title := or_else t (JStr ("Brainstorm Session - " +:+ localeDate));
         overview := or_else o (JStr "No overview available");
         keyInsights := or_else k (JArr []);
         generatedIdeas := or_else g (JArr []);
         actionItems := or_else a (JArr []);
         questions := or_else q (JArr []);
         nextSteps := or_else n (JArr []);
         createdAt := Time.Date now |}.

(** *** [parseAgentResponse], the parser of the other replies *)

(** [\s], on the ASCII characters. *)
Definition is_space (c : ascii) : bool :=
  let n := nat_of_ascii c in
  ((9 <=? n) && (n <=? 13))%nat || (n =? 32)%nat.

Fixpoint skip_spaces (s : list ascii) : list ascii :=
  match s with
  | c :: r => if is_space c then skip_spaces r else s
  | [] => []
  end.

Definition fence : list ascii := String.list_ascii_of_string "```".

Definition starts_with (prefix s : list ascii) : option (list ascii) :=
  if bool_decide (take (length prefix) s = prefix) then Some (drop (length prefix) s) else None.

(** The shortest [{ ... }] from the start of [s] (just after the opening
    brace) whose closing brace is followed by optional spaces and a
    fence; [acc] holds the characters passed, last first. *)
Fixpoint lazy_object (s acc : list ascii) : option (list ascii) :=
  match s with
  | [] => None
  | c :: r =>
      if Ascii.eqb c "}" && bool_decide (is_Some (starts_with fence (skip_spaces r)))
      then Some (rev (c :: acc))
      else lazy_object r (c :: acc)
  end.

(** After the opening fence and the optional word: spaces, then the
    object. *)
Definition fenced_object (s : list ascii) : option (list ascii) :=
  match skip_spaces s with
  | "{"%char :: r => lazy_object r ["{"%char]
  | _ => None
  end.

(** A match of the pattern at the very start of [s]: its group 1. *)
Definition match_here (s : list ascii) : option (list ascii) :=
  after ← starts_with fence s;
  match starts_with (String.list_ascii_of_string "json") after with
  | Some after_word =>
      match fenced_object after_word with
      | Some g => Some g
      | None => fenced_object after
      end
  | None => fenced_object after
  end.

(** [content.match(/```(?:json)?\s*(\{[\s\S]*?\})\s*```/)]: group 1 of
    the leftmost match. *)
Fixpoint match_fenced (s : list ascii) : option (list ascii) :=
  match match_here s with
  | Some g => Some g
  | None =>
      match s with
      | [] => None
      | _ :: r => match_fenced r
      end
  end.

(** [indexOf] and [lastIndexOf] of a character. *)
Fixpoint indexOf (c : ascii) (s : list ascii) : option nat :=
  match s with
  | [] => None
  | x :: r => if Ascii.eqb x c then Some O else S <$> indexOf c r
  end.

Definition lastIndexOf (c : ascii) (s : list ascii) : option nat :=
  (fun i => (length s - 1 - i)%nat) <$> indexOf c (rev s).

(** [content.replace(/```json\s*|\s*```/g, '')]. The fuel is the length
    of the text. *)
Fixpoint strip_fences (fuel : nat) (s : list ascii) : list ascii :=
  match fuel with
  | O => s
  | S fuel' =>
      match starts_with (String.list_ascii_of_string "```json") s with
      | Some r => strip_fences fuel' (skip_spaces r)
      | None =>
          match starts_with fence (skip_spaces s) with
          | Some r => strip_fences fuel' r
          | None =>
              match s with
              | [] => []
              | c :: r => c :: strip_fences fuel' r
              end
          end
      end
  end.

(** [String.prototype.trim], on the ASCII characters. *)
Definition trim (s : list ascii) : list ascii :=
  rev (skip_spaces (rev (skip_spaces s))).

Definition plain_reply (content : string) : json :=
  let s := String.list_ascii_of_string content in
  JObj [("response", JStr (String.string_of_list_ascii (trim (strip_fences (length s) s))));
        ("insights", JArr []);
        ("ideas", JArr []);
        ("summaryPoints", JArr [])].

(** [parseAgentResponse]: the whole text, then the first fenced object,
    then the text from the first [{] to the last [}]; a [JSON.parse] that
    throws in the second or third attempt ends in the plain reply. *)
Definition parseAgentResponse (content : string) : json :=
  match JSON.parse content with
  | Some v => v
  | None =>
      let s := String.list_ascii_of_string content in
      match match_fenced s with
      | Some g => default (plain_reply content) (JSON.parse (String.string_of_list_ascii g))
      | None =>
          match indexOf "{" s, lastIndexOf "}" s with
          | Some jsonStart, Some jsonEnd =>
              if (jsonStart <? jsonEnd)%nat
              then default (plain_reply content)
                     (JSON.parse (String.string_of_list_ascii
                                    (take (S jsonEnd - jsonStart) (drop jsonStart s))))
              else plain_reply content
          | _, _ => plain_reply content
          end
      end
  end.

(** The document the fallback object leads to. *)
Definition fallback_summary (content : string) (now : Z) : MarkdownSummary :=
  {| title := JStr "Brainstorm Session";
     overview := JStr content;
     keyInsights := JArr [];
     generatedIdeas := JArr [];
     actionItems := JArr [];
     questions := JArr [];
     nextSteps := JArr [];
     createdAt := Time.Date now |}.

(** A well-formed payload, in the shape the prompt asks for. *)
Definition sample_payload : string :=
  let field k v := quoted k +:+ ": " +:+ v in
  let point id ttl body ty :=
    "{" +:+ field "id" (quoted id) +:+ ", " +:+ field "title" (quoted ttl) +:+ ", "
        +:+ field "content" (quoted body) +:+ ", " +:+ field "type" (quoted ty) +:+ ", "
        +:+ field "priority" "1" +:+ "}" in
  "{" +:+ nl
  +:+ field "title" (quoted "Launch plan") +:+ "," +:+ nl
  +:+ field "overview" (quoted "Two ideas were discussed") +:+ "," +:+ nl
  +:+ field "keyInsights" ("[" +:+ point "insight_1" "Focus" "Ship the small thing first" "insight" +:+ "]")
  +:+ "," +:+ nl
  +:+ field "generatedIdeas" "[]" +:+ "," +:+ nl
  +:+ field "actionItems" "[]" +:+ "," +:+ nl
  +:+ field "questions" "[]" +:+ "," +:+ nl
  +:+ field "nextSteps" ("[" +:+ quoted "Step 1: write it down" +:+ "]") +:+ nl
  +:+ "}".

(** The same payload as a model often returns it: a sentence of prose, a
    fenced block, a closing sentence. *)
Definition fenced_response : string :=
  "Here is the brainstorm you asked for:" +:+ nl +:+ nl
  +:+ "```json" +:+ nl +:+ sample_payload +:+ nl +:+ "```" +:+ nl +:+ nl
  +:+ "Let me know if you want more detail.".

(** Non-empty list. *)
Definition is_nonempty_array (v : json) : bool :=
  match v with
  | JArr (_ :: _) => true
  | _ => false
  end.

End AgentProcessor.

(** ** Provider adapters *)

(** A JavaScript number, as an exact decimal [mantissa * 10 ^ exponent]. *)
Definition number : Type := Z * Z.
Definition num_json (n : number) : JSON.json := JSON.JNum n.1 n.2.

(** [!!s] for an optional string: [undefined] and the empty string are
    falsy. *)
Definition truthy_str (s : option string) : bool :=
  match s with
  | Some x => negb (String.eqb x "")
  | None => false
  end.

Module Providers.

(** What the adapters read from the page they run in. *)
Record Env : Type := {
  has_window : bool;                 (* typeof window !== 'undefined' *)
  VITE_OLLAMA_URL : option string;   (* import.meta.env.VITE_OLLAMA_URL *)
  hostname : string                  (* window.location.hostname *)
}.

Record Request : Type := {
  url : string;
  method : string;
  headers : list (string * string);
  body : option string
}.

Record Response : Type := {
  ok : bool;
  status : Z
}.

(** [fetch]: resolves with a response or rejects. *)
Definition Fetch : Type := Request -> outcome JsError Response.

Inductive Role : Type := system | user | assistant.

Record ChatMessage : Type := {
  role : Role;
  content : string
}.

Record LLMRequest : Type := {
  messages : list ChatMessage;
  model : option string;
  temperature : option number;
  maxTokens : option Z
}.

Inductive ProviderType : Type := local | external.

(** One constructor per adapter class, holding the fields its
    constructor sets. [GeminiProvider] stands for both versions of the
    Gemini adapter, whose availability probes are the same. *)
Inductive Provider : Type :=
| LlamaProvider (baseUrl : string)
| GeminiProvider (apiKey : option string)
| OpenAIProvider (apiKey : option string)
| AnthropicProvider (apiKey : option string).

Definition type (p : Provider) : ProviderType :=
  match p with
  | LlamaProvider _ => local
  | _ => external
  end.

Definition baseUrl (p : Provider) : string :=
  match p with
  | LlamaProvider u => u
  | GeminiProvider _ => "https://generativelanguage.googleapis.com/v1beta"
  | OpenAIProvider _ => "https://api.openai.com/v1"
  | AnthropicProvider _ => "https://api.anthropic.com/v1"
  end.

Definition apiKey (p : Provider) : option string :=
  match p with
  | LlamaProvider _ => None
  | GeminiProvider k | OpenAIProvider k | AnthropicProvider k => k
  end.

(** The address a Llama adapter gets when none is passed in. *)
Definition default_baseUrl (env : Env) : string :=
  if has_window env && truthy_str (VITE_OLLAMA_URL env)
  then default "" (VITE_OLLAMA_URL env)
  else if has_window env && negb (String.eqb (hostname env) "localhost")
       then "/api/llama"
       else "http://localhost:11434".

(** [new LlamaProvider(baseUrl?)]. *)
Definition new_LlamaProvider (env : Env) (baseUrl : option string) : Provider :=
  LlamaProvider (if truthy_str baseUrl then default "" baseUrl else default_baseUrl env).

Definition json_headers : list (string * string) :=
  [("Content-Type", "application/json")].

(** The request of the availability probe, for an adapter that has what
    it needs to send one. *)
Definition probe_request (p : Provider) : Request :=
  match p with
  | LlamaProvider u =>
      {| url := u +:+ "/api/tags"; method := "GET"; headers := json_headers; body := None |}
  | GeminiProvider k =>
      {| url := baseUrl p +:+ "/models?key=" +:+ default "" k; method := "GET";
         headers := json_headers; body := None |}
  | OpenAIProvider k =>
      {| url := baseUrl p +:+ "/models"; method := "GET";
         headers := [("Authorization", "Bearer " +:+ default "" k);
                     ("Content-Type", "application/json")];
         body := None |}
  | AnthropicProvider k =>
      {| url := baseUrl p +:+ "/messages"; method := "POST";
         headers := [("x-api-key", default "" k);
                     ("Content-Type", "application/json");
                     ("anthropic-version", "2023-06-01")];
         body := Some (JSON.stringify
                         (JSON.JObj [("model", JSON.JStr "claude-3-5-sonnet-20241022");
                                     ("max_tokens", JSON.JNum 10 0);
                                     ("messages",
                                      JSON.JArr [JSON.JObj [("role", JSON.JStr "user");
                                                            ("content", JSON.JStr "test")]])])) |}
  end.

(** The [try]/[catch] around the probe, shared by all adapters: the
    handler warns on the console and returns [false]. *)
Definition probe (p : Provider) (fetch : Fetch) : outcome JsError bool :=
  try_catch
    (response ← fetch (probe_request p); Ret (ok response))
    (fun error => Ret false).

(** [isAvailable]. The hosted adapters return [false] before any request
    when they hold no key. *)
Definition isAvailable (p : Provider) (fetch : Fetch) : outcome JsError bool :=
  match p with
  | LlamaProvider _ => probe p fetch
  | GeminiProvider k | OpenAIProvider k | AnthropicProvider k =>
      if negb (truthy_str k) then Ret false else probe p fetch
  end.

(** [LlamaProvider.formatMessagesAsPrompt]. *)
Definition formatMessagesAsPrompt (msgs : list ChatMessage) : string :=
  join (nl +:+ nl)
    ((fun msg =>
        match role msg with
        | system => "System: " +:+ content msg
        | user => "Human: " +:+ content msg
        | assistant => "Assistant: " +:+ content msg
        end) <$> msgs)
  +:+ nl +:+ nl +:+ "Assistant:".

(** The request [LlamaProvider.generate] sends. *)
Definition llama_generate_request (baseUrl : string) (request : LLMRequest) : Request :=
  let model := default "llama3.1" (model request) in
  let temperature := default (7, -1) (temperature request) in
  let maxTokens := default 2000 (maxTokens request) in
  {| url := baseUrl +:+ "/api/generate";
     method := "POST";
     headers := json_headers;
     body := Some (JSON.stringify
                     (JSON.JObj [("model", JSON.JStr model);
                                 ("prompt", JSON.JStr (formatMessagesAsPrompt (messages request)));
                                 ("stream", JSON.JBool false);
                                 ("options",
                                  JSON.JObj [("temperature", num_json temperature);
                                             ("num_predict", JSON.JNum maxTokens 0)])])) |}.

End Providers.

(** ** The provider registry ([LLMProviderManager]) *)

Module LLMProviderManager.
Import Providers.

Record LLMConfig : Type := {
  provider : string;
  model : string;
  temperature : number;
  maxTokens : Z;
  apiKey : option string;
  url : option string
}.

(** [Partial<LLMConfig>]: a field is [None] when the object lacks it. *)
Record PartialConfig : Type := {
  new_provider : option string;
  new_model : option string;
  new_temperature : option number;
  new_maxTokens : option Z;
  new_apiKey : option string;
  new_url : option string
}.

Definition no_change : PartialConfig :=
  {| new_provider := None; new_model := None; new_temperature := None;
     new_maxTokens := None; new_apiKey := None; new_url := None |}.

(** [{ ...config, ...newConfig }]. *)
Definition merge (config : LLMConfig) (newConfig : PartialConfig) : LLMConfig :=
  {| provider := default (provider config) (new_provider newConfig);
     model := default (model config) (new_model newConfig);
     temperature := default (temperature config) (new_temperature newConfig);
     maxTokens := default (maxTokens config) (new_maxTokens newConfig);
     apiKey := match new_apiKey newConfig with Some k => Some k | None => apiKey config end;
     url := match new_url newConfig with Some u => Some u | None => url config end |}.

Record Manager : Type := {
  providers : gmap string Provider;
  currentProvider : string;
  config : LLMConfig
}.

(** [providers.has(name)]. *)
Definition has (name : string) (ps : gmap string Provider) : bool :=
  bool_decide (is_Some (ps !! name)).

(** [initializeProviders]. *)
Definition initializeProviders (env : Env) (config : LLMConfig) : gmap string Provider :=
  <["openai" := OpenAIProvider (apiKey config)]>
    (<["gemini" := GeminiProvider (apiKey config)]>
       (<["llama" := new_LlamaProvider env None]> ∅)).

(** [new LLMProviderManager(config)]. *)
Definition new (env : Env) (config : LLMConfig) : Manager :=
  {| providers := initializeProviders env config;
     currentProvider := "llama";
     config := config |}.

(** [setProvider]: the returned flag and the manager afterwards. *)
Definition setProvider (providerName : string) (m : Manager) : bool * Manager :=
  if has providerName (providers m)
  then (true, {| providers := providers m; currentProvider := providerName; config := config m |})
  else (false, m).

(** [getCurrentProvider]: [None] is [null]. *)
Definition getCurrentProvider (m : Manager) : option Provider :=
  providers m !! currentProvider m.

Definition getCurrentProviderName (m : Manager) : string := currentProvider m.

(** [updateConfig]. *)
Definition updateConfig (env : Env) (newConfig : PartialConfig) (m : Manager) : Manager :=
  let ps0 := providers m in
  let ps1 :=
    if truthy_str (new_apiKey newConfig) then
      let ps := if has "gemini" ps0
                then <["gemini" := GeminiProvider (new_apiKey newConfig)]> ps0 else ps0 in
      if has "openai" ps
      then <["openai" := OpenAIProvider (new_apiKey newConfig)]> ps else ps
    else ps0 in
  let ps2 :=
    if truthy_str (new_url newConfig) && has "llama" ps1
    then <["llama" := new_LlamaProvider env None]> ps1 else ps1 in
  {| providers := ps2;
     currentProvider := currentProvider m;
     config := merge (config m) newConfig |}.

(** [generate] up to its [await]: either the thrown error, or the
    adapter it calls and the request it passes. *)
Definition generate (m : Manager) (request : LLMRequest)
    : outcome JsError (Provider * LLMRequest) :=
  match getCurrentProvider m with
  | None => Throw ("Provider '" +:+ currentProvider m +:+ "' not found")
  | Some provider =>
      Ret (provider,
           {| messages := messages request;
              Providers.model :=
                Some (if truthy_str (Providers.model request)
                      then default "" (Providers.model request) else model (config m));
              Providers.temperature :=
                Some (default (temperature (config m)) (Providers.temperature request));
              Providers.maxTokens :=
                Some (default (maxTokens (config m)) (Providers.maxTokens request)) |})
  end.

(** The managers a program can hold: built by the constructor, then
    changed by the two mutating methods. *)
Inductive reachable (env : Env) : Manager -> Prop :=
| reach_new cfg : reachable env (new env cfg)
| reach_setProvider name m : reachable env m -> reachable env (setProvider name m).2
| reach_updateConfig newConfig m :
    reachable env m -> reachable env (updateConfig env newConfig m).

(** The current identifier is registered. *)
Definition current_registered (m : Manager) : Prop :=
  currentProvider m ∈ dom (providers m).

(** [getProvider]: [None] is [null]. *)
Definition getProvider (providerName : string) (m : Manager) : option Provider :=
  providers m !! providerName.

(** [getConfig]: a copy of the configuration. *)
Definition getConfig (m : Manager) : LLMConfig := config m.

(** [testConnection]. *)
Definition testConnection (m : Manager) (fetch : Fetch) : outcome JsError bool :=
  match getCurrentProvider m with
  | None => Ret false
  | Some provider => isAvailable provider fetch
  end.

(** An entry of the list [getAvailableProviders] returns. *)
Module Availability.
Record t : Type := {
  name : string;
  available : bool;
  type : ProviderType
}.
End Availability.

(** [getAvailableProviders]: one entry per registered adapter, each
    awaited; [Promise.all] rejects when one of them does. A [Map] lists
    its entries in the order of their first insertion, a [gmap] in an
    order of its own: the list is meant up to the order of its entries. *)
Definition getAvailableProviders (m : Manager) (fetch : Fetch)
    : outcome JsError (list Availability.t) :=
  mapM (fun entry : string * Provider =>
          available ← isAvailable entry.2 fetch;
          Ret {| Availability.name := entry.1;
                 Availability.available := available;
                 Availability.type := Providers.type entry.2 |})
       (map_to_list (providers m)).

End LLMProviderManager.


(** ** The message queue engine ([useBrainstormQueue]) *)

Inductive MessageType : Type := user | assistant | system.

#[global] Instance MessageType_eq_dec : EqDecision MessageType.
Proof. solve_decision. Defined.

Module Message.
Record t : Type := {
  id : string;
  content : string;
  timestamp : Time.TimeValue;
  type : MessageType;
  processed : option bool       (* optional in the declaration *)
}.

(** [{ ...msg, processed: true }]. *)
Definition mark_processed (msg : t) : t :=
  {| id := id msg; content := content msg; timestamp := timestamp msg;
     type := type msg; processed := Some true |}.

(** [msg.type === 'user' && !msg.processed]. *)
Definition unprocessed_user (msg : t) : bool :=
  bool_decide (type msg = user) && negb (default false (processed msg)).
End Message.

Module QueueItem.
Record t : Type := {
  id : string;
  message : Message.t;
  priority : Z;
  addedAt : Time.TimeValue
}.
End QueueItem.

Module Stats.
Record t : Type := {
  totalMessages : Z;
  processedMessages : Z;
  pendingMessages : Z;
  ideasGenerated : Z;
  lastProcessedAt : option Time.TimeValue
}.
End Stats.

Module BrainstormContext.
Record t : Type := {
  conversationHistory : list Message.t;
  currentTopic : string;
  generatedIdeas : list string;
  lastContextUpdate : Time.TimeValue
}.
End BrainstormContext.

Module AgentMessage.
(** The optional [metadata] is never set by the hook. *)
Record t : Type := {
  id : string;
  role : MessageType;
  content : string;
  timestamp : Time.TimeValue
}.
End AgentMessage.

Inductive Strategy : Type := accumulate | summarize | generate.

Module AgentContext.
(** The insight, idea and summary-point records are never built or read
    by the hook; they are kept as the values they are. *)
Record t : Type := {
  sessionId : string;
  conversationHistory : list AgentMessage.t;
  currentTopic : string;
  extractedInsights : list JSON.json;
  generatedIdeas : list JSON.json;
  summaryPoints : list JSON.json;
  lastProcessedAt : Time.TimeValue;
  processingStrategy : Strategy
}.
End AgentContext.

(** One reading of the clock and of [Math.random], as an identifier is
    built from them: [Date.now()] and the nine characters kept of the
    random number. The readings inside one object literal are taken to
    fall in the same millisecond. *)
Record Stamp : Type := {
  now : Z;
  random : string
}.

Definition message_id (s : Stamp) : string := "msg_" +:+ pretty (now s) +:+ "_" +:+ random s.
Definition queue_id (s : Stamp) : string := "queue_" +:+ pretty (now s) +:+ "_" +:+ random s.

Module Engine.

(** The state cells of the hook, and [processingRef]. The cell
    [availableProviders] is left out: it is not saved, and no operation
    below reads it. *)
Record Hook : Type := {
  queue : list QueueItem.t;
  messages : list Message.t;
  stats : Stats.t;
  context : BrainstormContext.t;
  agentContext : AgentContext.t;
  isProcessing : bool;
  currentProvider : string;
  markdownSummary : option AgentProcessor.MarkdownSummary;
  autoProcess : bool;
  processingRef : bool
}.

(** The hook and what surrounds it: the [processQueue] call suspended at
    its [await] (its [queuedMessages]), the 100 ms re-enqueue checks
    that are scheduled and have not run, the requests handed to
    [llmManager.generate] so far, and the errors written with
    [console.error]. *)
Record World : Type := {
  hook : Hook;
  inflight : option (list Message.t);
  timers : nat;
  calls : list Providers.LLMRequest;
  console : list JsError
}.

Definition with_hook (f : Hook -> Hook) (w : World) : World :=
  {| hook := f (hook w); inflight := inflight w; timers := timers w;
     calls := calls w; console := console w |}.

Definition set_queue (f : list QueueItem.t -> list QueueItem.t) (h : Hook) : Hook :=
  {| queue := f (queue h); messages := messages h; stats := stats h;
     context := context h; agentContext := agentContext h;
     isProcessing := isProcessing h; currentProvider := currentProvider h;
     markdownSummary := markdownSummary h; autoProcess := autoProcess h;
     processingRef := processingRef h |}.

Definition set_messages (f : list Message.t -> list Message.t) (h : Hook) : Hook :=
  {| queue := queue h; messages := f (messages h); stats := stats h;
     context := context h; agentContext := agentContext h;
     isProcessing := isProcessing h; currentProvider := currentProvider h;
     markdownSummary := markdownSummary h; autoProcess := autoProcess h;
     processingRef := processingRef h |}.

Definition set_stats (f : Stats.t -> Stats.t) (h : Hook) : Hook :=
  {| queue := queue h; messages := messages h; stats := f (stats h);
     context := context h; agentContext := agentContext h;
     isProcessing := isProcessing h; currentProvider := currentProvider h;
     markdownSummary := markdownSummary h; autoProcess := autoProcess h;
     processingRef := processingRef h |}.

Definition set_agentContext (c : AgentContext.t) (h : Hook) : Hook :=
  {| queue := queue h; messages := messages h; stats := stats h;
     context := context h; agentContext := c;
     isProcessing := isProcessing h; currentProvider := currentProvider h;
     markdownSummary := markdownSummary h; autoProcess := autoProcess h;
     processingRef := processingRef h |}.

(** [processingRef.current = b; setIsProcessing(b)]. *)
Definition set_processing (b : bool) (h : Hook) : Hook :=
  {| queue := queue h; messages := messages h; stats := stats h;
     context := context h; agentContext := agentContext h;
     isProcessing := b; currentProvider := currentProvider h;
     markdownSummary := markdownSummary h; autoProcess := autoProcess h;
     processingRef := b |}.

Definition set_autoProcess (f : bool -> bool) (h : Hook) : Hook :=
  {| queue := queue h; messages := messages h; stats := stats h;
     context := context h; agentContext := agentContext h;
     isProcessing := isProcessing h; currentProvider := currentProvider h;
     markdownSummary := markdownSummary h; autoProcess := f (autoProcess h);
     processingRef := processingRef h |}.

(** The first render, at time [t0]. *)
Definition initial_hook (t0 : Z) : Hook :=
  {| queue := [];
     messages := [];
     stats := {| Stats.totalMessages := 0; Stats.processedMessages := 0;
                 Stats.pendingMessages := 0; Stats.ideasGenerated := 0;
                 Stats.lastProcessedAt := None |};
     context := {| BrainstormContext.conversationHistory := [];
                   BrainstormContext.currentTopic := "";
                   BrainstormContext.generatedIdeas := [];
                   BrainstormContext.lastContextUpdate := Time.Date t0 |};
     agentContext := {| AgentContext.sessionId := "session_" +:+ pretty t0;
                        AgentContext.conversationHistory := [];
                        AgentContext.currentTopic := "";
                        AgentContext.extractedInsights := [];
                        AgentContext.generatedIdeas := [];
                        AgentContext.summaryPoints := [];
                        AgentContext.lastProcessedAt := Time.Date t0;
                        AgentContext.processingStrategy := accumulate |};
     isProcessing := false;
     currentProvider := "llama";
     markdownSummary := None;
     autoProcess := true;
     processingRef := false |}.

Definition initial (t0 : Z) : World :=
  {| hook := initial_hook t0; inflight := None; timers := 0%nat;
     calls := []; console := [] |}.

(** *** [addMessage] *)

Definition new_user_message (content : string) (s : Stamp) : Message.t :=
  {| Message.id := message_id s; Message.content := content;
     Message.timestamp := Time.Date (now s); Message.type := user;
     Message.processed := Some false |}.

Definition new_queue_item (msg : Message.t) (s : Stamp) : QueueItem.t :=
  {| QueueItem.id := queue_id s; QueueItem.message := msg;
     QueueItem.priority := 1; QueueItem.addedAt := Time.Date (now s) |}.

Definition addMessage (content : string) (sm sq : Stamp) (w : World) : World :=
  let message := new_user_message content sm in
  let queueItem := new_queue_item message sq in
  with_hook
    (fun h =>
       set_stats
         (fun prev =>
            {| Stats.totalMessages := Stats.totalMessages prev + 1;
               Stats.processedMessages := Stats.processedMessages prev;
               Stats.pendingMessages := Stats.pendingMessages prev + 1;
               Stats.ideasGenerated := Stats.ideasGenerated prev;
               Stats.lastProcessedAt := Stats.lastProcessedAt prev |})
         (set_messages (fun prev => prev ++ [message])
            (set_queue (fun prev => prev ++ [queueItem]) h)))
    w.

(** *** [processQueue] *)

(** The turn a queued message becomes. *)
Definition agent_message (msg : Message.t) : AgentMessage.t :=
  {| AgentMessage.id := Message.id msg;
     AgentMessage.role := if bool_decide (Message.type msg = assistant) then assistant else user;
     AgentMessage.content := Message.content msg;
     AgentMessage.timestamp := Message.timestamp msg |}.

Definition role_text (r : MessageType) : string :=
  match r with
  | user => "user"
  | assistant => "assistant"
  | system => "system"
  end.

Definition comprehensivePrompt
    (history : list AgentMessage.t) (agentMessages : list AgentMessage.t) : string :=
  let conversationHistory :=
    join nl ((fun m => role_text (AgentMessage.role m) +:+ ": " +:+ AgentMessage.content m)
               <$> history) in
  "You are a helpful brainstorming assistant. Continue this brainstorming conversation by responding to the user's latest ideas while considering the full conversation context.

Complete conversation history:
" +:+ conversationHistory +:+ "

Latest user messages (from queue):
" +:+ join nl (imap (fun index msg =>
                     pretty (index + 1)%nat +:+ ". " +:+ AgentMessage.content msg)
               agentMessages) +:+ "

Please:
1. Acknowledge their latest ideas while referencing the conversation context
2. Find connections between their new ideas and previous discussion
3. Build upon the brainstorming session so far
4. Ask thoughtful follow-up questions to help them explore further
5. Suggest how they might combine or build upon all their ideas
6. Be encouraging and help them think deeper about their concepts

Respond naturally and conversationally. Don't use any special formatting or JSON. Just be a helpful brainstorming partner who remembers the full conversation.".

Definition generation_request
    (history : list AgentMessage.t) (agentMessages : list AgentMessage.t)
    : Providers.LLMRequest :=
  {| Providers.messages :=
       [ {| Providers.role := Providers.system;
            Providers.content := "You are a helpful brainstorming assistant that maintains conversation context and responds naturally to help users explore their ideas. You remember the full conversation history and build upon previous discussions." |};
         {| Providers.role := Providers.user;
            Providers.content := comprehensivePrompt history agentMessages |} ];
     Providers.model := None;
     Providers.temperature := None;
     Providers.maxTokens := None |}.

(** [queuedMessages.some(qm => qm.id === msg.id)]. *)
Definition in_batch (queuedMessages : list Message.t) (msg : Message.t) : bool :=
  existsb (fun qm => String.eqb (Message.id qm) (Message.id msg)) queuedMessages.

(** [processQueue] from its call to its [await]. [queue] and
    [agentContext] are the values in the closure of the callback; [t] is
    the time of [new Date()]. *)
Definition processQueue
    (queue : list QueueItem.t) (agentContext : AgentContext.t) (t : Z) (w : World) : World :=
  if processingRef (hook w) || (length queue =? 0)%nat then w
  else
    let queuedMessages := QueueItem.message <$> queue in
    let agentMessages := agent_message <$> queuedMessages in
    let updatedAgentContext :=
      {| AgentContext.sessionId := AgentContext.sessionId agentContext;
         AgentContext.conversationHistory :=
           AgentContext.conversationHistory agentContext ++ agentMessages;
         AgentContext.currentTopic := AgentContext.currentTopic agentContext;
         AgentContext.extractedInsights := AgentContext.extractedInsights agentContext;
         AgentContext.generatedIdeas := AgentContext.generatedIdeas agentContext;
         AgentContext.summaryPoints := AgentContext.summaryPoints agentContext;
         AgentContext.lastProcessedAt := Time.Date t;
         AgentContext.processingStrategy := accumulate |} in
    let h1 := set_processing true (hook w) in
    let h2 := set_queue (fun _ => []) h1 in
    let h3 :=
      set_stats
        (fun prev =>
           {| Stats.totalMessages := Stats.totalMessages prev;
              Stats.processedMessages := Stats.processedMessages prev;
              Stats.pendingMessages := 0;
              Stats.ideasGenerated := Stats.ideasGenerated prev;
              Stats.lastProcessedAt := Stats.lastProcessedAt prev |}) h2 in
    let h4 := set_agentContext updatedAgentContext h3 in
    let h5 :=
      set_messages
        (fun prev =>
           (fun msg => if in_batch queuedMessages msg
                       then Message.mark_processed msg else msg) <$> prev) h4 in
    {| hook := h5;
       inflight := Some queuedMessages;
       timers := timers w;
       calls := calls w ++
                  [generation_request
                     (AgentContext.conversationHistory updatedAgentContext) agentMessages];
       console := console w |}.

(** What [llmManager.generate] resolves with. *)
Record LLMResponse : Type := {
  content : string;
  model : option string;
  finishReason : option string
}.

(** [processQueue] from the settling of its [await] to its end: the rest
    of the [try] block when the call resolved, the [catch] block when it
    rejected, then the [finally] block, which schedules the re-enqueue
    check. [s] stamps the assistant message. Without a suspended call
    there is nothing to resume. *)
Definition settle (result : outcome JsError LLMResponse) (s : Stamp) (w : World) : World :=
  match inflight w with
  | None => w
  | Some queuedMessages =>
      let h := hook w in
      let '(h1, console1) :=
        match result with
        | Ret response =>
            let assistantMessage :=
              {| Message.id := message_id s;
                 Message.content := content response;
                 Message.timestamp := Time.Date (now s);
                 Message.type := assistant;
                 Message.processed := Some true |} in
            (set_stats
               (fun prev =>
                  {| Stats.totalMessages := Stats.totalMessages prev;
                     Stats.processedMessages :=
                       Stats.processedMessages prev + Z.of_nat (length queuedMessages);
                     Stats.pendingMessages := Stats.pendingMessages prev;
                     Stats.ideasGenerated := Stats.ideasGenerated prev;
                     Stats.lastProcessedAt := Some (Time.Date (now s)) |})
               (set_messages (fun prev => prev ++ [assistantMessage]) h),
             console w)
        | Throw error => (h, console w ++ [error])
        end in
      {| hook := set_processing false h1;
         inflight := None;
         timers := S (timers w);
         calls := calls w;
         console := console1 |}
  end.

(** The callback of the 100 ms timer set in the [finally] block. [fresh]
    gives the stamp of the queue item made for the message at each
    index. The updater passed to [setMessages] is taken to run once, as
    it does outside development mode. *)
Definition recheck (fresh : nat -> Stamp) (w : World) : World :=
  match timers w with
  | O => w
  | S n =>
      let unprocessedMessages := filter (fun msg => Message.unprocessed_user msg = true)
                                        (messages (hook w)) in
      let h :=
        if (0 <? length unprocessedMessages)%nat then
          let newQueueItems := imap (fun i msg => new_queue_item msg (fresh i))
                                    unprocessedMessages in
          set_stats
            (fun prevStats =>
               {| Stats.totalMessages := Stats.totalMessages prevStats;
                  Stats.processedMessages := Stats.processedMessages prevStats;
                  Stats.pendingMessages :=
                    Stats.pendingMessages prevStats + Z.of_nat (length unprocessedMessages);
                  Stats.ideasGenerated := Stats.ideasGenerated prevStats;
                  Stats.lastProcessedAt := Stats.lastProcessedAt prevStats |})
            (set_queue (fun prevQueue => prevQueue ++ newQueueItems) (hook w))
        else hook w in
      {| hook := h; inflight := inflight w; timers := n;
         calls := calls w; console := console w |}
  end.

(** *** [removeMessage] *)

Definition removeMessage (messageId : string) (w : World) : World :=
  with_hook
    (fun h =>
       set_stats
         (fun prev =>
            {| Stats.totalMessages := Z.max 0 (Stats.totalMessages prev - 1);
               Stats.processedMessages := Stats.processedMessages prev;
               Stats.pendingMessages := Z.max 0 (Stats.pendingMessages prev - 1);
               Stats.ideasGenerated := Stats.ideasGenerated prev;
               Stats.lastProcessedAt := Stats.lastProcessedAt prev |})
         (set_queue
            (fun prev => filter (fun item => Message.id (QueueItem.message item) ≠ messageId) prev)
            (set_messages
               (fun prev => filter (fun msg => Message.id msg ≠ messageId) prev) h)))
    w.

(** *** [moveMessageUp] *)

(** [findIndex(item => item.message.id === messageId)]: [None] is -1. *)
Definition findIndex (messageId : string) (q : list QueueItem.t) : option nat :=
  fst <$> list_find (fun item => Message.id (QueueItem.message item) = messageId) q.

(** [[l[i], l[i - 1]] = [l[i - 1], l[i]]], for [i = S k] inside [l]. *)
Definition swap_with_previous {A} (k : nat) (l : list A) : list A :=
  match l !! k, l !! S k with
  | Some a, Some b => <[S k := a]> (<[k := b]> l)
  | _, _ => l
  end.

(** The copy of the queue with the entry moved, when its index is
    positive. *)
Definition moved (messageId : string) (q : list QueueItem.t) : list QueueItem.t :=
  match findIndex messageId q with
  | Some (S k) => swap_with_previous k q
  | _ => q
  end.

(** [unprocessedMessages.find(msg => msg.id === id)]. *)
Definition find_message (id : string) (l : list Message.t) : option Message.t :=
  snd <$> list_find (fun msg => Message.id msg = id) l.

(** [queue] is the value in the closure of the callback. *)
Definition moveMessageUp (queue : list QueueItem.t) (messageId : string) (w : World) : World :=
  with_hook
    (fun h =>
       set_messages
         (fun prev =>
            let unprocessedMessages :=
              filter (fun msg => Message.unprocessed_user msg = true) prev in
            let processedMessages :=
              filter (fun msg => Message.unprocessed_user msg = false) prev in
            match findIndex messageId queue with
            | Some (S k) =>
                let newQueue := swap_with_previous k queue in
                let reorderedUnprocessed :=
                  omap (fun queueItem =>
                          find_message (Message.id (QueueItem.message queueItem))
                                       unprocessedMessages) newQueue in
                reorderedUnprocessed ++ processedMessages
            | _ => prev
            end)
         (set_queue (fun prev => moved messageId prev) h))
    w.

(** *** [generateMarkdownSummary] *)

Definition set_markdownSummary (d : option AgentProcessor.MarkdownSummary) (h : Hook) : Hook :=
  {| queue := queue h; messages := messages h; stats := stats h;
     context := context h; agentContext := agentContext h;
     isProcessing := isProcessing h; currentProvider := currentProvider h;
     markdownSummary := d; autoProcess := autoProcess h;
     processingRef := processingRef h |}.

(** The hook's [generateMarkdownSummary] once the synthesizer's request
    has settled with [result]: the document is stored, or the error is
    written to the console. With no turn in the context it returns
    before any request. *)
Definition summary_settled
    (result : outcome JsError string) (t : Z) (localeDate : string) (w : World) : World :=
  if (length (AgentContext.conversationHistory (agentContext (hook w))) =? 0)%nat then w
  else
    match content ← result; AgentProcessor.generateMarkdownSummary_resume content t localeDate with
    | Ret summary => with_hook (set_markdownSummary (Some summary)) w
    | Throw error =>
        {| hook := hook w; inflight := inflight w; timers := timers w;
           calls := calls w; console := console w ++ [error] |}
    end.

Definition toggleAutoProcess (w : World) : World :=
  with_hook (set_autoProcess negb) w.

(** *** Runs *)

(** The calls a task can make on the callbacks the hook returns. *)
Inductive Call : Type :=
| CallAddMessage (content : string) (sm sq : Stamp)
| CallProcessQueue (t : Z)
| CallRemoveMessage (messageId : string)
| CallMoveMessageUp (messageId : string)
| CallToggleAutoProcess.

(** One call of a callback that the render [rendered] returned.
    [processQueue] and [moveMessageUp] read [queue] and [agentContext]
    from their closure, which holds the values of that render, not what
    the cells have become since; the other callbacks read no cell. *)
Definition call (rendered : Hook) (c : Call) (w : World) : World :=
  match c with
  | CallAddMessage content sm sq => addMessage content sm sq w
  | CallProcessQueue t => processQueue (queue rendered) (agentContext rendered) t w
  | CallRemoveMessage messageId => removeMessage messageId w
  | CallMoveMessageUp messageId => moveMessageUp (queue rendered) messageId w
  | CallToggleAutoProcess => toggleAutoProcess w
  end.

(** The tasks of a session. The hook is rendered again between two
    tasks, so the callbacks a task calls are those of the render that saw
    every update of the tasks before: their closure holds the cells as
    they are when the task starts. Each of the first eight makes one call
    of a callback, or resumes [processQueue] after its [await], or runs
    the timer's callback, or is a whole summary request. [Batch] is a
    task that makes several calls in a row (one event handler, say): the
    updates are batched, no render comes between the calls, and every
    call is made on a callback of the render before the task, whose
    closure has none of the updates of the calls before it. *)
Inductive Op : Type :=
| AddMessage (content : string) (sm sq : Stamp)
| ProcessQueue (t : Z)
| Settle (result : outcome JsError LLMResponse) (s : Stamp)
| Recheck (fresh : nat -> Stamp)
| RemoveMessage (messageId : string)
| MoveMessageUp (messageId : string)
| SummarySettled (result : outcome JsError string) (t : Z) (localeDate : string)
| ToggleAutoProcess
| Batch (calls : list Call).

Definition step (w : World) (o : Op) : World :=
  match o with
  | AddMessage content sm sq => addMessage content sm sq w
  | ProcessQueue t => processQueue (queue (hook w)) (agentContext (hook w)) t w
  | Settle result s => settle result s w
  | Recheck fresh => recheck fresh w
  | RemoveMessage messageId => removeMessage messageId w
  | MoveMessageUp messageId => moveMessageUp (queue (hook w)) messageId w
  | SummarySettled result t localeDate => summary_settled result t localeDate w
  | ToggleAutoProcess => toggleAutoProcess w
  | Batch calls => foldl (fun w' c => call (hook w) c w') w calls
  end.

Definition run (w : World) (ops : list Op) : World := foldl step w ops.

(** The worlds a session started at some time can be in. *)
Definition reachable (w : World) : Prop :=
  exists t0 ops, w = run (initial t0) ops.

(** A task that makes at most one call: the hook is rendered before the
    next call is made. *)
Definition one_call (o : Op) : bool :=
  match o with
  | Batch calls => (length calls <=? 1)%nat
  | _ => true
  end.

(** The task that makes the call [c] alone. *)
Definition alone (c : Call) : Op :=
  match c with
  | CallAddMessage content sm sq => AddMessage content sm sq
  | CallProcessQueue t => ProcessQueue t
  | CallRemoveMessage messageId => RemoveMessage messageId
  | CallMoveMessageUp messageId => MoveMessageUp messageId
  | CallToggleAutoProcess => ToggleAutoProcess
  end.

(** The worlds of the sessions in which the hook is rendered between any
    two calls: no task makes two. *)
Definition rendered_between_calls (w : World) : Prop :=
  exists t0 ops, forallb one_call ops = true /\ w = run (initial t0) ops.

(** *** What the caller of [processQueue] gets *)



(** *** Observations *)

(** The number of user messages not yet processed. *)
Definition unprocessed_count (w : World) : Z :=
  Z.of_nat (length (filter (fun msg => Message.unprocessed_user msg = true)
                           (messages (hook w)))).

(** The message identifiers of the queue, in order. *)
Definition queued_ids (w : World) : list string :=
  (fun item => Message.id (QueueItem.message item)) <$> queue (hook w).

(** The identifiers of the unprocessed user messages, in the order of
    the history. *)
Definition displayed_ids (w : World) : list string :=
  Message.id <$> filter (fun msg => Message.unprocessed_user msg = true) (messages (hook w)).

(** Every queue entry is the entry of some unprocessed user message of
    the history. *)
Definition queued_in_history (w : World) : Prop :=
  forall item, item ∈ queue (hook w) ->
    exists msg, msg ∈ messages (hook w)
                /\ Message.id msg = Message.id (QueueItem.message item)
                /\ Message.unprocessed_user msg = true.

End Engine.

(** ** The persisted record ([saveToStorage], [loadFromStorage]) *)

Module Storage.
Import Engine.

(** The record under the storage key, as [JSON.parse] reads it back:
    [JSON.stringify] writes each date through [toISOString], so every
    date of [dataToSave] is a string here; the other fields are
    unchanged, and a field that was [undefined] is absent. *)
Record Saved : Type := {
  messages : list Message.t;
  queue : list QueueItem.t;
  stats : Stats.t;
  context : BrainstormContext.t;
  agentContext : AgentContext.t;
  markdownSummary : option AgentProcessor.MarkdownSummary;
  currentProvider : string;
  autoProcess : bool;
  timestamp : Z
}.

Definition message_json (m : Message.t) : Message.t :=
  {| Message.id := Message.id m; Message.content := Message.content m;
     Message.timestamp := Time.through_json (Message.timestamp m);
     Message.type := Message.type m; Message.processed := Message.processed m |}.

Definition item_json (i : QueueItem.t) : QueueItem.t :=
  {| QueueItem.id := QueueItem.id i;
     QueueItem.message := message_json (QueueItem.message i);
     QueueItem.priority := QueueItem.priority i;
     QueueItem.addedAt := Time.through_json (QueueItem.addedAt i) |}.

Definition stats_json (s : Stats.t) : Stats.t :=
  {| Stats.totalMessages := Stats.totalMessages s;
     Stats.processedMessages := Stats.processedMessages s;
     Stats.pendingMessages := Stats.pendingMessages s;
     Stats.ideasGenerated := Stats.ideasGenerated s;
     Stats.lastProcessedAt := Time.through_json <$> Stats.lastProcessedAt s |}.

Definition context_json (c : BrainstormContext.t) : BrainstormContext.t :=
  {| BrainstormContext.conversationHistory :=
       message_json <$> BrainstormContext.conversationHistory c;
     BrainstormContext.currentTopic := BrainstormContext.currentTopic c;
     BrainstormContext.generatedIdeas := BrainstormContext.generatedIdeas c;
     BrainstormContext.lastContextUpdate :=
       Time.through_json (BrainstormContext.lastContextUpdate c) |}.

Definition turn_json (m : AgentMessage.t) : AgentMessage.t :=
  {| AgentMessage.id := AgentMessage.id m; AgentMessage.role := AgentMessage.role m;
     AgentMessage.content := AgentMessage.content m;
     AgentMessage.timestamp := Time.through_json (AgentMessage.timestamp m) |}.

Definition agentContext_json (c : AgentContext.t) : AgentContext.t :=
  {| AgentContext.sessionId := AgentContext.sessionId c;
     AgentContext.conversationHistory := turn_json <$> AgentContext.conversationHistory c;
     AgentContext.currentTopic := AgentContext.currentTopic c;
     AgentContext.extractedInsights := AgentContext.extractedInsights c;
     AgentContext.generatedIdeas := AgentContext.generatedIdeas c;
     AgentContext.summaryPoints := AgentContext.summaryPoints c;
     AgentContext.lastProcessedAt := Time.through_json (AgentContext.lastProcessedAt c);
     AgentContext.processingStrategy := AgentContext.processingStrategy c |}.

Definition summary_json (d : AgentProcessor.MarkdownSummary) : AgentProcessor.MarkdownSummary :=
  {| AgentProcessor.title := AgentProcessor.title d;
     AgentProcessor.overview := AgentProcessor.overview d;
     AgentProcessor.keyInsights := AgentProcessor.keyInsights d;
     AgentProcessor.generatedIdeas := AgentProcessor.generatedIdeas d;
     AgentProcessor.actionItems := AgentProcessor.actionItems d;
     AgentProcessor.questions := AgentProcessor.questions d;
     AgentProcessor.nextSteps := AgentProcessor.nextSteps d;
     AgentProcessor.createdAt := Time.through_json (AgentProcessor.createdAt d) |}.

(** [saveToStorage] at time [t]: what is under the key afterwards. *)
Definition saveToStorage (h : Hook) (t : Z) : Saved :=
  {| messages := message_json <$> Engine.messages h;
     queue := item_json <$> Engine.queue h;
     stats := stats_json (Engine.stats h);
     context := context_json (Engine.context h);
     agentContext := agentContext_json (Engine.agentContext h);
     markdownSummary := summary_json <$> Engine.markdownSummary h;
     currentProvider := Engine.currentProvider h;
     autoProcess := Engine.autoProcess h;
     timestamp := t |}.

(** Truthiness of a date field. *)
Definition truthy_time (v : Time.TimeValue) : bool :=
  match v with
  | Time.Date _ | Time.InvalidDate => true
  | Time.IsoString s => negb (String.eqb s "")
  | Time.NullValue => false
  end.

(** [{ ...msg, timestamp: new Date(msg.timestamp) }]. *)
Definition revive_message (msg : Message.t) : Message.t :=
  {| Message.id := Message.id msg; Message.content := Message.content msg;
     Message.timestamp := Time.new_Date (Message.timestamp msg);
     Message.type := Message.type msg; Message.processed := Message.processed msg |}.

Definition revive_item (item : QueueItem.t) : QueueItem.t :=
  {| QueueItem.id := QueueItem.id item;
     QueueItem.message := revive_message (QueueItem.message item);
     QueueItem.priority := QueueItem.priority item;
     QueueItem.addedAt := Time.new_Date (QueueItem.addedAt item) |}.

(** [loadFromStorage] when the key holds [parsed]: the cells it sets, in
    a hook [h] that has just been created. *)
Definition loadFromStorage (parsed : Saved) (h : Hook) : Hook :=
  {| Engine.messages := revive_message <$> messages parsed;
     Engine.queue := revive_item <$> queue parsed;
     Engine.stats :=
       {| Stats.totalMessages := Stats.totalMessages (stats parsed);
          Stats.processedMessages := Stats.processedMessages (stats parsed);
          Stats.pendingMessages := Stats.pendingMessages (stats parsed);
          Stats.ideasGenerated := Stats.ideasGenerated (stats parsed);
          Stats.lastProcessedAt :=
            match Stats.lastProcessedAt (stats parsed) with
            | Some v => if truthy_time v then Some (Time.new_Date v) else None
            | None => None
            end |};
     Engine.context :=
       {| BrainstormContext.conversationHistory :=
            BrainstormContext.conversationHistory (context parsed);
          BrainstormContext.currentTopic := BrainstormContext.currentTopic (context parsed);
          BrainstormContext.generatedIdeas := BrainstormContext.generatedIdeas (context parsed);
          BrainstormContext.lastContextUpdate :=
            Time.new_Date (BrainstormContext.lastContextUpdate (context parsed)) |};
     Engine.agentContext :=
       {| AgentContext.sessionId := AgentContext.sessionId (agentContext parsed);
          AgentContext.conversationHistory :=
            AgentContext.conversationHistory (agentContext parsed);
          AgentContext.currentTopic := AgentContext.currentTopic (agentContext parsed);
          AgentContext.extractedInsights := AgentContext.extractedInsights (agentContext parsed);
          AgentContext.generatedIdeas := AgentContext.generatedIdeas (agentContext parsed);
          AgentContext.summaryPoints := AgentContext.summaryPoints (agentContext parsed);
          AgentContext.lastProcessedAt :=
            Time.new_Date (AgentContext.lastProcessedAt (agentContext parsed));
          AgentContext.processingStrategy :=
            AgentContext.processingStrategy (agentContext parsed) |};
     Engine.isProcessing := Engine.isProcessing h;
     Engine.currentProvider :=
       if negb (String.eqb (currentProvider parsed) "")
       then currentProvider parsed else Engine.currentProvider h;
     Engine.markdownSummary :=
       match markdownSummary parsed with
       | Some d => Some d
       | None => Engine.markdownSummary h
       end;
     Engine.autoProcess := autoProcess parsed;
     Engine.processingRef := Engine.processingRef h |}.

(** Saving [h] at [t] and loading the result into a new hook created at
    [t']. *)
Definition reload (h : Hook) (t t' : Z) : Hook :=
  loadFromStorage (saveToStorage h t) (initial_hook t').

End Storage.

(** ** A session with a submission during a drain *)

Module Scenario.
Import Engine.

Definition stamp (t : Z) (r : string) : Stamp := {| now := t; random := r |}.

Definition reply : LLMResponse :=
  {| content := "Both ideas fit together."; model := Some "llama3.1";
     finishReason := Some "stop" |}.

(** A first message is submitted and drained; a second one is submitted
    while the generation call is in flight; the call resolves. *)
Definition drain_with_submission : list Op :=
  [ AddMessage "idea 1" (stamp 1700000000000 "k3x9q2m1z") (stamp 1700000000000 "p8w4e7r2t");
    ProcessQueue 1700000000500;
    AddMessage "idea 2" (stamp 1700000001000 "b5n6v7c8x") (stamp 1700000001000 "h1j2k3l4m");
    Settle (Ret reply) (stamp 1700000002000 "a9s8d7f6g") ].

(** The 100 ms timer of the finished drain then fires. *)
Definition the_recheck : Op :=
  Recheck (fun i => stamp 1700000002100 ("u" +:+ pretty i)).

Definition before_recheck : World := run (initial 1699999990000) drain_with_submission.
Definition after_recheck : World := step before_recheck the_recheck.

(** The same session with a summary generated from the sample payload
    after the drain. *)
Definition with_summary : World :=
  step before_recheck (SummarySettled (Ret AgentProcessor.sample_payload) 1700000003000 "11/14/2023").


(** Two submissions during a drain, then the reply and the timer: the
    queue holds two entries for each of the two messages. *)
Definition two_late_submissions : World :=
  run (initial 0)
    [AddMessage "idea 1" (stamp 1 "a") (stamp 1 "b");
     ProcessQueue 2;
     AddMessage "idea 2" (stamp 3 "c") (stamp 3 "d");
     AddMessage "idea 3" (stamp 4 "e") (stamp 4 "f");
     Settle (Ret reply) (stamp 5 "g");
     Recheck (fun i => stamp 6 (if (i =? 0)%nat then "h" else "i"))].

End Scenario.

(** ** What the engine keeps true *)

Module Invariants.
Import Engine.

(** The turns of the conversation context. *)
Definition turns (w : World) : list AgentMessage.t :=
  AgentContext.conversationHistory (agentContext (hook w)).

(** Every unprocessed user message of the history has a queue entry. *)
Definition none_stranded (w : World) : Prop :=
  forall msg, msg ∈ messages (hook w) -> Message.unprocessed_user msg = true ->
    Message.id msg ∈ queued_ids w.

(** The flag shown to the interface is the guard, and the guard is up
    exactly while a call is suspended. *)
Definition flags_agree (w : World) : Prop :=
  isProcessing (hook w) = processingRef (hook w)
  /\ (inflight w = None <-> processingRef (hook w) = false).

Definition counters_nonnegative (w : World) : Prop :=
  0 <= Stats.totalMessages (stats (hook w))
  /\ 0 <= Stats.processedMessages (stats (hook w))
  /\ 0 <= Stats.pendingMessages (stats (hook w)).

(** A message of the history is a user message with its flag set to a
    boolean, or an assistant message marked processed. *)
Definition history_well_formed (w : World) : Prop :=
  forall msg, msg ∈ messages (hook w) ->
    (Message.type msg = user /\ is_Some (Message.processed msg))
    \/ (Message.type msg = assistant /\ Message.processed msg = Some true).

(** [moveMessageUp] called [n] times, each call from the render that
    follows the one before. *)
Definition promote (n : nat) (messageId : string) (w : World) : World :=
  Nat.iter n (fun w' => moveMessageUp (queue (hook w')) messageId w') w.

End Invariants.

(** ** Generation by the adapters *)

Module Adapters.
Import Providers.

(** A response with its body: what [response.json()] resolves or rejects
    with, and what the reader of [response.body] delivers ([None]: there
    is no body): the chunks, decoded, then the end of the stream or a
    read that rejects. The decoder runs in streaming mode, so a character
    cut by a chunk boundary is decoded whole. *)
Record HttpResponse : Type := {
  ok : bool;
  status : Z;
  json : outcome JsError JSON.json;
  body : option (list string * option JsError)
}.

Definition HttpFetch : Type := Request -> outcome JsError HttpResponse.

(** [LLMResponse]. The fields hold what the service sent, of whatever
    type; [None] is [undefined]. *)
Record LLMResponse : Type := {
  content : JSON.json;
  usage : option JSON.json;
  model : option JSON.json;
  finishReason : option JSON.json
}.

(** [v.key] on a parsed value, for a [key] that no prototype defines;
    the error is the [TypeError] of reading a property of [null]. *)
Definition prop (v : JSON.json) (key : string) : outcome JsError (option JSON.json) :=
  match v with
  | JSON.JNull => Throw ("Cannot read properties of null (reading '" +:+ key +:+ "')")
  | JSON.JObj members => Ret (JSON.member key members)
  | _ => Ret None
  end.

(** [v?.key]. *)
Definition opt_prop (v : option JSON.json) (key : string) : option JSON.json :=
  match v with
  | Some (JSON.JObj members) => JSON.member key members
  | _ => None
  end.

(** [v?.[0]]: the first item of an array, the member ["0"] of an object,
    the first character of a string (here its first byte; only that it is
    a non-empty string matters to the callers). *)
Definition opt_first (v : option JSON.json) : option JSON.json :=
  match v with
  | Some (JSON.JArr items) => head items
  | Some (JSON.JObj members) => JSON.member "0" members
  | Some (JSON.JStr (String c _)) => Some (JSON.JStr (String c ""))
  | _ => None
  end.

Definition truthy_opt (v : option JSON.json) : bool :=
  match v with
  | Some x => JSON.truthy x
  | None => false
  end.

(** The handler of [generate]: every value thrown in its [try] block is
    an [Error] (the [TypeError] of a failed [fetch] or of a property read,
    the [SyntaxError] of [json()], the adapter's own), so the new error
    carries its message. *)
Definition wrap (error : JsError) : JsError := "Failed to generate response: " +:+ error.

(** *** [LlamaProvider.generate] *)

Definition llama_generate (baseUrl : string) (fetch : HttpFetch) (request : LLMRequest)
    : outcome JsError LLMResponse :=
  let model := default "llama3.1" (Providers.model request) in
  try_catch
    (response ← fetch (llama_generate_request baseUrl request);
     if negb (ok response)
     then Throw ("HTTP error! status: " +:+ pretty (status response))
     else
       data ← json response;
       answer ← prop data "response";
       Ret {| content := JSON.or_else answer (JSON.JStr "");
              usage := None;
              model := Some (JSON.JStr model);
              finishReason := Some (JSON.JStr "stop") |})
    (fun error => Throw (wrap error)).

(** *** [OpenAIProvider.generate] *)

Definition role_name (r : Role) : string :=
  match r with
  | system => "system"
  | user => "user"
  | assistant => "assistant"
  end.

Definition message_json (msg : ChatMessage) : JSON.json :=
  JSON.JObj [("role", JSON.JStr (role_name (role msg)));
             ("content", JSON.JStr (Providers.content msg))].

(** The request of [generate] ([stream = false]) and of [generateStream]
    ([stream = true]). *)
Definition openai_request (apiKey : string) (request : LLMRequest) (stream : bool) : Request :=
  let model := default "gpt-3.5-turbo" (Providers.model request) in
  let temperature := default (7, -1) (temperature request) in
  let maxTokens := default 2000 (maxTokens request) in
  {| url := "https://api.openai.com/v1" +:+ "/chat/completions";
     method := "POST";
     headers := [("Authorization", "Bearer " +:+ apiKey);
                 ("Content-Type", "application/json")];
     Providers.body :=
       Some (JSON.stringify
               (JSON.JObj [("model", JSON.JStr model);
                           ("messages", JSON.JArr (message_json <$> messages request));
                           ("temperature", num_json temperature);
                           ("max_tokens", JSON.JNum maxTokens 0);
                           ("stream", JSON.JBool stream)])) |}.

Section WithToString.

(** [String(v)], as a template literal applies it to a value that the
    service chose. *)
Variable ToString : JSON.json -> string.

(** The error thrown for a response that is not a success: the one the
    adapter builds, or the [TypeError] of reading [errorData.error] when
    the body is [null]. *)
Definition openai_error (response : HttpResponse) : JsError :=
  let errorData := match json response with
                   | Ret v => v
                   | Throw _ => JSON.JObj []
                   end in
  match prop errorData "error" with
  | Throw error => error
  | Ret error =>
      "OpenAI API error: " +:+ pretty (status response) +:+ " - "
      +:+ ToString (JSON.or_else (opt_prop error "message") (JSON.JStr "Unknown error"))
  end.

Definition openai_generate (apiKey : option string) (fetch : HttpFetch) (request : LLMRequest)
    : outcome JsError LLMResponse :=
  if negb (truthy_str apiKey) then Throw "OpenAI API key not provided"
  else
    try_catch
      (response ← fetch (openai_request (default "" apiKey) request false);
       if negb (ok response) then Throw (openai_error response)
       else
         data ← json response;
         choices ← prop data "choices";
         let choice := opt_first choices in
         if negb (truthy_opt choice) then Throw "No response from OpenAI API"
         else
           Ret {| content := JSON.or_else (opt_prop (opt_prop choice "message") "content")
                               (JSON.JStr "");
                  usage := opt_prop (Some data) "usage";
                  model := opt_prop (Some data) "model";
                  finishReason := opt_prop choice "finish_reason" |})
      (fun error => Throw (wrap error)).

End WithToString.

(** *** The streams *)

(** What a generator does when it is driven to its end: the values it
    yields, then a normal return ([None]) or the error it throws. *)
Record Stream : Type := {
  yields : list LLMResponse;
  thrown : option JsError
}.

Definition failed (error : JsError) : Stream := {| yields := []; thrown := Some error |}.

(** [s.split('\n')]: the pieces between the line feeds, never none. *)
Fixpoint split_lines (s : string) : list string :=
  match s with
  | EmptyString => [EmptyString]
  | String c r =>
      if Ascii.eqb c newline then EmptyString :: split_lines r
      else match split_lines r with
           | line :: lines => String c line :: lines
           | [] => [String c EmptyString]
           end
  end.

(** The [for] loop over the lines of a chunk; [step] gives what a line
    yields and whether the generator returns after it. *)
Fixpoint scan (step : string -> list LLMResponse * bool) (lines : list string)
    : list LLMResponse * bool :=
  match lines with
  | [] => ([], false)
  | line :: rest =>
      if (step line).2 then ((step line).1, true)
      else ((step line).1 ++ (scan step rest).1, (scan step rest).2)
  end.

(** The [while] loop over the chunks: the text read is added to the
    buffer, the buffer is split, its last piece is kept as the new buffer
    ([lines.pop() || '']) and the pieces before it are processed. *)
Fixpoint pump (step : string -> list LLMResponse * bool) (buffer : string)
    (chunks : list string) : list LLMResponse * bool :=
  match chunks with
  | [] => ([], false)
  | value :: rest =>
      let lines := split_lines (buffer +:+ value) in
      let processed := scan step (removelast lines) in
      if processed.2 then (processed.1, true)
      else (processed.1 ++ (pump step (default "" (last lines)) rest).1,
            (pump step (default "" (last lines)) rest).2)
  end.

(** The reading loop as a whole: a read that rejects is thrown on, unless
    the generator has returned before. *)
Definition read_all (step : string -> list LLMResponse * bool)
    (body : list string * option JsError) : Stream :=
  let result := pump step "" body.1 in
  {| yields := result.1; thrown := if result.2 then None else body.2 |}.

(** The body of [stream(fetch(request))], shared by the two adapters. *)
Definition stream_of (step : string -> list LLMResponse * bool)
    (fetched : outcome JsError HttpResponse) (not_ok : HttpResponse -> Stream) : Stream :=
  match fetched with
  | Throw error => failed error
  | Ret response =>
      if negb (ok response) then not_ok response
      else match body response with
           | None => failed "No response body"
           | Some b => read_all step b
           end
  end.

(** [line.trim()] is not empty. *)
Definition not_blank (line : string) : bool :=
  negb (bool_decide (AgentProcessor.trim (String.list_ascii_of_string line) = [])).

(** One line of the Llama stream. A line that does not parse, or that
    parses to [null], is skipped (the inner [catch]). *)
Definition llama_line (model : string) (line : string) : list LLMResponse * bool :=
  if not_blank line then
    match JSON.parse line with
    | None => ([], false)
    | Some data =>
        match prop data "response" with
        | Throw _ => ([], false)
        | Ret answer =>
            let done := truthy_opt (opt_prop (Some data) "done") in
            (match answer with
             | Some text =>
                 if JSON.truthy text
                 then [{| content := text;
                          usage := None;
                          model := Some (JSON.JStr model);
                          finishReason := if done then Some (JSON.JStr "stop") else None |}]
                 else []
             | None => []
             end, done)
        end
    end
  else ([], false).

(** The request of [LlamaProvider.generateStream]. *)
Definition llama_stream_request (baseUrl : string) (request : LLMRequest) : Request :=
  let model := default "llama3.1" (Providers.model request) in
  let temperature := default (7, -1) (temperature request) in
  let maxTokens := default 2000 (maxTokens request) in
  {| url := baseUrl +:+ "/api/generate";
     method := "POST";
     headers := json_headers;
     Providers.body :=
       Some (JSON.stringify
               (JSON.JObj [("model", JSON.JStr model);
                           ("prompt", JSON.JStr (formatMessagesAsPrompt (messages request)));
                           ("stream", JSON.JBool true);
                           ("options",
                            JSON.JObj [("temperature", num_json temperature);
                                       ("num_predict", JSON.JNum maxTokens 0)])])) |}.

(** [LlamaProvider.generateStream]; its handler throws the error on as it
    is. *)
Definition llama_generateStream (baseUrl : string) (fetch : HttpFetch) (request : LLMRequest)
    : Stream :=
  stream_of (llama_line (default "llama3.1" (Providers.model request)))
    (fetch (llama_stream_request baseUrl request))
    (fun response => failed ("HTTP error! status: " +:+ pretty (status response))).

(** [line.startsWith('data: ')] and [line.slice(6)]. *)
Definition data_of (line : string) : option string :=
  String.string_of_list_ascii
    <$> AgentProcessor.starts_with (String.list_ascii_of_string "data: ")
          (String.list_ascii_of_string line).

(** One line of the OpenAI stream. *)
Definition openai_line (line : string) : list LLMResponse * bool :=
  match data_of line with
  | None => ([], false)
  | Some data =>
      if String.eqb data "[DONE]" then ([], true)
      else
        match JSON.parse data with
        | None => ([], false)
        | Some parsed =>
            match prop parsed "choices" with
            | Throw _ => ([], false)
            | Ret choices =>
                let choice := opt_first choices in
                match opt_prop (opt_prop choice "delta") "content" with
                | Some text =>
                    if JSON.truthy text
                    then ([{| content := text;
                              usage := None;
                              model := opt_prop (Some parsed) "model";
                              finishReason := opt_prop choice "finish_reason" |}], false)
                    else ([], false)
                | None => ([], false)
                end
            end
        end
  end.

Section StreamWithToString.
Variable ToString : JSON.json -> string.

(** [OpenAIProvider.generateStream]. *)
Definition openai_generateStream (apiKey : option string) (fetch : HttpFetch)
    (request : LLMRequest) : Stream :=
  if negb (truthy_str apiKey) then failed "OpenAI API key not provided"
  else
    stream_of openai_line
      (fetch (openai_request (default "" apiKey) request true))
      (fun response => failed (openai_error ToString response)).

End StreamWithToString.

(** The text a reader delivers, and its complete lines: those that a line
    feed ends. *)
Definition text_of (chunks : list string) : string := foldr String.append "" chunks.

Definition complete_lines (text : string) : list string := removelast (split_lines text).

End Adapters.

(** ** Processing one message ([AgentProcessor.processMessage]) *)

Module Processing.
Import Engine.

Definition processingThreshold : nat := 5.
Definition summaryThreshold : nat := 10.

(** [determineStrategy]. *)
Definition determineStrategy (context : AgentContext.t) : Strategy :=
  let messageCount := length (AgentContext.conversationHistory context) in
  if (summaryThreshold <=? messageCount)%nat then summarize
  else if (processingThreshold <=? messageCount)%nat then generate
  else accumulate.

(** [l.slice(-n)]: the last [n] items, all of them when there are
    fewer. *)
Definition slice_last {A} (n : nat) (l : list A) : list A := drop (length l - n) l.

(** [turns.map(m => `${m.role}: ${m.content}`).join('\n')]. *)
Definition transcript (turns : list AgentMessage.t) : string :=
  join nl ((fun m => role_text (AgentMessage.role m) +:+ ": " +:+ AgentMessage.content m)
             <$> turns).

Definition quot : string := String dquote "".

Definition buildAccumulationPrompt (message : AgentMessage.t) (context : AgentContext.t)
    : string :=
  let recentMessages := slice_last 5 (AgentContext.conversationHistory context) in
  let conversationText := transcript recentMessages in
  "You are a helpful brainstorming assistant. Continue this conversation naturally and help the user explore their ideas.

Recent conversation:
"
  +:+ conversationText
  +:+ "

User's latest message: "
  +:+ AgentMessage.content message
  +:+ "

Please respond naturally to continue the brainstorming conversation. Be encouraging, ask follow-up questions, and help them explore their ideas further. Keep your response conversational and helpful.

IMPORTANT: Respond ONLY with a natural conversational message. Do not use any special formatting, JSON, or code blocks. Just talk to the user like a helpful brainstorming partner.".

Definition buildSummaryPrompt (context : AgentContext.t) : string :=
  let conversationText := transcript (AgentContext.conversationHistory context) in
  "Create a comprehensive summary of this brainstorming session:

Conversation:
"
  +:+ conversationText
  +:+ "

Existing insights: "
  +:+ pretty (length (AgentContext.extractedInsights context))
  +:+ "
Existing ideas: "
  +:+ pretty (length (AgentContext.generatedIdeas context))
  +:+ "

Please:
1. Provide a thoughtful summary of the conversation
2. Extract key insights and patterns
3. Identify the most important ideas
4. Suggest action items and next steps

Respond in JSON format:
{
  " +:+ quot +:+ "response" +:+ quot +:+ ": " +:+ quot +:+ "your summary response" +:+ quot +:+ ",
  " +:+ quot +:+ "insights" +:+ quot +:+ ": [
    {
      " +:+ quot +:+ "id" +:+ quot +:+ ": " +:+ quot +:+ "insight_1" +:+ quot +:+ ",
      " +:+ quot +:+ "content" +:+ quot +:+ ": " +:+ quot +:+ "insight description" +:+ quot +:+ ",
      " +:+ quot +:+ "category" +:+ quot +:+ ": " +:+ quot +:+ "technical|creative|strategic|practical" +:+ quot +:+ ",
      " +:+ quot +:+ "confidence" +:+ quot +:+ ": 0.9,
      " +:+ quot +:+ "sourceMessageId" +:+ quot +:+ ": " +:+ quot +:+ "summary" +:+ quot +:+ "
    }
  ],
  " +:+ quot +:+ "ideas" +:+ quot +:+ ": [
    {
      " +:+ quot +:+ "id" +:+ quot +:+ ": " +:+ quot +:+ "idea_1" +:+ quot +:+ ",
      " +:+ quot +:+ "title" +:+ quot +:+ ": " +:+ quot +:+ "idea title" +:+ quot +:+ ",
      " +:+ quot +:+ "description" +:+ quot +:+ ": " +:+ quot +:+ "idea description" +:+ quot +:+ ",
      " +:+ quot +:+ "category" +:+ quot +:+ ": " +:+ quot +:+ "category name" +:+ quot +:+ ",
      " +:+ quot +:+ "priority" +:+ quot +:+ ": " +:+ quot +:+ "high|medium|low" +:+ quot +:+ "
    }
  ],
  " +:+ quot +:+ "summaryPoints" +:+ quot +:+ ": [
    {
      " +:+ quot +:+ "id" +:+ quot +:+ ": " +:+ quot +:+ "point_1" +:+ quot +:+ ",
      " +:+ quot +:+ "title" +:+ quot +:+ ": " +:+ quot +:+ "point title" +:+ quot +:+ ",
      " +:+ quot +:+ "content" +:+ quot +:+ ": " +:+ quot +:+ "point content" +:+ quot +:+ ",
      " +:+ quot +:+ "type" +:+ quot +:+ ": " +:+ quot +:+ "insight|idea|action|question" +:+ quot +:+ ",
      " +:+ quot +:+ "priority" +:+ quot +:+ ": 1
    }
  ]
}".

Definition buildGenerationPrompt (message : AgentMessage.t) (context : AgentContext.t)
    : string :=
  let recentMessages := slice_last 3 (AgentContext.conversationHistory context) in
  let conversationText := transcript recentMessages in
  "Generate creative ideas based on this brainstorming context:

Recent conversation:
"
  +:+ conversationText
  +:+ "

Current message: "
  +:+ AgentMessage.content message
  +:+ "

Existing insights: "
  +:+ pretty (length (AgentContext.extractedInsights context))
  +:+ "
Existing ideas: "
  +:+ pretty (length (AgentContext.generatedIdeas context))
  +:+ "

Please:
1. Respond with enthusiasm and build on the ideas
2. Generate 2-3 creative ideas based on the context
3. Extract any new insights
4. Suggest practical next steps

Respond in JSON format:
{
  " +:+ quot +:+ "response" +:+ quot +:+ ": " +:+ quot +:+ "your enthusiastic response" +:+ quot +:+ ",
  " +:+ quot +:+ "insights" +:+ quot +:+ ": [
    {
      " +:+ quot +:+ "id" +:+ quot +:+ ": " +:+ quot +:+ "insight_1" +:+ quot +:+ ",
      " +:+ quot +:+ "content" +:+ quot +:+ ": " +:+ quot +:+ "insight description" +:+ quot +:+ ",
      " +:+ quot +:+ "category" +:+ quot +:+ ": " +:+ quot +:+ "technical|creative|strategic|practical" +:+ quot +:+ ",
      " +:+ quot +:+ "confidence" +:+ quot +:+ ": 0.8,
      " +:+ quot +:+ "sourceMessageId" +:+ quot +:+ ": " +:+ quot
  +:+ AgentMessage.id message
  +:+ quot +:+ "
    }
  ],
  " +:+ quot +:+ "ideas" +:+ quot +:+ ": [
    {
      " +:+ quot +:+ "id" +:+ quot +:+ ": " +:+ quot +:+ "idea_1" +:+ quot +:+ ",
      " +:+ quot +:+ "title" +:+ quot +:+ ": " +:+ quot +:+ "idea title" +:+ quot +:+ ",
      " +:+ quot +:+ "description" +:+ quot +:+ ": " +:+ quot +:+ "idea description" +:+ quot +:+ ",
      " +:+ quot +:+ "category" +:+ quot +:+ ": " +:+ quot +:+ "category name" +:+ quot +:+ ",
      " +:+ quot +:+ "priority" +:+ quot +:+ ": " +:+ quot +:+ "high|medium|low" +:+ quot +:+ "
    }
  ],
  " +:+ quot +:+ "summaryPoints" +:+ quot +:+ ": [
    {
      " +:+ quot +:+ "id" +:+ quot +:+ ": " +:+ quot +:+ "point_1" +:+ quot +:+ ",
      " +:+ quot +:+ "title" +:+ quot +:+ ": " +:+ quot +:+ "point title" +:+ quot +:+ ",
      " +:+ quot +:+ "content" +:+ quot +:+ ": " +:+ quot +:+ "point content" +:+ quot +:+ ",
      " +:+ quot +:+ "type" +:+ quot +:+ ": " +:+ quot +:+ "insight|idea|action|question" +:+ quot +:+ ",
      " +:+ quot +:+ "priority" +:+ quot +:+ ": 1
    }
  ]
}".

(** [AgentProcessingResult]. The fields read from the parsed reply hold
    whatever it holds; [None] is [undefined]. *)
Record AgentProcessingResult : Type := {
  response : option JSON.json;
  insights : JSON.json;
  ideas : JSON.json;
  summaryPoints : JSON.json;
  nextStrategy : Strategy;
  shouldGenerateSummary : bool
}.

(** The two messages of a request. *)
Definition request_of (instructions prompt : string) : Providers.LLMRequest :=
  {| Providers.messages :=
       [ {| Providers.role := Providers.system; Providers.content := instructions |};
         {| Providers.role := Providers.user; Providers.content := prompt |} ];
     Providers.model := None;
     Providers.temperature := None;
     Providers.maxTokens := None |}.

(** The request of [accumulateContext], [summarizeContext] and
    [generateIdeas]. *)
Definition strategy_request (strategy : Strategy) (message : AgentMessage.t)
    (context : AgentContext.t) : Providers.LLMRequest :=
  match strategy with
  | accumulate =>
      request_of "You are an AI brainstorming agent that accumulates context and extracts insights from conversations."
        (buildAccumulationPrompt message context)
  | summarize =>
      request_of "You are an AI brainstorming agent that creates comprehensive summaries and identifies key patterns."
        (buildSummaryPrompt context)
  | generate =>
      request_of "You are an AI brainstorming agent that generates creative ideas based on accumulated context."
        (buildGenerationPrompt message context)
  end.

(** What the three methods do with the content of the reply; reading a
    field of a reply that parses to [null] throws. *)
Definition strategy_result (strategy : Strategy) (context : AgentContext.t) (content : string)
    : outcome JsError AgentProcessingResult :=
  let parsed := AgentProcessor.parseAgentResponse content in
  response ← JSON.get parsed "response";
  insights ← JSON.get parsed "insights";
  ideas ← JSON.get parsed "ideas";
  summaryPoints ← JSON.get parsed "summaryPoints";
  Ret {| response := response;
         insights := JSON.or_else insights (JSON.JArr []);
         ideas := JSON.or_else ideas (JSON.JArr []);
         summaryPoints := JSON.or_else summaryPoints (JSON.JArr []);
         nextStrategy := match strategy with
                         | summarize => generate
                         | _ => accumulate
                         end;
         shouldGenerateSummary :=
           match strategy with
           | summarize => true
           | _ => (summaryThreshold <=? length (AgentContext.conversationHistory context))%nat
           end |}.

(** [{ ...context, conversationHistory: [...context.conversationHistory,
    message] }]. *)
Definition updatedContext (message : AgentMessage.t) (context : AgentContext.t)
    : AgentContext.t :=
  {| AgentContext.sessionId := AgentContext.sessionId context;
     AgentContext.conversationHistory := AgentContext.conversationHistory context ++ [message];
     AgentContext.currentTopic := AgentContext.currentTopic context;
     AgentContext.extractedInsights := AgentContext.extractedInsights context;
     AgentContext.generatedIdeas := AgentContext.generatedIdeas context;
     AgentContext.summaryPoints := AgentContext.summaryPoints context;
     AgentContext.lastProcessedAt := AgentContext.lastProcessedAt context;
     AgentContext.processingStrategy := AgentContext.processingStrategy context |}.

(** [processMessage]; [llm] is [llmManager.generate] followed by the
    reading of [content]. *)
Definition processMessage (message : AgentMessage.t) (context : AgentContext.t)
    (llm : Providers.LLMRequest -> outcome JsError string)
    : outcome JsError AgentProcessingResult :=
  let strategy := determineStrategy (updatedContext message context) in
  content ← llm (strategy_request strategy message (updatedContext message context));
  strategy_result strategy (updatedContext message context) content.

End Processing.

(** ** The hook and its provider manager *)

Module Session.
Import Providers LLMProviderManager.

(** The configuration the hook builds its manager with. *)
Definition initial_config : LLMConfig :=
  {| provider := "llama"; model := "llama3.1"; temperature := (7, -1);
     maxTokens := 2000; apiKey := None; url := None |}.

(** The cells of the hook and the manager it holds. *)
Record t : Type := {
  hook : Engine.Hook;
  llmManager : Manager
}.

(** The first render, at time [t0]. *)
Definition mount (env : Env) (t0 : Z) : t :=
  {| hook := Engine.initial_hook t0; llmManager := new env initial_config |}.

Definition set_currentProvider (providerName : string) (h : Engine.Hook) : Engine.Hook :=
  {| Engine.queue := Engine.queue h; Engine.messages := Engine.messages h;
     Engine.stats := Engine.stats h; Engine.context := Engine.context h;
     Engine.agentContext := Engine.agentContext h;
     Engine.isProcessing := Engine.isProcessing h;
     Engine.currentProvider := providerName;
     Engine.markdownSummary := Engine.markdownSummary h;
     Engine.autoProcess := Engine.autoProcess h;
     Engine.processingRef := Engine.processingRef h |}.

Section WithDefaultModel.

(** [provider.defaultModel], a field the adapters set themselves. *)
Variable defaultModel : Provider -> string.

(** [switchProvider]. *)
Definition switchProvider (env : Env) (providerName : string) (s : t) : t :=
  let result := setProvider providerName (llmManager s) in
  if result.1 then
    let hook' := set_currentProvider providerName (hook s) in
    match getCurrentProvider result.2 with
    | Some provider =>
        {| hook := hook';
           llmManager :=
             updateConfig env
               {| new_provider := Some providerName;
                  new_model := Some (defaultModel provider);
                  new_temperature := None; new_maxTokens := None;
                  new_apiKey := None; new_url := None |}
               result.2 |}
    | None => {| hook := hook'; llmManager := result.2 |}
    end
  else s.

(** The providers chosen one after the other, from the first render. *)
Definition choose (env : Env) (t0 : Z) (providerNames : list string) : t :=
  foldl (fun s providerName => switchProvider env providerName s) (mount env t0) providerNames.

End WithDefaultModel.

(** The page loaded again at [opened], after the state was saved at
    [saved]: a new hook with a manager of its own, into which the load
    effect puts what was saved. *)
Definition reopen (env : Env) (s : t) (saved opened : Z) : t :=
  {| hook := Storage.reload (hook s) saved opened; llmManager := new env initial_config |}.

(** [handleLLMConfigTest] of the chat interface: a manager built for the
    test from the configuration to try. *)
Definition handleLLMConfigTest (env : Env) (config : LLMConfig) (fetch : Fetch)
    : outcome JsError bool :=
  let testConfig :=
    {| provider := provider config; model := model config;
       temperature := temperature config; maxTokens := maxTokens config;
       apiKey := apiKey config; url := url config |} in
  try_catch (testConnection (new env testConfig) fetch) (fun error => Ret false).

End Session.

(** ** A streamed reply *)

Module StreamScenario.
Import Providers Adapters.

(** Two lines of an Ollama stream, and a third that no line feed ends. *)
Definition first_line : string :=
  JSON.stringify (JSON.JObj [("response", JSON.JStr "Hel"); ("done", JSON.JBool false)]).
Definition second_line : string :=
  JSON.stringify (JSON.JObj [("response", JSON.JStr "lo"); ("done", JSON.JBool false)]).
Definition last_line : string :=
  JSON.stringify (JSON.JObj [("response", JSON.JStr "!"); ("done", JSON.JBool true)]).

Definition respond (chunks : list string) : HttpFetch :=
  fun _ => Ret {| ok := true; status := 200; json := Throw "Unexpected token";
                  body := Some (chunks, None) |}.

Definition request : LLMRequest :=
  {| messages := [ {| role := user; Providers.content := "Say hello" |} ];
     Providers.model := None; temperature := None; maxTokens := None |}.

(** An OpenAI stream: one delta, then the end marker. *)
Definition delta_line : string :=
  "data: " +:+
  JSON.stringify
    (JSON.JObj [("model", JSON.JStr "gpt-3.5-turbo");
                ("choices",
                 JSON.JArr [JSON.JObj [("delta", JSON.JObj [("content", JSON.JStr "Hello")])]])]).

End StreamScenario.

(** ** States of the persisted record *)

Module Saved.
Import Engine.

(** The dates that [loadFromStorage] revives are [Date] objects holding a
    time value. *)
Definition dates_valid (h : Hook) : Prop :=
  Forall (fun m => Time.valid_date (Message.timestamp m)) (messages h)
  /\ Forall (fun i => Time.valid_date (QueueItem.addedAt i)
                      /\ Time.valid_date (Message.timestamp (QueueItem.message i)))
            (queue h)
  /\ (forall v, Stats.lastProcessedAt (stats h) = Some v -> Time.valid_date v)
  /\ Time.valid_date (BrainstormContext.lastContextUpdate (context h))
  /\ Time.valid_date (AgentContext.lastProcessedAt (agentContext h)).

(** The dates that [loadFromStorage] does not revive are not [Date]
    objects: there is none, or they are what an earlier load left. *)
Definition nested_dates_plain (h : Hook) : Prop :=
  Forall (fun turn => Time.is_date (AgentMessage.timestamp turn) = false)
         (AgentContext.conversationHistory (agentContext h))
  /\ Forall (fun m => Time.is_date (Message.timestamp m) = false)
            (BrainstormContext.conversationHistory (context h))
  /\ (forall d, markdownSummary h = Some d ->
                Time.is_date (AgentProcessor.createdAt d) = false).

(** No drain is running and a provider is named. *)
Definition at_rest (h : Hook) : Prop :=
  isProcessing h = false /\ processingRef h = false /\ currentProvider h ≠ "".

End Saved.

(** * Properties *)

(** ** Time values *)

Section TimeFacts.
Import Time.

Lemma all_from_spec count from f :
  all_from count from f = true ->
  forall x, from <= x < from + Z.of_nat count -> f x = true.
Proof.
  revert from. induction count as [|k IH]; intros from H x Hx; [lia|].
  cbn [all_from] in H. apply andb_true_iff in H as [H0 H1].
  destruct (decide (x = from)) as [->|Hne]; [exact H0|].
  apply (IH (from + 1)); [exact H1|lia].
Qed.

(** Checked on each of the 146097 days of an era. *)
Lemma era_days_ok : all_from (Z.to_nat 146097) 0 era_day_ok = true.
Proof. vm_compute. reflexivity. Qed.

Lemma civil_from_days_inverse days y m d :
  civil_from_days days = (y, m, d) ->
  days_from_civil y m d = days
  /\ 1 <= m <= 12 /\ 1 <= d <= 31
  /\ (days + 719468) / 146097 * 400 <= y <= (days + 719468) / 146097 * 400 + 400.
Proof.
  unfold civil_from_days.
  set (z := days + 719468).
  pose proof (Z.mod_pos_bound z 146097 ltac:(lia)) as Hdoe.
  pose proof (all_from_spec _ _ _ era_days_ok (z mod 146097) ltac:(lia)) as Hok.
  unfold era_day_ok in Hok.
  destruct (civil_of_era_day (z mod 146097)) as [[yoe m'] d'].
  intros [= <- <- <-].
  repeat (apply andb_true_iff in Hok as [Hok ?]).
  assert (Hy : (if m' <=? 2 then yoe + z / 146097 * 400 + (if m' <=? 2 then 1 else 0) - 1
                else yoe + z / 146097 * 400 + (if m' <=? 2 then 1 else 0))
               = yoe + z / 146097 * 400)
    by (destruct (m' <=? 2); lia).
  split; [|destruct (m' <=? 2); lia].
  unfold days_from_civil. rewrite Hy.
  rewrite Z.div_add, Z.mod_add by lia.
  rewrite Z.div_small, Z.mod_small by lia.
  pose proof (Z.div_mod z 146097 ltac:(lia)) as Hz.
  assert (era_day_of_civil yoe m' d' = z mod 146097) by lia.
  lia.
Qed.

Lemma digit_val_char d : 0 <= d <= 9 -> JSON.digit_val (digit_char d) = Some d.
Proof.
  intros Hd.
  assert (d = 0 \/ d = 1 \/ d = 2 \/ d = 3 \/ d = 4 \/ d = 5 \/ d = 6 \/ d = 7 \/ d = 8 \/ d = 9)
    as Hcases by lia.
  repeat (destruct Hcases as [-> | Hcases]; [reflexivity|]). subst. reflexivity.
Qed.

Lemma parse_year_digit d r :
  0 <= d <= 9 -> parse_year (digit_char d :: r) = digits 4 (digit_char d :: r) 0.
Proof.
  intros Hd.
  assert (d = 0 \/ d = 1 \/ d = 2 \/ d = 3 \/ d = 4 \/ d = 5 \/ d = 6 \/ d = 7 \/ d = 8 \/ d = 9)
    as Hcases by lia.
  repeat (destruct Hcases as [-> | Hcases]; [reflexivity|]). subst. reflexivity.
Qed.

Lemma chars_app a b :
  String.list_ascii_of_string (a +:+ b)
  = String.list_ascii_of_string a ++ String.list_ascii_of_string b.
Proof. induction a as [|c a IH]; [reflexivity|]. simpl. f_equal. exact IH. Qed.

(** Reading back the digits [pad] wrote. *)
Lemma digits_pad w n rest acc :
  0 <= n ->
  digits w (String.list_ascii_of_string (pad w n) ++ rest) acc
  = Some (acc * 10 ^ Z.of_nat w + n mod 10 ^ Z.of_nat w, rest).
Proof.
  intros Hn. revert acc. induction w as [|w IH]; intros acc.
  - cbn. rewrite Z.mod_1_r. do 2 f_equal. lia.
  - cbn [pad String.list_ascii_of_string app digits].
    pose proof (Z.mod_pos_bound (n / 10 ^ Z.of_nat w) 10 ltac:(lia)) as Hd.
    rewrite digit_val_char by lia. cbn [mbind option_bind].
    rewrite IH. do 2 f_equal.
    rewrite Nat2Z.inj_succ, Z.pow_succ_r by lia.
    assert (0 < 10 ^ Z.of_nat w) as Hp by (apply Z.pow_pos_nonneg; lia).
    rewrite (Z.mul_comm 10 (10 ^ Z.of_nat w)), Z.rem_mul_r by lia.
    lia.
Qed.

Lemma digits_pad_small w n rest :
  0 <= n < 10 ^ Z.of_nat w ->
  digits w (String.list_ascii_of_string (pad w n) ++ rest) 0 = Some (n, rest).
Proof.
  intros Hn. rewrite digits_pad by lia. rewrite Z.mod_small by lia. reflexivity.
Qed.

Lemma parse_year_string y rest :
  -999999 <= y <= 999999 ->
  parse_year (String.list_ascii_of_string (year_string y) ++ rest) = Some (y, rest).
Proof.
  intros Hy. unfold year_string.
  destruct ((0 <=? y) && (y <=? 9999)) eqn:Hsmall.
  - apply andb_true_iff in Hsmall as [H0 H1].
    change (pad 4 y) with (String (digit_char (y / 10 ^ 3 mod 10)) (pad 3 y)).
    cbn [String.list_ascii_of_string app].
    pose proof (Z.mod_pos_bound (y / 10 ^ 3) 10 ltac:(lia)) as Hd.
    rewrite parse_year_digit by lia.
    apply (digits_pad_small 4 y rest). lia.
  - assert (y < 0 \/ 9999 < y) as Hc by lia.
    destruct (y <? 0) eqn:Hneg.
    + rewrite chars_app. cbn [String.list_ascii_of_string app parse_year].
      rewrite (digits_pad_small 6) by lia. cbn [mbind option_bind].
      destruct (Z.abs y =? 0) eqn:Hz; [lia|]. do 2 f_equal. lia.
    + rewrite chars_app. cbn [String.list_ascii_of_string app parse_year].
      rewrite (digits_pad_small 6) by lia. do 2 f_equal. lia.
Qed.

(** [parseISO] reads back what [toISOString] wrote, to the millisecond. *)
Lemma parseISO_toISOString ms : in_range ms -> parseISO (toISOString ms) = Some ms.
Proof.
  unfold in_range. intros Hms. unfold toISOString.
  pose proof (Z.div_mod ms 86400000 ltac:(lia)) as Hdm.
  pose proof (Z.mod_pos_bound ms 86400000 ltac:(lia)) as Hr.
  generalize dependent (ms mod 86400000). generalize dependent (ms / 86400000).
  intros days r Hdm Hr.
  destruct (civil_from_days days) as [[y m] d] eqn:Hc.
  destruct (civil_from_days_inverse _ _ _ _ Hc) as (Hback & Hm & Hd & Hy).
  assert (Hdays : -100000000 <= days <= 100000000) by lia.
  assert (Hera : -680 <= (days + 719468) / 146097 <= 690)
    by (split; [apply Z.div_le_lower_bound | apply Z.div_le_upper_bound]; lia).
  assert (Hyr : -999999 <= y <= 999999) by lia.
  assert (Hh : 0 <= r / 3600000 < 24)
    by (split; [apply Z.div_pos | apply Z.div_lt_upper_bound]; lia).
  assert (Hmi : 0 <= r / 60000 mod 60 < 60) by (apply Z.mod_pos_bound; lia).
  assert (Hs : 0 <= r / 1000 mod 60 < 60) by (apply Z.mod_pos_bound; lia).
  assert (Hl : 0 <= r mod 1000 < 1000) by (apply Z.mod_pos_bound; lia).
  unfold parseISO. rewrite !chars_app.
  rewrite parse_year_string by exact Hyr.
  cbn [mbind option_bind String.list_ascii_of_string app sep Ascii.eqb Bool.eqb].
  rewrite (digits_pad_small 2 m) by lia.
  cbn [mbind option_bind app sep Ascii.eqb Bool.eqb].
  rewrite (digits_pad_small 2 d) by lia.
  cbn [mbind option_bind app sep Ascii.eqb Bool.eqb].
  rewrite (digits_pad_small 2 (r / 3600000)) by lia.
  cbn [mbind option_bind app sep Ascii.eqb Bool.eqb].
  rewrite (digits_pad_small 2 (r / 60000 mod 60)) by lia.
  cbn [mbind option_bind app sep Ascii.eqb Bool.eqb].
  rewrite (digits_pad_small 2 (r / 1000 mod 60)) by lia.
  cbn [mbind option_bind app sep Ascii.eqb Bool.eqb].
  rewrite (digits_pad_small 3 (r mod 1000)) by lia.
  cbn [mbind option_bind app sep Ascii.eqb Bool.eqb].
  replace ((1 <=? m) && (m <=? 12) && (1 <=? d) && (d <=? 31) && (r / 3600000 <=? 23)
           && (r / 60000 mod 60 <=? 59) && (r / 1000 mod 60 <=? 59)) with true
    by (symmetry; repeat (apply andb_true_iff; split); lia).
  f_equal. rewrite Hback.
  pose proof (Z.div_mod r 1000 ltac:(lia)) as E1.
  pose proof (Z.div_mod (r / 1000) 60 ltac:(lia)) as E2.
  pose proof (Z.div_mod (r / 60000) 60 ltac:(lia)) as E3.
  rewrite (Z.div_div r 1000 60) in E2 by lia.
  rewrite (Z.div_div r 60000 60) in E3 by lia.
  change (1000 * 60) with 60000 in E2. change (60000 * 60) with 3600000 in E3.
  lia.
Qed.

(** A date comes back from the saved record as the same date, when it
    is revived. *)
Lemma date_survives v : valid_date v -> new_Date (through_json v) = v.
Proof.
  destruct v as [ms| | |]; try contradiction. intros H.
  unfold through_json, new_Date.
  rewrite parseISO_toISOString by exact H. reflexivity.
Qed.

End TimeFacts.

(** ** Provider adapters *)

Section ProviderFacts.
Import Providers.

Lemma probe_returns (p : Provider) (fetch : Fetch) :
  probe p fetch =
  Ret match fetch (probe_request p) with
      | Ret response => ok response
      | Throw _ => false
      end.
Proof. unfold probe. destruct (fetch (probe_request p)); reflexivity. Qed.

(** [isAvailable] is the conjunction of "a credential is there, if one
    is needed" and "the probe got a success response". *)
Lemma isAvailable_value (p : Provider) (fetch : Fetch) :
  isAvailable p fetch =
  Ret (match p with
       | LlamaProvider _ => true
       | _ => truthy_str (apiKey p)
       end
       && match fetch (probe_request p) with
          | Ret response => ok response
          | Throw _ => false
          end).
Proof.
  destruct p as [u|k|k|k]; cbn [isAvailable apiKey];
    rewrite ?probe_returns; try reflexivity;
    destruct (truthy_str k); reflexivity.
Qed.

(** C8. For each of the adapters and whatever the probe's request meets,
    [isAvailable] completes normally with a boolean; it is [false] when a
    hosted adapter has no key, when the request is rejected (a network
    error), and when the response is not a success. *)
Theorem isAvailable_never_throws (p : Provider) (fetch : Fetch) :
  (exists b, isAvailable p fetch = Ret b)
  /\ (type p = external -> truthy_str (apiKey p) = false ->
      isAvailable p fetch = Ret false)
  /\ (forall e, fetch (probe_request p) = Throw e -> isAvailable p fetch = Ret false)
  /\ (forall r, fetch (probe_request p) = Ret r -> ok r = false ->
      isAvailable p fetch = Ret false).
Proof.
  rewrite isAvailable_value. repeat split.
  - eauto.
  - intros Hext Hkey. destruct p; [discriminate Hext| | |];
      cbn [apiKey] in *; rewrite Hkey; reflexivity.
  - intros e ->. rewrite andb_false_r. reflexivity.
  - intros r -> ->. rewrite andb_false_r. reflexivity.
Qed.

(** A server that answers 401 to everything, and one that cannot be
    reached. *)
Lemma isAvailable_never_throws_witness :
  (exists b, isAvailable (OpenAIProvider (Some "sk-test"))
               (fun _ => Ret {| ok := false; status := 401 |}) = Ret b)
  /\ isAvailable (GeminiProvider None) (fun _ => Throw "unreachable") = Ret false
  /\ isAvailable (LlamaProvider "http://localhost:11434")
       (fun _ => Throw "TypeError: Failed to fetch") = Ret false
  /\ isAvailable (OpenAIProvider (Some "sk-test"))
       (fun _ => Ret {| ok := false; status := 401 |}) = Ret false.
Proof.
  split; [|split; [|split]].
  - apply (isAvailable_never_throws (OpenAIProvider (Some "sk-test"))
             (fun _ => Ret {| ok := false; status := 401 |})).
  - apply (isAvailable_never_throws (GeminiProvider None) (fun _ => Throw "unreachable"));
      reflexivity.
  - apply (isAvailable_never_throws (LlamaProvider "http://localhost:11434")
             (fun _ => Throw "TypeError: Failed to fetch")
           ) with (e := "TypeError: Failed to fetch"). reflexivity.
  - apply (isAvailable_never_throws (OpenAIProvider (Some "sk-test"))
             (fun _ => Ret {| ok := false; status := 401 |})
           ) with (r := {| ok := false; status := 401 |}); reflexivity.
Defined.

End ProviderFacts.

(** ** The provider registry *)

Section ManagerFacts.
Import Providers LLMProviderManager.

Variable env : Env.

Lemma has_spec name (ps : gmap string Provider) :
  has name ps = true <-> is_Some (ps !! name).
Proof. unfold has. apply bool_decide_eq_true. Qed.

Lemma dom_insert_registered name (x : Provider) (ps : gmap string Provider) :
  dom (if has name ps then <[name := x]> ps else ps) = dom ps.
Proof.
  destruct (has name ps) eqn:Hhas; [|reflexivity].
  apply has_spec, elem_of_dom in Hhas.
  rewrite dom_insert_L. apply subseteq_union_1_L, singleton_subseteq_l, Hhas.
Qed.

(** [updateConfig] registers nothing and unregisters nothing. *)
Lemma updateConfig_dom newConfig m :
  dom (providers (updateConfig env newConfig m)) = dom (providers m).
Proof.
  unfold updateConfig. cbn [providers].
  set (ps1 := if truthy_str (new_apiKey newConfig) then _ else providers m).
  assert (Hd : dom ps1 = dom (providers m)).
  { subst ps1. destruct (truthy_str (new_apiKey newConfig)); [|reflexivity].
    rewrite !dom_insert_registered. reflexivity. }
  destruct (truthy_str (new_url newConfig)); cbn [andb]; [|exact Hd].
  rewrite dom_insert_registered. exact Hd.
Qed.

Lemma updateConfig_current newConfig m :
  currentProvider (updateConfig env newConfig m) = currentProvider m.
Proof. reflexivity. Qed.

Lemma reachable_current_registered m : reachable env m -> current_registered m.
Proof.
  induction 1 as [cfg|name m Hm IH|newConfig m Hm IH]; unfold current_registered in *.
  - cbn [new providers currentProvider]. unfold initializeProviders.
    rewrite !dom_insert_L, !elem_of_union, !elem_of_singleton. auto.
  - unfold setProvider. destruct (has name (providers m)) eqn:Hhas; [|exact IH].
    cbn. apply elem_of_dom, has_spec, Hhas.
  - rewrite updateConfig_dom. exact IH.
Qed.

(** The Llama adapter of a reachable manager is the one built with no
    address. *)
Lemma reachable_llama m :
  reachable env m -> providers m !! "llama" = Some (new_LlamaProvider env None).
Proof.
  induction 1 as [cfg|name m Hm IH|newConfig m Hm IH].
  - reflexivity.
  - unfold setProvider. destruct (has name (providers m)); exact IH.
  - unfold updateConfig. cbn [providers].
    match goal with
    | |- (if ?c then _ else _) !! _ = _ => destruct c; [apply lookup_insert_eq|]
    end.
    destruct (truthy_str (new_apiKey newConfig)); [|exact IH].
    destruct (has "gemini" (providers m)), (has "openai" _);
      rewrite ?lookup_insert_ne by discriminate; exact IH.
Qed.

(** C9. In every reachable manager the current identifier names a
    registered adapter: it is ['llama'] after the constructor, which
    registers it; [setProvider] on an unregistered name returns [false]
    and leaves the manager as it was; so [getCurrentProvider] is never
    [null] and [generate] never takes its "not found" branch. *)
Theorem current_provider_always_registered (m : Manager) :
  reachable env m ->
  is_Some (providers m !! currentProvider m)
  /\ (exists p, getCurrentProvider m = Some p)
  /\ (forall request, exists p r, generate m request = Ret (p, r))
  /\ (forall cfg, currentProvider (new env cfg) = "llama"
                  /\ is_Some (providers (new env cfg) !! "llama"))
  /\ (forall name, providers m !! name = None -> setProvider name m = (false, m)).
Proof.
  intros Hm.
  pose proof (reachable_current_registered m Hm) as Hreg.
  apply elem_of_dom in Hreg. destruct Hreg as [p Hp].
  repeat split.
  - exists p. exact Hp.
  - exists p. exact Hp.
  - intros request. unfold generate, getCurrentProvider. rewrite Hp. eauto.
  - cbn. unfold initializeProviders.
    rewrite !lookup_insert_ne by discriminate. rewrite lookup_insert_eq. eauto.
  - intros name Hnone. unfold setProvider, has.
    rewrite bool_decide_eq_false_2; [reflexivity|].
    rewrite Hnone. intros [? ?]. discriminate.
Qed.

(** C10. [updateConfig] changes neither the set of registered
    identifiers nor the current identifier. In a reachable manager, a
    call that carries a url puts under ['llama'] an adapter built with no
    address: its [baseUrl] is the default one, and so is the address of
    the requests it sends, whatever the url was. *)
Theorem updateConfig_ignores_url (m : Manager) (newConfig : PartialConfig) :
  reachable env m ->
  dom (providers (updateConfig env newConfig m)) = dom (providers m)
  /\ currentProvider (updateConfig env newConfig m) = currentProvider m
  /\ (truthy_str (new_url newConfig) = true ->
      providers (updateConfig env newConfig m) !! "llama" = Some (new_LlamaProvider env None))
  /\ (exists p, providers (updateConfig env newConfig m) !! "llama" = Some p
                /\ baseUrl p = default_baseUrl env
                /\ (forall request,
                      Providers.url (llama_generate_request (baseUrl p) request)
                      = default_baseUrl env +:+ "/api/generate")
                /\ Providers.url (probe_request p) = default_baseUrl env +:+ "/api/tags").
Proof.
  intros Hm.
  pose proof (reachable_llama _ (reach_updateConfig env newConfig m Hm)) as Hl.
  split; [apply updateConfig_dom|].
  split; [reflexivity|].
  split; [intros _; exact Hl|].
  exists (new_LlamaProvider env None). split; [exact Hl|].
  repeat split.
Qed.

End ManagerFacts.

(** A page served from another host, with no address configured; the
    manager after a switch to OpenAI and a new key. *)
Lemma current_provider_always_registered_witness :
  let env := {| Providers.has_window := true; Providers.VITE_OLLAMA_URL := None;
                Providers.hostname := "brainstorm.example" |} in
  let cfg := {| LLMProviderManager.provider := "llama"; LLMProviderManager.model := "llama3.1";
                LLMProviderManager.temperature := (7, -1); LLMProviderManager.maxTokens := 2000;
                LLMProviderManager.apiKey := None; LLMProviderManager.url := None |} in
  let m := LLMProviderManager.updateConfig env
             {| LLMProviderManager.new_provider := None; LLMProviderManager.new_model := None;
                LLMProviderManager.new_temperature := None;
                LLMProviderManager.new_maxTokens := None;
                LLMProviderManager.new_apiKey := Some "sk-test";
                LLMProviderManager.new_url := None |}
             (LLMProviderManager.setProvider "openai" (LLMProviderManager.new env cfg)).2 in
  LLMProviderManager.getCurrentProvider m = Some (Providers.OpenAIProvider (Some "sk-test"))
  /\ LLMProviderManager.setProvider "mistral" m = (false, m).
Proof.
  intros env cfg m.
  assert (Hm : LLMProviderManager.reachable env m)
    by (apply LLMProviderManager.reach_updateConfig, LLMProviderManager.reach_setProvider,
          LLMProviderManager.reach_new).
  split.
  - destruct (current_provider_always_registered env m Hm) as (_ & [p Hp] & _).
    rewrite Hp. vm_compute in Hp. symmetry. exact Hp.
  - apply (current_provider_always_registered env m Hm). vm_compute. reflexivity.
Defined.

Lemma updateConfig_ignores_url_witness :
  let env := {| Providers.has_window := true; Providers.VITE_OLLAMA_URL := None;
                Providers.hostname := "brainstorm.example" |} in
  let cfg := {| LLMProviderManager.provider := "llama"; LLMProviderManager.model := "llama3.1";
                LLMProviderManager.temperature := (7, -1); LLMProviderManager.maxTokens := 2000;
                LLMProviderManager.apiKey := None; LLMProviderManager.url := None |} in
  let m' := LLMProviderManager.updateConfig env
              {| LLMProviderManager.new_provider := None; LLMProviderManager.new_model := None;
                 LLMProviderManager.new_temperature := None;
                 LLMProviderManager.new_maxTokens := None;
                 LLMProviderManager.new_apiKey := None;
                 LLMProviderManager.new_url := Some "http://10.0.0.5:11434" |}
              (LLMProviderManager.new env cfg) in
  LLMProviderManager.providers m' !! "llama" = Some (Providers.LlamaProvider "/api/llama")
  /\ LLMProviderManager.currentProvider m' = "llama".
Proof.
  intros env cfg m'.
  destruct (updateConfig_ignores_url env (LLMProviderManager.new env cfg)
              {| LLMProviderManager.new_provider := None; LLMProviderManager.new_model := None;
                 LLMProviderManager.new_temperature := None;
                 LLMProviderManager.new_maxTokens := None;
                 LLMProviderManager.new_apiKey := None;
                 LLMProviderManager.new_url := Some "http://10.0.0.5:11434" |}
              (LLMProviderManager.reach_new env cfg)) as (_ & Hc & Hl & _).
  split; [apply Hl; reflexivity | exact Hc].
Defined.



(** ** The message queue engine *)

Section EngineFacts.
Import Engine.

Lemma processQueue_blocked queue ctx t w :
  processingRef (hook w) = true \/ queue = [] -> processQueue queue ctx t w = w.
Proof.
  intros [Href | ->]; unfold processQueue.
  - rewrite Href. reflexivity.
  - rewrite orb_true_r. reflexivity.
Qed.

Lemma processQueue_starts queue ctx t w :
  processingRef (hook w) = false -> queue ≠ [] ->
  processingRef (hook (processQueue queue ctx t w)) = true
  /\ isProcessing (hook (processQueue queue ctx t w)) = true
  /\ Engine.queue (hook (processQueue queue ctx t w)) = []
  /\ inflight (processQueue queue ctx t w) = Some (QueueItem.message <$> queue)
  /\ messages (hook (processQueue queue ctx t w))
     = (fun msg => if in_batch (QueueItem.message <$> queue) msg
                   then Message.mark_processed msg else msg) <$> messages (hook w)
  /\ AgentContext.conversationHistory (agentContext (hook (processQueue queue ctx t w)))
     = AgentContext.conversationHistory ctx ++ (agent_message <$> (QueueItem.message <$> queue))
  /\ Stats.pendingMessages (stats (hook (processQueue queue ctx t w))) = 0
  /\ Stats.processedMessages (stats (hook (processQueue queue ctx t w)))
     = Stats.processedMessages (stats (hook w))
  /\ calls (processQueue queue ctx t w)
     = calls w ++ [generation_request
                     (AgentContext.conversationHistory ctx
                      ++ (agent_message <$> (QueueItem.message <$> queue)))
                     (agent_message <$> (QueueItem.message <$> queue))]
  /\ console (processQueue queue ctx t w) = console w
  /\ timers (processQueue queue ctx t w) = timers w.
Proof.
  intros Href Hq. unfold processQueue. rewrite Href.
  destruct queue as [|item queue]; [contradiction|].
  cbn [length Nat.eqb orb]. repeat split.
Qed.

(** C2. A call of [processQueue] made while a drain is in flight, or with
    an empty queue, returns at once: no request is handed to the provider
    and nothing changes. A call that does start a drain hands over exactly
    one request, and any further call made before that drain has settled
    does nothing: two calls in a row make one request. *)
Theorem processQueue_at_most_one_drain
    (queue : list QueueItem.t) (ctx : AgentContext.t) (t : Z) (w : World) :
  (processingRef (hook w) = true \/ queue = [] -> processQueue queue ctx t w = w)
  /\ (processingRef (hook w) = false -> queue ≠ [] ->
      (exists request, calls (processQueue queue ctx t w) = calls w ++ [request])
      /\ forall queue' ctx' t',
           processQueue queue' ctx' t' (processQueue queue ctx t w) = processQueue queue ctx t w
           /\ length (calls (processQueue queue' ctx' t' (processQueue queue ctx t w)))
              = S (length (calls w))).
Proof.
  split; [apply processQueue_blocked|].
  intros Href Hq.
  destruct (processQueue_starts queue ctx t w Href Hq)
    as (Hp & _ & _ & _ & _ & _ & _ & _ & Hc & _).
  split; [eauto|].
  intros queue' ctx' t'.
  rewrite (processQueue_blocked queue' ctx' t' _ (or_introl Hp)).
  split; [reflexivity|].
  rewrite Hc, length_app. cbn. lia.
Qed.

Lemma processQueue_at_most_one_drain_witness :
  let w := run (initial 0) [AddMessage "x" (Scenario.stamp 1 "a") (Scenario.stamp 1 "b")] in
  processQueue [] (agentContext (hook w)) 2 w = w
  /\ length (calls (processQueue (Engine.queue (hook w)) (agentContext (hook w)) 3
                      (processQueue (Engine.queue (hook w)) (agentContext (hook w)) 2 w)))
     = 1%nat.
Proof.
  intros w. split.
  - apply (proj1 (processQueue_at_most_one_drain [] (agentContext (hook w)) 2 w)).
    right. reflexivity.
  - apply (proj2 (processQueue_at_most_one_drain
                    (Engine.queue (hook w)) (agentContext (hook w)) 2 w));
      [reflexivity | discriminate].
Defined.


Lemma settle_success response s w batch :
  inflight w = Some batch ->
  messages (hook (settle (Ret response) s w))
  = messages (hook w)
    ++ [{| Message.id := message_id s; Message.content := content response;
           Message.timestamp := Time.Date (now s); Message.type := assistant;
           Message.processed := Some true |}]
  /\ Stats.processedMessages (stats (hook (settle (Ret response) s w)))
     = Stats.processedMessages (stats (hook w)) + Z.of_nat (length batch)
  /\ console (settle (Ret response) s w) = console w.
Proof. intros H. unfold settle. rewrite H. repeat split. Qed.

(** The entries the timer's callback adds are entries of unprocessed user
    messages of the history. *)
Lemma recheck_queue fresh w item :
  item ∈ queue (hook (recheck fresh w)) ->
  item ∈ queue (hook w)
  \/ (QueueItem.message item ∈ messages (hook w)
      /\ Message.unprocessed_user (QueueItem.message item) = true).
Proof.
  unfold recheck. destruct (timers w) as [|n]; [auto|]. cbn [hook].
  destruct (0 <? length _)%nat; [|auto].
  cbn [set_stats set_queue queue]. rewrite elem_of_app. intros [Hin|Hin]; [auto|right].
  apply elem_of_lookup_imap_1 in Hin as (i & msg & -> & Hmsg).
  apply list_elem_of_lookup_2, list_elem_of_filter in Hmsg as [Hu Hm].
  cbn. auto.
Qed.

Lemma recheck_frame fresh w :
  messages (hook (recheck fresh w)) = messages (hook w)
  /\ agentContext (hook (recheck fresh w)) = agentContext (hook w)
  /\ isProcessing (hook (recheck fresh w)) = isProcessing (hook w)
  /\ processingRef (hook (recheck fresh w)) = processingRef (hook w)
  /\ Stats.processedMessages (stats (hook (recheck fresh w)))
     = Stats.processedMessages (stats (hook w))
  /\ inflight (recheck fresh w) = inflight w
  /\ calls (recheck fresh w) = calls w
  /\ console (recheck fresh w) = console w.
Proof.
  unfold recheck. destruct (timers w) as [|n]; [repeat split|]. cbn [hook].
  destruct (0 <? length _)%nat; repeat split.
Qed.

Lemma unprocessed_user_marked msg :
  Message.unprocessed_user (Message.mark_processed msg) = false.
Proof. unfold Message.unprocessed_user. cbn. apply andb_false_r. Qed.





(** *** Reordering *)

Lemma swap_with_previous_lookup {A} (k : nat) (l : list A) a b :
  l !! k = Some a -> l !! S k = Some b ->
  swap_with_previous k l !! k = Some b
  /\ swap_with_previous k l !! S k = Some a
  /\ (forall j, j ≠ k -> j ≠ S k -> swap_with_previous k l !! j = l !! j)
  /\ length (swap_with_previous k l) = length l.
Proof.
  intros Ha Hb. unfold swap_with_previous. rewrite Ha, Hb.
  pose proof (lookup_lt_Some _ _ _ Ha) as Hk.
  pose proof (lookup_lt_Some _ _ _ Hb) as HSk.
  repeat split.
  - rewrite list_lookup_insert_ne by lia. apply list_lookup_insert_eq. exact Hk.
  - apply list_lookup_insert_eq. rewrite length_insert. exact HSk.
  - intros j Hj HSj. rewrite !list_lookup_insert_ne by auto. reflexivity.
  - rewrite !length_insert. reflexivity.
Qed.

Lemma swap_with_previous_elem {A} (k : nat) (l : list A) x :
  x ∈ swap_with_previous k l -> x ∈ l.
Proof.
  destruct (l !! k) as [a|] eqn:Ha, (l !! S k) as [b|] eqn:Hb;
    try (unfold swap_with_previous; rewrite ?Ha, ?Hb; auto; fail).
  destruct (swap_with_previous_lookup k l a b Ha Hb) as (Hk & HSk & Hother & _).
  intros Hx. apply list_elem_of_lookup in Hx as [j Hj].
  destruct (decide (j = k)) as [->|Hjk].
  - rewrite Hk in Hj. injection Hj as <-. eapply list_elem_of_lookup_2; eauto.
  - destruct (decide (j = S k)) as [->|HjSk].
    + rewrite HSk in Hj. injection Hj as <-. eapply list_elem_of_lookup_2; eauto.
    + rewrite Hother in Hj by assumption. eapply list_elem_of_lookup_2; eauto.
Qed.

Lemma findIndex_Some messageId q i :
  findIndex messageId q = Some i ->
  exists item, q !! i = Some item /\ Message.id (QueueItem.message item) = messageId.
Proof.
  unfold findIndex. destruct (list_find _ q) as [[i' item]|] eqn:Hf; [|discriminate].
  cbn. intros [= <-]. apply list_find_Some in Hf as (Hl & Hid & _). eauto.
Qed.

(** The entry found at a positive index has a predecessor. *)
Lemma findIndex_positive messageId q k :
  findIndex messageId q = Some (S k) ->
  exists a b, q !! k = Some a /\ q !! S k = Some b
              /\ Message.id (QueueItem.message b) = messageId.
Proof.
  intros Hf. apply findIndex_Some in Hf as (b & Hb & Hid).
  pose proof (lookup_lt_Some _ _ _ Hb) as Hlt.
  destruct (lookup_lt_is_Some_2 q k ltac:(lia)) as [a Ha]. eauto.
Qed.

Lemma moved_elem messageId q item : item ∈ moved messageId q -> item ∈ q.
Proof.
  unfold moved. destruct (findIndex messageId q) as [[|k]|]; auto.
  apply swap_with_previous_elem.
Qed.

Lemma find_message_elem id l :
  (exists msg, msg ∈ l /\ Message.id msg = id) ->
  exists msg, find_message id l = Some msg /\ msg ∈ l /\ Message.id msg = id.
Proof.
  intros (msg & Hin & Hid). unfold find_message.
  destruct (list_find_elem_of (fun m => Message.id m = id) l msg Hin Hid) as [[i m] Hf].
  rewrite Hf. apply list_find_Some in Hf as (Hl & Hm & _).
  exists m. cbn. repeat split; [eapply list_elem_of_lookup_2; eauto | exact Hm].
Qed.

Lemma filter_all {A} (P : A -> Prop) `{forall x, Decision (P x)} (l : list A) :
  (forall x, x ∈ l -> P x) -> filter P l = l.
Proof.
  induction l as [|x l IH]; intros Hall; [reflexivity|].
  rewrite filter_cons_True by (apply Hall; left).
  f_equal. apply IH. intros y Hy. apply Hall. right. exact Hy.
Qed.

Lemma filter_none {A} (P : A -> Prop) `{forall x, Decision (P x)} (l : list A) :
  (forall x, x ∈ l -> ~ P x) -> filter P l = [].
Proof.
  induction l as [|x l IH]; intros Hall; [reflexivity|].
  rewrite filter_cons_False by (apply Hall; left).
  apply IH. intros y Hy. apply Hall. right. exact Hy.
Qed.

(** The unprocessed messages picked in the order of a queue whose entries
    all have one: their identifiers are the queue's, in its order. *)
Lemma reordered_ids (q : list QueueItem.t) (unprocessed : list Message.t) :
  (forall item, item ∈ q ->
     exists msg, msg ∈ unprocessed /\ Message.id msg = Message.id (QueueItem.message item)) ->
  Message.id <$> omap (fun queueItem =>
                         find_message (Message.id (QueueItem.message queueItem)) unprocessed) q
  = (fun item => Message.id (QueueItem.message item)) <$> q.
Proof.
  induction q as [|item q IH]; intros Hall; [reflexivity|].
  destruct (find_message_elem (Message.id (QueueItem.message item)) unprocessed)
    as (msg & Hf & _ & Hid); [apply Hall; left|].
  cbn. rewrite Hf. cbn. rewrite Hid. f_equal.
  apply IH. intros item' Hin. apply Hall. right. exact Hin.
Qed.

Lemma reordered_elem (q : list QueueItem.t) (unprocessed : list Message.t) msg :
  msg ∈ omap (fun queueItem =>
                find_message (Message.id (QueueItem.message queueItem)) unprocessed) q ->
  msg ∈ unprocessed.
Proof.
  intros Hin. apply list_elem_of_omap in Hin as (item & _ & Hf).
  unfold find_message in Hf.
  destruct (list_find _ unprocessed) as [[i m]|] eqn:Hl; [|discriminate].
  cbn in Hf. injection Hf as <-.
  apply list_find_Some in Hl as (Hl & _). eapply list_elem_of_lookup_2; eauto.
Qed.

(** The history after a move, when the entry was found at a positive
    index. *)
Lemma moveMessageUp_messages messageId w k :
  findIndex messageId (queue (hook w)) = Some (S k) ->
  messages (hook (moveMessageUp (queue (hook w)) messageId w))
  = omap (fun queueItem =>
            find_message (Message.id (QueueItem.message queueItem))
              (filter (fun msg => Message.unprocessed_user msg = true) (messages (hook w))))
         (swap_with_previous k (queue (hook w)))
    ++ filter (fun msg => Message.unprocessed_user msg = false) (messages (hook w)).
Proof. intros Hf. unfold moveMessageUp. cbn. rewrite Hf. reflexivity. Qed.

Lemma moveMessageUp_queue messageId w :
  queue (hook (moveMessageUp (queue (hook w)) messageId w)) = moved messageId (queue (hook w)).
Proof. reflexivity. Qed.

Lemma moveMessageUp_noop messageId w :
  findIndex messageId (queue (hook w)) = Some 0%nat
  \/ findIndex messageId (queue (hook w)) = None ->
  moveMessageUp (queue (hook w)) messageId w = w.
Proof.
  intros Hf. destruct w as [h fl tm cl cs]. destruct h. cbn [hook queue] in Hf.
  unfold moveMessageUp, with_hook, moved, set_messages, set_queue. cbn -[findIndex].
  destruct Hf as [-> | ->]; reflexivity.
Qed.

(** *** Queue entries have their message in the history *)

Lemma queued_in_history_move messageId w :
  queued_in_history w -> queued_in_history (moveMessageUp (queue (hook w)) messageId w).
Proof.
  intros Hinv.
  destruct (findIndex messageId (queue (hook w))) as [[|k]|] eqn:Hf;
    try (rewrite moveMessageUp_noop by auto; exact Hinv).
  intros item Hin. rewrite moveMessageUp_queue in Hin.
  pose proof (moved_elem _ _ _ Hin) as Hin0.
  unfold moved in Hin. rewrite Hf in Hin.
  destruct (Hinv item Hin0) as (msg & Hm & Hid & Hu).
  destruct (find_message_elem (Message.id (QueueItem.message item))
              (filter (fun msg => Message.unprocessed_user msg = true) (messages (hook w))))
    as (msg' & Hfind & Hin' & Hid').
  { exists msg. split; [apply list_elem_of_filter; auto | exact Hid]. }
  apply list_elem_of_filter in Hin' as [Hu' Hm'].
  exists msg'. rewrite (moveMessageUp_messages _ _ _ Hf).
  split; [|auto].
  apply elem_of_app. left. apply list_elem_of_omap.
  exists item. split; [exact Hin | exact Hfind].
Qed.

(** *** Tasks of one call *)

Lemma step_alone w c : step w (Batch [c]) = step w (alone c).
Proof. destruct c; reflexivity. Qed.

Lemma alone_not_batch c calls : alone c ≠ Batch calls.
Proof. destruct c; discriminate. Qed.

(** What the tasks other than [Batch] keep is kept by every task of at
    most one call. *)
Lemma step_one_call (P : World -> Prop) w o :
  (forall o', (forall calls, o' ≠ Batch calls) -> P w -> P (step w o')) ->
  one_call o = true -> P w -> P (step w o).
Proof.
  intros Hs Hone Hw.
  destruct o as [c sm sq|t|result s|fresh|messageId|messageId|result t localeDate| |calls];
    try (apply Hs; [discriminate|exact Hw]).
  destruct calls as [|c [|c' calls]]; [exact Hw| |discriminate].
  rewrite step_alone. apply Hs; [intros calls; apply alone_not_batch|exact Hw].
Qed.

Lemma rendered_ind (P : World -> Prop) :
  (forall t0, P (initial t0)) ->
  (forall w o, (forall calls, o ≠ Batch calls) -> P w -> P (step w o)) ->
  forall w, rendered_between_calls w -> P w.
Proof.
  intros Hinit Hstep w (t0 & ops & Hone & ->). unfold run.
  generalize (Hinit t0). generalize (initial t0). revert Hone.
  induction ops as [|o ops IH]; intros Hone w0 Hw0; [exact Hw0|].
  cbn in Hone. apply andb_prop in Hone as [Ho Hops].
  cbn. apply IH; [exact Hops|].
  apply step_one_call; [intros o' Hnb; apply Hstep, Hnb|exact Ho|exact Hw0].
Qed.

Lemma rendered_reachable w : rendered_between_calls w -> reachable w.
Proof. intros (t0 & ops & _ & ->). exists t0, ops. reflexivity. Qed.

Lemma queued_in_history_step w o :
  (forall calls, o ≠ Batch calls) -> queued_in_history w -> queued_in_history (step w o).
Proof.
  intros Hnb Hinv.
  destruct o as [c sm sq|t|result s|fresh|messageId|messageId|result t localeDate| |calls];
    cbn [step]; [| | | | | | | |destruct (Hnb calls eq_refl)].
  - (* addMessage *)
    intros item Hin. cbn in Hin. apply elem_of_app in Hin as [Hin|Hin].
    + destruct (Hinv item Hin) as (msg & Hm & Hid & Hu).
      exists msg. cbn. rewrite elem_of_app. auto.
    + apply list_elem_of_singleton in Hin as ->.
      exists (new_user_message c sm). cbn. rewrite elem_of_app, list_elem_of_singleton. auto.
  - (* processQueue *)
    destruct (processingRef (hook w)) eqn:Href;
      [rewrite processQueue_blocked by auto; exact Hinv|].
    destruct (queue (hook w)) as [|i q] eqn:Hq;
      [rewrite processQueue_blocked by auto; exact Hinv|].
    destruct (processQueue_starts (i :: q) (agentContext (hook w)) t w Href ltac:(discriminate))
      as (_ & _ & Hqu & _).
    intros item Hin. rewrite Hqu in Hin. inversion Hin.
  - (* settle *)
    unfold settle. destruct (inflight w) as [batch|]; [|exact Hinv].
    destruct result as [response|error]; intros item Hin; cbn in Hin |- *;
      destruct (Hinv item Hin) as (msg & Hm & Hid & Hu); exists msg;
      rewrite ?elem_of_app; auto.
  - (* recheck *)
    intros item Hin. destruct (recheck_frame fresh w) as (Hm & _). rewrite Hm.
    apply recheck_queue in Hin as [Hin|[Hin Hu]]; [apply Hinv; exact Hin|eauto].
  - (* removeMessage *)
    intros item Hin. cbn in Hin. apply list_elem_of_filter in Hin as [Hne Hin].
    destruct (Hinv item Hin) as (msg & Hm & Hid & Hu).
    exists msg. cbn. rewrite list_elem_of_filter. rewrite Hid. auto.
  - apply queued_in_history_move. exact Hinv.
  - (* generateMarkdownSummary *)
    unfold summary_settled. destruct (length _ =? 0)%nat; [exact Hinv|].
    destruct (_ ≫= _); exact Hinv.
  - exact Hinv.
Qed.

Lemma rendered_queued_in_history w : rendered_between_calls w -> queued_in_history w.
Proof.
  revert w. apply rendered_ind; [intros t0 item Hin; inversion Hin|].
  intros w o Hnb. apply queued_in_history_step, Hnb.
Qed.

(** X29. What [moveMessageUp] does when its closure holds the current
    queue and every entry of the queue has its unprocessed message in the
    history. On an identifier whose first entry is the head (or that no
    entry has) it changes nothing; on one whose first entry is at a later
    position it exchanges that entry with the one before it and leaves
    every other position as it was, and the unprocessed user messages of
    the history are then the messages of the queue, in its order. *)
Theorem moveMessageUp_swaps_with_predecessor (messageId : string) (w : World) :
  queued_in_history w ->
  let w' := moveMessageUp (queue (hook w)) messageId w in
  (findIndex messageId (queue (hook w)) = Some 0%nat -> w' = w)
  /\ (findIndex messageId (queue (hook w)) = None -> w' = w)
  /\ (forall k, findIndex messageId (queue (hook w)) = Some (S k) ->
      (exists item, queue (hook w) !! S k = Some item
                    /\ Message.id (QueueItem.message item) = messageId)
      /\ queue (hook w') !! k = queue (hook w) !! S k
      /\ queue (hook w') !! S k = queue (hook w) !! k
      /\ (forall j, j ≠ k -> j ≠ S k -> queue (hook w') !! j = queue (hook w) !! j)
      /\ length (queue (hook w')) = length (queue (hook w))
      /\ displayed_ids w' = queued_ids w').
Proof.
  intros Hqh w'.
  split; [intros Hf; apply moveMessageUp_noop; auto|].
  split; [intros Hf; apply moveMessageUp_noop; auto|].
  intros k Hf.
  destruct (findIndex_positive _ _ _ Hf) as (a & b & Ha & Hb & Hid).
  destruct (swap_with_previous_lookup k _ a b Ha Hb) as (Hk & HSk & Hother & Hlen).
  assert (Hq : queue (hook w') = swap_with_previous k (queue (hook w))).
  { subst w'. rewrite moveMessageUp_queue. unfold moved. rewrite Hf. reflexivity. }
  split; [eauto|].
  rewrite Hq, Ha, Hb. repeat split; auto.
  unfold displayed_ids, queued_ids. rewrite Hq.
  subst w'. rewrite (moveMessageUp_messages _ _ _ Hf), filter_app.
  set (reordered := omap _ _).
  set (processed := filter (fun msg => Message.unprocessed_user msg = false) _).
  assert (Hr : filter (fun msg => Message.unprocessed_user msg = true) reordered = reordered).
  { apply filter_all. intros msg Hin.
    apply reordered_elem, list_elem_of_filter in Hin as [Hu _]. exact Hu. }
  assert (Hp : filter (fun msg => Message.unprocessed_user msg = true) processed = []).
  { apply filter_none. intros msg Hin.
    apply list_elem_of_filter in Hin as [Hu _]. congruence. }
  rewrite Hr, Hp, app_nil_r.
  apply reordered_ids. intros item Hin.
  apply swap_with_previous_elem in Hin.
  destruct (Hqh item Hin) as (msg & Hm & Hmid & Hu).
  exists msg. split; [apply list_elem_of_filter; auto | exact Hmid].
Qed.

(** Two messages are queued; the head is promoted, then the second. *)
Lemma moveMessageUp_swaps_with_predecessor_witness :
  let w := run (initial 0)
             [AddMessage "first" (Scenario.stamp 1 "a") (Scenario.stamp 1 "b");
              AddMessage "second" (Scenario.stamp 2 "c") (Scenario.stamp 2 "d")] in
  moveMessageUp (queue (hook w)) "msg_1_a" w = w
  /\ displayed_ids (moveMessageUp (queue (hook w)) "msg_2_c" w) = ["msg_2_c"; "msg_1_a"]
  /\ queued_ids (moveMessageUp (queue (hook w)) "msg_2_c" w) = ["msg_2_c"; "msg_1_a"].
Proof.
  intros w.
  assert (Hqh : queued_in_history w).
  { apply rendered_queued_in_history.
    exists 0; eexists; split; [|reflexivity]; reflexivity. }
  split; [|split].
  - apply (proj1 (moveMessageUp_swaps_with_predecessor "msg_1_a" w Hqh)).
    vm_compute. reflexivity.
  - destruct (moveMessageUp_swaps_with_predecessor "msg_2_c" w Hqh) as (_ & _ & H).
    destruct (H 0%nat) as (_ & _ & _ & _ & _ & Hd); [vm_compute; reflexivity|].
    rewrite Hd. vm_compute. reflexivity.
  - vm_compute. reflexivity.
Defined.

(** Whenever the timer's callback runs, it adds the number of
    unprocessed user messages to the pending counter and leaves that number
    as it is: a counter that was right and not zero is wrong afterwards. *)
Lemma recheck_adds_pending fresh w :
  (0 < timers w)%nat ->
  Stats.pendingMessages (stats (hook (recheck fresh w)))
  = Stats.pendingMessages (stats (hook w)) + unprocessed_count w
  /\ unprocessed_count (recheck fresh w) = unprocessed_count w.
Proof.
  intros Ht. unfold recheck, unprocessed_count.
  destruct (timers w) as [|n]; [lia|]. cbn [hook].
  destruct (0 <? length _)%nat eqn:Hlen; cbn; [split; reflexivity|].
  apply Nat.ltb_ge in Hlen. split; [lia|reflexivity].
Qed.

Lemma scenario_reachable : reachable Scenario.before_recheck /\ reachable Scenario.after_recheck.
Proof.
  split.
  - exists 1699999990000, Scenario.drain_with_submission. reflexivity.
  - exists 1699999990000, (Scenario.drain_with_submission ++ [Scenario.the_recheck]).
    unfold Scenario.after_recheck, Scenario.before_recheck, run.
    symmetry. apply foldl_snoc.
Qed.

(** C7 (what the code does). In the session of [Scenario], once the
    timer of the finished drain has fired, the queue holds two entries for
    the message 'idea 2': the one [addMessage] made and the one the
    timer's callback made. [moveMessageUp] finds the first entry with the
    identifier, the head, and changes nothing: the entry at index 1 is not
    exchanged with its predecessor. After two submissions during a drain
    the queue holds four entries; promoting the entry at index 3 leaves it
    where it is and exchanges the entries at indexes 0 and 1, and the
    history then shows four unprocessed messages for two. *)
Theorem moveMessageUp_misses_duplicate_entry :
  reachable Scenario.after_recheck
  /\ QueueItem.id <$> queue (hook Scenario.after_recheck)
     = ["queue_1700000001000_h1j2k3l4m"; "queue_1700000002100_u0"]
  /\ queued_ids Scenario.after_recheck
     = ["msg_1700000001000_b5n6v7c8x"; "msg_1700000001000_b5n6v7c8x"]
  /\ moveMessageUp (queue (hook Scenario.after_recheck)) "msg_1700000001000_b5n6v7c8x"
       Scenario.after_recheck
     = Scenario.after_recheck
  /\ reachable Scenario.two_late_submissions
  /\ QueueItem.id <$> queue (hook Scenario.two_late_submissions)
     = ["queue_3_d"; "queue_4_f"; "queue_6_h"; "queue_6_i"]
  /\ queued_ids Scenario.two_late_submissions = ["msg_3_c"; "msg_4_e"; "msg_3_c"; "msg_4_e"]
  /\ displayed_ids Scenario.two_late_submissions = ["msg_3_c"; "msg_4_e"]
  /\ QueueItem.id
       <$> queue (hook (moveMessageUp (queue (hook Scenario.two_late_submissions)) "msg_4_e"
                          Scenario.two_late_submissions))
     = ["queue_4_f"; "queue_3_d"; "queue_6_h"; "queue_6_i"]
  /\ displayed_ids (moveMessageUp (queue (hook Scenario.two_late_submissions)) "msg_4_e"
                      Scenario.two_late_submissions)
     = ["msg_4_e"; "msg_3_c"; "msg_3_c"; "msg_4_e"].
Proof.
  split; [apply scenario_reachable|].
  split; [vm_compute; reflexivity|].
  split; [vm_compute; reflexivity|].
  split; [vm_compute; reflexivity|].
  split; [eexists 0, _; reflexivity|].
  repeat split; vm_compute; reflexivity.
Qed.

(** C1 (what the code does). In the session of [Scenario], before the
    timer of the finished drain fires the pending counter is 1 and one user
    message is unprocessed; the timer's callback adds the number of
    unprocessed messages to the counter although that message is already
    counted and queued, and the counter is 2 for one unprocessed
    message. *)
Theorem recheck_counts_pending_twice :
  Stats.pendingMessages (stats (hook Scenario.before_recheck)) = 1
  /\ unprocessed_count Scenario.before_recheck = 1
  /\ Stats.pendingMessages (stats (hook Scenario.after_recheck)) = 2
  /\ unprocessed_count Scenario.after_recheck = 1.
Proof. vm_compute. repeat split. Qed.

(** C3 (what the code does). In the same session the message submitted
    during the drain was queued by [addMessage]; the timer's callback
    queues it again: two queue entries carry the one message identifier,
    for a single message of the history. *)
Theorem recheck_queues_message_twice :
  queued_ids Scenario.before_recheck = ["msg_1700000001000_b5n6v7c8x"]
  /\ queued_ids Scenario.after_recheck
     = ["msg_1700000001000_b5n6v7c8x"; "msg_1700000001000_b5n6v7c8x"]
  /\ displayed_ids Scenario.after_recheck = ["msg_1700000001000_b5n6v7c8x"]
  /\ (QueueItem.id <$> Engine.queue (hook Scenario.after_recheck))
     = ["queue_1700000001000_h1j2k3l4m"; "queue_1700000002100_u0"].
Proof. vm_compute. repeat split. Qed.

End EngineFacts.

(** ** The summary synthesizer *)

Section SummaryFacts.
Import JSON AgentProcessor.

(** A response that [JSON.parse] refuses and that is not empty gives the
    fallback document: the whole response as overview, empty lists. *)
Lemma unparseable_response_falls_back (content : string) (t : Z) (localeDate : string) :
  JSON.parse content = None -> content ≠ "" ->
  generateMarkdownSummary_resume content t localeDate = Ret (fallback_summary content t).
Proof.
  intros Hp Hne. unfold generateMarkdownSummary_resume, parseMarkdownSummary.
  rewrite Hp. cbn. unfold fallback_summary. do 2 f_equal.
  destruct (String.eqb content "") eqn:He; [|reflexivity].
  apply String.eqb_eq in He. contradiction.
Qed.

(** The empty response is refused by [JSON.parse] too, but its overview
    is the placeholder text; and the response [null] is accepted by
    [JSON.parse], after which reading its [title] throws. *)
Lemma degenerate_responses (t : Z) (localeDate : string) :
  overview <$> match generateMarkdownSummary_resume "" t localeDate with
               | Ret d => Some d
               | Throw _ => None
               end = Some (JStr "No overview available")
  /\ generateMarkdownSummary_resume "null" t localeDate
     = Throw "TypeError: Cannot read properties of null (reading 'title')".
Proof. split; reflexivity. Qed.

(** C5 (what the code does). The sample payload alone is parsed into a
    document with a key insight. Wrapped in a fenced block between two
    sentences it is refused by the one [JSON.parse] of
    [parseMarkdownSummary], and the document is the fallback: the whole
    response as overview and no key insight. [parseAgentResponse], which
    parses the other replies of the same class, does find the object in
    the fenced block. *)
Theorem fenced_summary_payload_is_lost (t : Z) (localeDate : string) :
  is_nonempty_array
    (match generateMarkdownSummary_resume sample_payload t localeDate with
     | Ret d => keyInsights d
     | Throw _ => JNull
     end) = true
  /\ generateMarkdownSummary_resume fenced_response t localeDate
     = Ret (fallback_summary fenced_response t)
  /\ keyInsights (fallback_summary fenced_response t) = JArr []
  /\ Some (parseAgentResponse fenced_response) = JSON.parse sample_payload.
Proof.
  split; [vm_compute; reflexivity|].
  split; [apply unparseable_response_falls_back; [vm_compute; reflexivity|discriminate]|].
  split; [reflexivity|].
  vm_compute. reflexivity.
Qed.

End SummaryFacts.

(** ** The persisted record *)

Section StorageFacts.
Import Engine.

(** No date of a saved record is a [Date] when read back. *)
Lemma through_json_not_date v : Time.is_date (Time.through_json v) = false.
Proof. destruct v; reflexivity. Qed.

(** The history and the queue come back as they were: content, order
    and dates. *)
Lemma revive_message_json (m : Message.t) :
  Time.valid_date (Message.timestamp m) -> Storage.revive_message (Storage.message_json m) = m.
Proof.
  intros H. destruct m. unfold Storage.revive_message, Storage.message_json. cbn in *.
  rewrite date_survives by exact H. reflexivity.
Qed.

Lemma reload_messages (h : Hook) (t t' : Z) :
  Forall (fun m => Time.valid_date (Message.timestamp m)) (messages h) ->
  messages (Storage.reload h t t') = messages h.
Proof.
  intros Hall. unfold Storage.reload, Storage.loadFromStorage, Storage.saveToStorage. cbn.
  induction Hall as [|m l Hm Hl IH]; [reflexivity|].
  cbn. rewrite revive_message_json by exact Hm. f_equal. exact IH.
Qed.

Lemma reload_queue (h : Hook) (t t' : Z) :
  Forall (fun i => Time.valid_date (QueueItem.addedAt i)
                   /\ Time.valid_date (Message.timestamp (QueueItem.message i))) (queue h) ->
  queue (Storage.reload h t t') = queue h.
Proof.
  intros Hall. unfold Storage.reload, Storage.loadFromStorage, Storage.saveToStorage. cbn.
  induction Hall as [|i l [Ha Hm] Hl IH]; [reflexivity|].
  cbn. f_equal; [|exact IH].
  destruct i. unfold Storage.revive_item, Storage.item_json. cbn in *.
  rewrite revive_message_json by exact Hm. rewrite date_survives by exact Ha. reflexivity.
Qed.

(** The turns of the context and the summary are not revived: whatever
    the state, none of their dates is a [Date] after a reload. *)
Lemma reload_nested_dates (h : Hook) (t t' : Z) :
  Forall (fun turn => Time.is_date (AgentMessage.timestamp turn) = false)
         (AgentContext.conversationHistory (agentContext (Storage.reload h t t')))
  /\ (forall d, markdownSummary (Storage.reload h t t') = Some d ->
                Time.is_date (AgentProcessor.createdAt d) = false).
Proof.
  split.
  - unfold Storage.reload, Storage.loadFromStorage, Storage.saveToStorage. cbn.
    apply Forall_fmap, Forall_forall. intros turn _. cbn. apply through_json_not_date.
  - unfold Storage.reload, Storage.loadFromStorage, Storage.saveToStorage. cbn.
    destruct (markdownSummary h) as [d0|]; cbn; [|discriminate].
    intros d [= <-]. cbn. apply through_json_not_date.
Qed.

(** C6 (what the code does). The session of [Scenario], with a summary,
    is saved and loaded into a new hook. The history and the queue come
    back with their dates. The turn of the context had a date and comes
    back with the string that date was written as; so does the creation
    date of the summary. *)
Theorem reload_leaves_nested_dates_as_strings :
  let h := hook Scenario.with_summary in
  let h' := Storage.reload h 1700000004000 1700000005000 in
  messages h' = messages h
  /\ queue h' = queue h
  /\ AgentMessage.timestamp <$> AgentContext.conversationHistory (agentContext h)
     = [Time.Date 1700000000000]
  /\ AgentMessage.timestamp <$> AgentContext.conversationHistory (agentContext h')
     = [Time.IsoString "2023-11-14T22:13:20.000Z"]
  /\ AgentProcessor.createdAt <$> markdownSummary h = Some (Time.Date 1700000003000)
  /\ AgentProcessor.createdAt <$> markdownSummary h'
     = Some (Time.IsoString "2023-11-14T22:13:23.000Z").
Proof. vm_compute. repeat split. Qed.

End StorageFacts.


(** ** Invariants of the message queue engine *)

Section InvariantFacts.
Import Engine Invariants.

(** What holds at the first render and is kept by every event holds in
    every reachable world. *)
Lemma reachable_ind (P : World -> Prop) :
  (forall t0, P (initial t0)) ->
  (forall w o, P w -> P (step w o)) ->
  forall w, reachable w -> P w.
Proof.
  intros Hinit Hstep w (t0 & ops & ->). unfold run.
  generalize (Hinit t0). generalize (initial t0).
  induction ops as [|o ops IH]; intros w0 Hw0; [exact Hw0|].
  cbn. apply IH, Hstep, Hw0.
Qed.

(** What every call keeps, whatever render its callback is from, a task
    of several calls keeps. *)
Lemma batch_ind (P : World -> Prop) (r : Hook) (calls : list Call) :
  (forall w c, P w -> P (call r c w)) ->
  forall w, P w -> P (foldl (fun w' c => call r c w') w calls).
Proof.
  intros Hcall. induction calls as [|c calls IH]; intros w Hw; [exact Hw|].
  cbn. apply IH, Hcall, Hw.
Qed.

(** With any queue in its closure [moveMessageUp] adds no message to the
    history, reorders the queue cell, and leaves the other cells. *)
Lemma moveMessageUp_any_closure q messageId w :
  (forall msg, msg ∈ messages (hook (moveMessageUp q messageId w)) -> msg ∈ messages (hook w))
  /\ queue (hook (moveMessageUp q messageId w)) = moved messageId (queue (hook w))
  /\ stats (hook (moveMessageUp q messageId w)) = stats (hook w)
  /\ agentContext (hook (moveMessageUp q messageId w)) = agentContext (hook w)
  /\ isProcessing (hook (moveMessageUp q messageId w)) = isProcessing (hook w)
  /\ processingRef (hook (moveMessageUp q messageId w)) = processingRef (hook w)
  /\ inflight (moveMessageUp q messageId w) = inflight w.
Proof.
  split; [|repeat split].
  intros msg. unfold moveMessageUp. cbn -[findIndex].
  destruct (findIndex messageId q) as [[|k]|]; auto.
  intros Hin. apply elem_of_app in Hin as [Hin|Hin].
  - apply reordered_elem, list_elem_of_filter in Hin as [_ Hin]. exact Hin.
  - apply list_elem_of_filter in Hin as [_ Hin]. exact Hin.
Qed.

Lemma in_batch_elem batch msg :
  Message.id msg ∈ Message.id <$> batch -> in_batch batch msg = true.
Proof.
  intros Hin. apply list_elem_of_fmap in Hin as (qm & Hid & Hqm).
  unfold in_batch. apply existsb_exists. exists qm.
  split; [apply list_elem_of_In; exact Hqm|].
  apply String.eqb_eq. congruence.
Qed.

Lemma in_batch_ids batch msg :
  in_batch batch msg = true -> Message.id msg ∈ Message.id <$> batch.
Proof.
  unfold in_batch. intros Hb. apply existsb_exists in Hb as (qm & Hqm & Heq).
  apply String.eqb_eq in Heq. apply list_elem_of_fmap. exists qm.
  split; [congruence|apply list_elem_of_In; exact Hqm].
Qed.

Lemma queued_ids_batch w :
  queued_ids w = Message.id <$> (QueueItem.message <$> queue (hook w)).
Proof. unfold queued_ids. rewrite <- list_fmap_compose. reflexivity. Qed.

Lemma recheck_queue_mono fresh w item :
  item ∈ queue (hook w) -> item ∈ queue (hook (recheck fresh w)).
Proof.
  unfold recheck. destruct (timers w) as [|n]; [auto|]. cbn [hook].
  destruct (0 <? length _)%nat; [|auto].
  cbn [set_stats set_queue queue]. rewrite elem_of_app. auto.
Qed.

Lemma none_stranded_step w o :
  (forall calls, o ≠ Batch calls) -> none_stranded w -> none_stranded (step w o).
Proof.
  intros Hnb Hinv.
  destruct o as [c sm sq|t|result s|fresh|messageId|messageId|result t localeDate| |calls];
    cbn [step]; [| | | | | | | |destruct (Hnb calls eq_refl)].
  - (* addMessage *)
    intros msg Hin Hu. unfold queued_ids. cbn in Hin |- *.
    rewrite fmap_app, elem_of_app. apply elem_of_app in Hin as [Hin|Hin].
    + left. apply (Hinv msg Hin Hu).
    + right. apply list_elem_of_singleton in Hin as ->. cbn. left.
  - (* processQueue *)
    destruct (processingRef (hook w)) eqn:Href;
      [rewrite processQueue_blocked by auto; exact Hinv|].
    destruct (queue (hook w)) as [|i q] eqn:Hq;
      [rewrite processQueue_blocked by auto; exact Hinv|].
    destruct (processQueue_starts (i :: q) (agentContext (hook w)) t w Href ltac:(discriminate))
      as (_ & _ & _ & _ & Hms & _).
    intros msg Hin Hu. exfalso. rewrite Hms in Hin.
    apply list_elem_of_fmap in Hin as (m0 & -> & Hm0).
    destruct (in_batch (QueueItem.message <$> i :: q) m0) eqn:Hb.
    + rewrite unprocessed_user_marked in Hu. discriminate.
    + pose proof (Hinv m0 Hm0 Hu) as Hid.
      rewrite queued_ids_batch, Hq in Hid.
      apply in_batch_elem in Hid. congruence.
  - (* settle *)
    unfold settle. destruct (inflight w) as [batch|]; [|exact Hinv].
    destruct result as [response|error]; intros msg Hin Hu; cbn in Hin;
      [apply elem_of_app in Hin as [Hin|Hin]|];
      try (apply (Hinv msg Hin Hu)).
    apply list_elem_of_singleton in Hin as ->. discriminate Hu.
  - (* recheck *)
    intros msg Hin Hu. destruct (recheck_frame fresh w) as (Hm & _). rewrite Hm in Hin.
    pose proof (Hinv msg Hin Hu) as Hid.
    apply list_elem_of_fmap in Hid as (item & -> & Hitem).
    apply list_elem_of_fmap. exists item. split; [reflexivity|].
    apply recheck_queue_mono, Hitem.
  - (* removeMessage *)
    intros msg Hin Hu. cbn in Hin. apply list_elem_of_filter in Hin as [Hne Hin].
    pose proof (Hinv msg Hin Hu) as Hid.
    apply list_elem_of_fmap in Hid as (item & Hid & Hitem).
    apply list_elem_of_fmap. exists item. split; [exact Hid|].
    cbn. apply list_elem_of_filter. split; [congruence|exact Hitem].
  - (* moveMessageUp *)
    destruct (findIndex messageId (queue (hook w))) as [[|k]|] eqn:Hf;
      try (rewrite moveMessageUp_noop by auto; exact Hinv).
    intros msg Hin Hu. rewrite (moveMessageUp_messages _ _ _ Hf) in Hin.
    apply elem_of_app in Hin as [Hin|Hin].
    + apply list_elem_of_omap in Hin as (item & Hitem & Hfind).
      unfold find_message in Hfind.
      destruct (list_find _ _) as [[j m]|] eqn:Hl; [|discriminate].
      cbn in Hfind. injection Hfind as <-.
      apply list_find_Some in Hl as (_ & Hid & _).
      apply list_elem_of_fmap. exists item. split; [auto|].
      rewrite moveMessageUp_queue. unfold moved. rewrite Hf. exact Hitem.
    + apply list_elem_of_filter in Hin as [Hp _]. congruence.
  - unfold summary_settled. destruct (length _ =? 0)%nat; [exact Hinv|].
    destruct (_ ≫= _); exact Hinv.
  - exact Hinv.
Qed.

Lemma rendered_none_stranded w : rendered_between_calls w -> none_stranded w.
Proof.
  revert w. apply rendered_ind; [intros t0 msg Hin; inversion Hin|].
  intros w o Hnb. apply none_stranded_step, Hnb.
Qed.

(** X1. As long as the hook is rendered between any two calls of its
    callbacks (no task makes two), the queue and the unprocessed user
    messages of the history name the same messages: an unprocessed user
    message always has a queue entry, and a queue entry always has its
    unprocessed user message. *)
Theorem queue_names_the_unprocessed (w : World) (id : string) :
  rendered_between_calls w -> (id ∈ queued_ids w <-> id ∈ displayed_ids w).
Proof.
  intros Hr. split.
  - intros Hin. apply list_elem_of_fmap in Hin as (item & -> & Hitem).
    destruct (rendered_queued_in_history w Hr item Hitem) as (msg & Hm & Hid & Hu).
    apply list_elem_of_fmap. exists msg. split; [auto|].
    apply list_elem_of_filter. auto.
  - intros Hin. apply list_elem_of_fmap in Hin as (msg & -> & Hmsg).
    apply list_elem_of_filter in Hmsg as [Hu Hm].
    apply (rendered_none_stranded w Hr msg Hm Hu).
Qed.

Lemma queue_names_the_unprocessed_witness :
  "msg_1700000001000_b5n6v7c8x" ∈ queued_ids Scenario.after_recheck
  <-> "msg_1700000001000_b5n6v7c8x" ∈ displayed_ids Scenario.after_recheck.
Proof.
  apply (queue_names_the_unprocessed Scenario.after_recheck "msg_1700000001000_b5n6v7c8x").
  exists 1699999990000, (Scenario.drain_with_submission ++ [Scenario.the_recheck]).
  split; [reflexivity|].
  unfold Scenario.after_recheck, Scenario.before_recheck, run.
  symmetry. apply foldl_snoc.
Defined.

(** X2. A drain takes everything: when the hook has been rendered
    between any two calls so far and [processQueue] is the first call of
    its task and starts a drain, the queue is emptied, the turns of all
    its entries are added to the context in queue order, no user message
    of the history is left unprocessed, and the pending counter is 0. *)
Theorem drain_takes_every_unprocessed_message (w : World) (t : Z) :
  rendered_between_calls w -> processingRef (hook w) = false -> queue (hook w) ≠ [] ->
  queue (hook (step w (ProcessQueue t))) = []
  /\ turns (step w (ProcessQueue t))
     = turns w ++ (agent_message <$> (QueueItem.message <$> queue (hook w)))
  /\ unprocessed_count (step w (ProcessQueue t)) = 0
  /\ Stats.pendingMessages (stats (hook (step w (ProcessQueue t)))) = 0.
Proof.
  intros Hr Href Hq. cbn [step].
  destruct (processQueue_starts _ (agentContext (hook w)) t w Href Hq)
    as (_ & _ & Hqu & _ & Hms & Hctx & Hpend & _).
  split; [exact Hqu|]. split; [exact Hctx|]. split; [|exact Hpend].
  unfold unprocessed_count. rewrite Hms, filter_none; [reflexivity|].
  intros msg Hin Hu. apply list_elem_of_fmap in Hin as (m0 & -> & Hm0).
  destruct (in_batch (QueueItem.message <$> queue (hook w)) m0) eqn:Hb.
  - rewrite unprocessed_user_marked in Hu. discriminate.
  - pose proof (rendered_none_stranded w Hr m0 Hm0 Hu) as Hid.
    rewrite queued_ids_batch in Hid. apply in_batch_elem in Hid. congruence.
Qed.

Lemma drain_takes_every_unprocessed_message_witness :
  let w := run (initial 0)
             [AddMessage "first" (Scenario.stamp 1 "a") (Scenario.stamp 1 "b");
              AddMessage "second" (Scenario.stamp 2 "c") (Scenario.stamp 2 "d")] in
  unprocessed_count (step w (ProcessQueue 3)) = 0
  /\ AgentMessage.content <$> turns (step w (ProcessQueue 3)) = ["first"; "second"].
Proof.
  intros w.
  assert (Hr : rendered_between_calls w) by (exists 0; eexists; split; [|reflexivity]; reflexivity).
  destruct (drain_takes_every_unprocessed_message w 3 Hr eq_refl ltac:(discriminate))
    as (_ & Ht & Hc & _).
  split; [exact Hc|]. rewrite Ht. reflexivity.
Defined.

Lemma flags_agree_call r c w : flags_agree w -> flags_agree (call r c w).
Proof.
  intros Hinv. destruct c as [content sm sq|t|messageId|messageId|]; cbn [call];
    try exact Hinv.
  destruct (processingRef (hook w)) eqn:Href;
    [rewrite processQueue_blocked by auto; exact Hinv|].
  destruct (queue r) as [|i q] eqn:Hq;
    [rewrite processQueue_blocked by auto; exact Hinv|].
  destruct (processQueue_starts (i :: q) (agentContext r) t w Href ltac:(discriminate))
    as (Hp & Hip & _ & Hfl & _).
  split; [congruence|]. rewrite Hfl, Hp. split; discriminate.
Qed.

Lemma flags_agree_step w o : flags_agree w -> flags_agree (step w o).
Proof.
  intros Hinv.
  destruct o as [c sm sq|t|result s|fresh|messageId|messageId|result t localeDate| |calls];
    cbn [step]; try exact Hinv.
  - apply (flags_agree_call (hook w) (CallProcessQueue t) w Hinv).
  - unfold settle. destruct (inflight w) as [batch|]; [|exact Hinv].
    destruct result; cbn; split; try reflexivity; split; reflexivity.
  - destruct (recheck_frame fresh w) as (_ & _ & Ri & Rp & _ & Rf & _).
    unfold flags_agree. rewrite Ri, Rp, Rf. exact Hinv.
  - unfold summary_settled. destruct (length _ =? 0)%nat; [exact Hinv|].
    destruct (_ ≫= _); exact Hinv.
  - apply batch_ind; [intros w' c; apply flags_agree_call|exact Hinv].
Qed.

(** X3. In every reachable world the [isProcessing] cell equals
    [processingRef.current], and a [processQueue] call is suspended at its
    [await] exactly when they are up: the guard never stays up after the
    call has settled, and is never down while the drain's request is
    pending. A summary request is not a drain: [generateMarkdownSummary]
    leaves both flags and the suspended call as they are. *)
Theorem processing_flag_tracks_the_drain (w : World) :
  reachable w ->
  isProcessing (hook w) = processingRef (hook w)
  /\ (inflight w = None <-> processingRef (hook w) = false)
  /\ (forall result t localeDate,
        isProcessing (hook (summary_settled result t localeDate w)) = isProcessing (hook w)
        /\ processingRef (hook (summary_settled result t localeDate w))
           = processingRef (hook w)
        /\ inflight (summary_settled result t localeDate w) = inflight w).
Proof.
  intros Hreach.
  assert (Hf : flags_agree w).
  { revert w Hreach. apply (reachable_ind flags_agree).
    - intros t0. split; [reflexivity|]. split; reflexivity.
    - apply flags_agree_step. }
  destruct Hf as [H1 H2]. split; [exact H1|]. split; [exact H2|].
  intros result t localeDate. unfold summary_settled.
  destruct (length _ =? 0)%nat; [repeat split|].
  destruct (_ ≫= _); repeat split.
Qed.

Lemma processing_flag_tracks_the_drain_witness :
  isProcessing (hook Scenario.after_recheck) = processingRef (hook Scenario.after_recheck)
  /\ (inflight Scenario.after_recheck = None
      <-> processingRef (hook Scenario.after_recheck) = false).
Proof.
  destruct (processing_flag_tracks_the_drain Scenario.after_recheck) as (H1 & H2 & _);
    [apply scenario_reachable|].
  split; [exact H1|exact H2].
Defined.

Lemma counters_nonnegative_call r c w :
  counters_nonnegative w -> counters_nonnegative (call r c w).
Proof.
  intros (Ht & Hp & Hn).
  destruct c as [content sm sq|t|messageId|messageId|]; cbn [call];
    unfold counters_nonnegative.
  - cbn. lia.
  - unfold processQueue. destruct (_ || _); cbn; lia.
  - cbn. lia.
  - destruct (moveMessageUp_any_closure (queue r) messageId w) as (_ & _ & -> & _). auto.
  - cbn. auto.
Qed.

Lemma counters_nonnegative_step w o : counters_nonnegative w -> counters_nonnegative (step w o).
Proof.
  intros Hinv.
  destruct o as [c sm sq|t|result s|fresh|messageId|messageId|result t localeDate| |calls];
    cbn [step].
  - apply (counters_nonnegative_call (hook w) (CallAddMessage c sm sq) w Hinv).
  - apply (counters_nonnegative_call (hook w) (CallProcessQueue t) w Hinv).
  - destruct Hinv as (Ht & Hp & Hn). unfold counters_nonnegative, settle.
    destruct (inflight w) as [batch|]; [|auto].
    destruct result; cbn; lia.
  - destruct Hinv as (Ht & Hp & Hn). unfold counters_nonnegative, recheck.
    destruct (timers w); [auto|]. cbn [hook].
    destruct (0 <? _)%nat; cbn; lia.
  - apply (counters_nonnegative_call (hook w) (CallRemoveMessage messageId) w Hinv).
  - apply (counters_nonnegative_call (hook w) (CallMoveMessageUp messageId) w Hinv).
  - destruct Hinv as (Ht & Hp & Hn). unfold counters_nonnegative, summary_settled.
    destruct (length _ =? 0)%nat; [auto|].
    destruct (_ ≫= _); cbn; auto.
  - apply (counters_nonnegative_call (hook w) CallToggleAutoProcess w Hinv).
  - apply batch_ind; [intros w' c; apply counters_nonnegative_call|exact Hinv].
Qed.

(** X4. The three counters of the statistics are never negative, in any
    reachable world; removals below zero are cut off at zero. *)
Theorem counters_never_negative (w : World) :
  reachable w ->
  0 <= Stats.totalMessages (stats (hook w))
  /\ 0 <= Stats.processedMessages (stats (hook w))
  /\ 0 <= Stats.pendingMessages (stats (hook w)).
Proof.
  revert w. apply (reachable_ind counters_nonnegative).
  - intros t0. repeat split; apply Z.le_refl.
  - apply counters_nonnegative_step.
Qed.

Lemma counters_never_negative_witness :
  let w := run (initial 0) [RemoveMessage "nothing"; RemoveMessage "nothing"] in
  0 <= Stats.totalMessages (stats (hook w))
  /\ 0 <= Stats.processedMessages (stats (hook w))
  /\ 0 <= Stats.pendingMessages (stats (hook w)).
Proof.
  intros w. apply (counters_never_negative w). exists 0. eexists. reflexivity.
Defined.

Lemma history_well_formed_call r c w :
  history_well_formed w -> history_well_formed (call r c w).
Proof.
  intros Hinv. destruct c as [content sm sq|t|messageId|messageId|]; cbn [call].
  - intros msg Hin. cbn in Hin. apply elem_of_app in Hin as [Hin|Hin]; [auto|].
    apply list_elem_of_singleton in Hin as ->. left. cbn. eauto.
  - unfold processQueue. destruct (_ || _); [exact Hinv|].
    intros msg Hin. cbn in Hin. apply list_elem_of_fmap in Hin as (m0 & -> & Hm0).
    destruct (Hinv m0 Hm0) as [[Hty Hp]|[Hty Hp]];
      destruct (in_batch _ m0); cbn; eauto.
  - intros msg Hin. cbn in Hin. apply list_elem_of_filter in Hin as [_ Hin]. auto.
  - intros msg Hin.
    apply (proj1 (moveMessageUp_any_closure (queue r) messageId w)) in Hin. auto.
  - exact Hinv.
Qed.

Lemma history_well_formed_step w o : history_well_formed w -> history_well_formed (step w o).
Proof.
  intros Hinv.
  destruct o as [c sm sq|t|result s|fresh|messageId|messageId|result t localeDate| |calls];
    cbn [step].
  - apply (history_well_formed_call (hook w) (CallAddMessage c sm sq) w Hinv).
  - apply (history_well_formed_call (hook w) (CallProcessQueue t) w Hinv).
  - unfold settle. destruct (inflight w) as [batch|]; [|exact Hinv].
    destruct result; intros msg Hin; cbn in Hin; [|auto].
    apply elem_of_app in Hin as [Hin|Hin]; [auto|].
    apply list_elem_of_singleton in Hin as ->. right. cbn. auto.
  - intros msg Hin. destruct (recheck_frame fresh w) as (Hm & _). rewrite Hm in Hin. auto.
  - apply (history_well_formed_call (hook w) (CallRemoveMessage messageId) w Hinv).
  - apply (history_well_formed_call (hook w) (CallMoveMessageUp messageId) w Hinv).
  - unfold summary_settled. destruct (length _ =? 0)%nat; [exact Hinv|].
    destruct (_ ≫= _); exact Hinv.
  - exact Hinv.
  - apply batch_ind; [intros w' c; apply history_well_formed_call|exact Hinv].
Qed.

(** X5. In every reachable world each message of the history is a user
    message whose [processed] flag is set, or an assistant message marked
    processed: no system message enters the history, no flag is left
    undefined, and a reply is never counted as waiting. *)
Theorem history_holds_user_and_processed_replies (w : World) (msg : Message.t) :
  reachable w -> msg ∈ messages (hook w) ->
  (Message.type msg = user /\ is_Some (Message.processed msg))
  \/ (Message.type msg = assistant /\ Message.processed msg = Some true).
Proof.
  intros Hreach. revert msg. change (history_well_formed w). revert w Hreach.
  apply reachable_ind; [intros t0 msg Hin; inversion Hin|apply history_well_formed_step].
Qed.

Lemma history_holds_user_and_processed_replies_witness :
  Forall (fun msg => (Message.type msg = user /\ is_Some (Message.processed msg))
                     \/ (Message.type msg = assistant /\ Message.processed msg = Some true))
         (messages (hook Scenario.after_recheck)).
Proof.
  apply Forall_forall. intros msg Hin.
  apply (history_holds_user_and_processed_replies Scenario.after_recheck msg);
    [apply scenario_reachable|exact Hin].
Defined.

(** Inside a task: the context has only grown since the task began,
    and as long as no drain is running it is the context of the render
    the callbacks are from. *)
Lemma turns_call w0 c w :
  (turns w0 `prefix_of` turns w
   /\ (processingRef (hook w) = false -> agentContext (hook w) = agentContext (hook w0))) ->
  turns w0 `prefix_of` turns (call (hook w0) c w)
  /\ (processingRef (hook (call (hook w0) c w)) = false ->
      agentContext (hook (call (hook w0) c w)) = agentContext (hook w0)).
Proof.
  intros [Hpre Hctx]. destruct c as [content sm sq|t|messageId|messageId|]; cbn [call];
    try (split; [exact Hpre|exact Hctx]).
  destruct (processingRef (hook w)) eqn:Href;
    [rewrite processQueue_blocked by auto; rewrite Href; split; [exact Hpre|discriminate]|].
  destruct (queue (hook w0)) as [|i q] eqn:Hq;
    [rewrite processQueue_blocked by auto; rewrite Href; split; [exact Hpre|exact Hctx]|].
  destruct (processQueue_starts (i :: q) (agentContext (hook w0)) t w Href ltac:(discriminate))
    as (Hp & _ & _ & _ & _ & Hc & _).
  split; [|rewrite Hp; discriminate].
  unfold turns. rewrite Hc. apply prefix_app_r. reflexivity.
Qed.

Lemma turns_step w o : turns w `prefix_of` turns (step w o).
Proof.
  destruct o as [c sm sq|t|result s|fresh|messageId|messageId|result t localeDate| |calls];
    cbn [step]; unfold turns; try reflexivity.
  - unfold processQueue. destruct (_ || _); [reflexivity|]. cbn.
    apply prefix_app_r. reflexivity.
  - unfold settle. destruct (inflight w); [|reflexivity]. destruct result; reflexivity.
  - destruct (recheck_frame fresh w) as (_ & -> & _). reflexivity.
  - unfold summary_settled. destruct (length _ =? 0)%nat; [reflexivity|].
    destruct (_ ≫= _); reflexivity.
  - apply (batch_ind
             (fun w' => turns w `prefix_of` turns w'
                        /\ (processingRef (hook w') = false ->
                            agentContext (hook w') = agentContext (hook w)))
             (hook w) calls).
    + intros w' c. apply turns_call.
    + split; [reflexivity|reflexivity].
Qed.

(** X6. The conversation context only grows: whatever events follow, the
    turns recorded so far stay at the front of the context, unchanged and
    in their order; nothing reorders, edits or drops a turn. *)
Theorem context_is_append_only (w : World) (ops : list Op) :
  turns w `prefix_of` turns (run w ops).
Proof.
  revert w. induction ops as [|o ops IH]; intros w; [reflexivity|].
  cbn. etransitivity; [apply turns_step|apply IH].
Qed.

(** X7. A drain whose generation call resolves: the history is the
    history at the start with the batch marked processed, followed by one
    assistant message holding the reply, already processed; the processed
    counter grows by the size of the batch, whatever its size; the time of
    the reply is recorded; both flags are down again; exactly one request
    was made and nothing was written to the console. *)
Theorem resolved_generation_appends_one_reply
    (queue : list QueueItem.t) (ctx : AgentContext.t) (t : Z)
    (response : LLMResponse) (s : Stamp) (w : World) :
  processingRef (hook w) = false -> queue ≠ [] ->
  let batch := QueueItem.message <$> queue in
  let w2 := settle (Ret response) s (processQueue queue ctx t w) in
  messages (hook w2)
  = ((fun msg => if in_batch batch msg then Message.mark_processed msg else msg)
       <$> messages (hook w))
    ++ [{| Message.id := message_id s; Message.content := content response;
           Message.timestamp := Time.Date (now s); Message.type := assistant;
           Message.processed := Some true |}]
  /\ Stats.processedMessages (stats (hook w2))
     = Stats.processedMessages (stats (hook w)) + Z.of_nat (length queue)
  /\ Stats.totalMessages (stats (hook w2)) = Stats.totalMessages (stats (hook w))
  /\ Stats.lastProcessedAt (stats (hook w2)) = Some (Time.Date (now s))
  /\ isProcessing (hook w2) = false
  /\ processingRef (hook w2) = false
  /\ inflight w2 = None
  /\ length (calls w2) = S (length (calls w))
  /\ console w2 = console w.
Proof.
  intros Href Hq batch w2. subst w2 batch.
  unfold processQueue. rewrite Href.
  destruct queue as [|item queue]; [contradiction|].
  cbn [length Nat.eqb orb]. unfold settle. cbn [inflight].
  cbn -[in_batch Z.of_nat]. rewrite length_fmap, length_app. cbn [length].
  repeat split. lia.
Qed.

Lemma resolved_generation_appends_one_reply_witness :
  let w := run (initial 0)
             [AddMessage "idea 1" (Scenario.stamp 1 "a") (Scenario.stamp 1 "b");
              AddMessage "idea 2" (Scenario.stamp 2 "c") (Scenario.stamp 2 "d")] in
  let w2 := settle (Ret Scenario.reply) (Scenario.stamp 9 "r")
              (processQueue (Engine.queue (hook w)) (agentContext (hook w)) 3 w) in
  Stats.processedMessages (stats (hook w2)) = 2
  /\ length (calls w2) = 1%nat
  /\ length (messages (hook w2)) = 3%nat.
Proof.
  intros w w2.
  destruct (resolved_generation_appends_one_reply
              (Engine.queue (hook w)) (agentContext (hook w)) 3
              Scenario.reply (Scenario.stamp 9 "r") w eq_refl ltac:(discriminate))
    as (Hm & Hp & _ & _ & _ & _ & _ & Hc & _).
  split; [exact Hp|]. split; [exact Hc|].
  fold w2 in Hm. rewrite Hm. reflexivity.
Defined.



Lemma reachable_counters w : reachable w -> counters_nonnegative w.
Proof.
  revert w. apply reachable_ind; [|apply counters_nonnegative_step].
  intros t0. repeat split; apply Z.le_refl.
Qed.

(** Two hooks with the same ten cells are the same hook. *)
Lemma hook_ext (h h' : Hook) :
  queue h = queue h' -> messages h = messages h' -> stats h = stats h' ->
  context h = context h' -> agentContext h = agentContext h' ->
  isProcessing h = isProcessing h' -> currentProvider h = currentProvider h' ->
  markdownSummary h = markdownSummary h' -> autoProcess h = autoProcess h' ->
  processingRef h = processingRef h' -> h = h'.
Proof. destruct h, h'. cbn. intros. congruence. Qed.

(** X9. Submitting a message and deleting it again gives back the world
    there was: in a reachable world, for an identifier that no message of
    the history and no entry of the queue has yet, [removeMessage] undoes
    [addMessage], in history, queue and counters. When the hook has been
    rendered between any two calls, an identifier that is new to the
    history is new to the queue as well. *)
Theorem removeMessage_undoes_addMessage
    (content : string) (sm sq : Stamp) (w : World) :
  reachable w ->
  (message_id sm ∉ Message.id <$> messages (hook w)) ->
  (message_id sm ∉ queued_ids w) \/ rendered_between_calls w ->
  removeMessage (message_id sm) (addMessage content sm sq w) = w.
Proof.
  intros Hreach Hfresh Hqueue.
  pose proof (reachable_counters w Hreach) as (Ht & _ & Hp).
  assert (Hq : forall item, item ∈ queue (hook w) ->
                 Message.id (QueueItem.message item) ≠ message_id sm).
  { intros item Hin Heq. destruct Hqueue as [Hnq|Hr].
    - apply Hnq, list_elem_of_fmap. exists item. split; [congruence|exact Hin].
    - destruct (rendered_queued_in_history w Hr item Hin) as (msg & Hm & Hid & _).
      apply Hfresh, list_elem_of_fmap. exists msg. split; [congruence|exact Hm]. }
  assert (Hm : forall msg, msg ∈ messages (hook w) -> Message.id msg ≠ message_id sm).
  { intros msg Hin Heq. apply Hfresh, list_elem_of_fmap. eauto. }
  assert (Hmsg : filter (fun msg => Message.id msg ≠ message_id sm)
                   (messages (hook w) ++ [new_user_message content sm]) = messages (hook w)).
  { rewrite filter_app, (filter_all _ _ Hm), filter_none; [apply app_nil_r|].
    intros msg Hin Hne. apply list_elem_of_singleton in Hin as ->. apply Hne. reflexivity. }
  assert (Hque : filter (fun item => Message.id (QueueItem.message item) ≠ message_id sm)
                   (queue (hook w) ++ [new_queue_item (new_user_message content sm) sq])
                 = queue (hook w)).
  { rewrite filter_app, (filter_all _ _ Hq), filter_none; [apply app_nil_r|].
    intros item Hin Hne. apply list_elem_of_singleton in Hin as ->. apply Hne. reflexivity. }
  clear Hreach Hfresh Hqueue Hq Hm.
  destruct w as [h fl tm cl cs].
  unfold removeMessage, addMessage, with_hook.
  cbn [hook inflight timers calls console] in *. f_equal.
  apply hook_ext; try reflexivity.
  - exact Hque.
  - exact Hmsg.
  - cbn [stats set_stats set_queue set_messages Stats.totalMessages
         Stats.processedMessages Stats.pendingMessages Stats.ideasGenerated
         Stats.lastProcessedAt].
    destruct (stats h) as [tot prc pnd ide lst]. cbn in *. f_equal; lia.
Qed.

Lemma removeMessage_undoes_addMessage_witness :
  removeMessage "msg_1700000009000_q1w2e3r4t"
    (addMessage "idea 3" (Scenario.stamp 1700000009000 "q1w2e3r4t")
       (Scenario.stamp 1700000009000 "z9y8x7w6v") Scenario.after_recheck)
  = Scenario.after_recheck.
Proof.
  apply (removeMessage_undoes_addMessage "idea 3"
           (Scenario.stamp 1700000009000 "q1w2e3r4t")
           (Scenario.stamp 1700000009000 "z9y8x7w6v") Scenario.after_recheck).
  - apply scenario_reachable.
  - intros Hin. apply list_elem_of_In in Hin. vm_compute in Hin. intuition discriminate.
  - left. intros Hin. apply list_elem_of_In in Hin. vm_compute in Hin. intuition discriminate.
Defined.

(** *** Repeated promotion *)

Lemma swap_with_previous_cons {A} (x : A) (k : nat) (l : list A) :
  swap_with_previous (S k) (x :: l) = x :: swap_with_previous k l.
Proof.
  unfold swap_with_previous. cbn.
  destruct (l !! k); [|reflexivity]. destruct (l !! S k); reflexivity.
Qed.

Lemma swap_with_previous_app {A} (l1 l2 : list A) (a b : A) :
  swap_with_previous (length l1) (l1 ++ a :: b :: l2) = l1 ++ b :: a :: l2.
Proof.
  induction l1 as [|x l1 IH]; [reflexivity|].
  cbn [length app]. rewrite swap_with_previous_cons, IH. reflexivity.
Qed.

(** The entry found at a positive index splits the queue: the entries
    before its predecessor, none of which has the identifier, the
    predecessor, the entry, the rest. *)
Lemma findIndex_split messageId q k :
  findIndex messageId q = Some (S k) ->
  exists l1 a b l2,
    q = l1 ++ a :: b :: l2 /\ length l1 = k
    /\ Message.id (QueueItem.message b) = messageId
    /\ Message.id (QueueItem.message a) ≠ messageId
    /\ Forall (fun item => Message.id (QueueItem.message item) ≠ messageId) l1.
Proof.
  unfold findIndex. destruct (list_find _ q) as [[i b]|] eqn:Hf; [|discriminate].
  cbn. intros [= ->]. apply list_find_Some in Hf as (Hb & Hid & Hbefore).
  pose proof (lookup_lt_Some _ _ _ Hb) as Hlt.
  destruct (lookup_lt_is_Some_2 q k ltac:(lia)) as [a Ha].
  exists (take k q), a, b, (drop (S (S k)) q).
  assert (Hq : q = take k q ++ a :: b :: drop (S (S k)) q).
  { rewrite <- (drop_S q b (S k) Hb), <- (drop_S q a k Ha). symmetry. apply take_drop. }
  split; [exact Hq|]. split; [rewrite length_take; lia|]. split; [exact Hid|].
  split; [apply (Hbefore k a Ha); lia|].
  apply Forall_forall. intros item Hin.
  apply list_elem_of_lookup in Hin as [j Hj].
  pose proof (lookup_lt_Some _ _ _ Hj) as Hjl. rewrite length_take in Hjl.
  rewrite lookup_take_lt in Hj by lia. apply (Hbefore j item Hj). lia.
Qed.

Lemma findIndex_app_first messageId (l1 l2 : list QueueItem.t) b :
  Forall (fun item => Message.id (QueueItem.message item) ≠ messageId) l1 ->
  Message.id (QueueItem.message b) = messageId ->
  findIndex messageId (l1 ++ b :: l2) = Some (length l1).
Proof.
  intros Hall Hb. unfold findIndex.
  induction Hall as [|x l1 Hx Hall IH]; cbn.
  - destruct (decide _) as [|Hn]; [reflexivity|contradiction].
  - destruct (decide _) as [Hy|_]; [contradiction|].
    destruct (list_find _ (l1 ++ b :: l2)) as [[i y]|]; [|discriminate].
    cbn in *. injection IH as ->. reflexivity.
Qed.

(** One promotion brings the entry one position closer to the head and
    leaves the entries with other identifiers in their order. *)
Lemma moved_index messageId q k :
  findIndex messageId q = Some (S k) ->
  findIndex messageId (moved messageId q) = Some k
  /\ length (moved messageId q) = length q
  /\ filter (fun item => Message.id (QueueItem.message item) ≠ messageId) (moved messageId q)
     = filter (fun item => Message.id (QueueItem.message item) ≠ messageId) q.
Proof.
  intros Hf. unfold moved. rewrite Hf.
  destruct (findIndex_split _ _ _ Hf) as (l1 & a & b & l2 & -> & <- & Hb & Ha & Hl1).
  rewrite swap_with_previous_app.
  split; [apply findIndex_app_first; assumption|].
  split; [rewrite !length_app; reflexivity|].
  rewrite !filter_app. f_equal.
  rewrite (filter_cons_False _ b), (filter_cons_True _ a) by auto.
  rewrite (filter_cons_True _ a), (filter_cons_False _ b) by auto. reflexivity.
Qed.

Lemma moved_head messageId q :
  findIndex messageId q = Some 0%nat -> moved messageId q = q.
Proof. intros Hf. unfold moved. rewrite Hf. reflexivity. Qed.

Lemma iter_moved_index messageId k : forall q,
  findIndex messageId q = Some k ->
  findIndex messageId (Nat.iter k (moved messageId) q) = Some 0%nat
  /\ length (Nat.iter k (moved messageId) q) = length q
  /\ filter (fun item => Message.id (QueueItem.message item) ≠ messageId)
       (Nat.iter k (moved messageId) q)
     = filter (fun item => Message.id (QueueItem.message item) ≠ messageId) q.
Proof.
  induction k as [|k IH]; intros q Hf; [auto|].
  rewrite Nat.iter_succ_r.
  destruct (moved_index _ _ _ Hf) as (Hi & Hl & Hfl).
  destruct (IH _ Hi) as (Hi' & Hl' & Hfl').
  split; [exact Hi'|]. split; congruence.
Qed.

Lemma promote_queue n messageId w :
  queue (hook (promote n messageId w)) = Nat.iter n (moved messageId) (queue (hook w)).
Proof.
  unfold promote. induction n as [|n IH]; [reflexivity|].
  rewrite !Nat.iter_succ. rewrite moveMessageUp_queue. f_equal. exact IH.
Qed.

(** X10. An entry found at position [k] of the queue is at the head after
    [k] promotions; on the way the queue keeps its length and the entries
    with other identifiers keep their relative order; and any further
    promotion changes nothing. *)
Theorem promotions_bring_entry_to_head (messageId : string) (k : nat) (w : World) :
  findIndex messageId (queue (hook w)) = Some k ->
  findIndex messageId (queue (hook (promote k messageId w))) = Some 0%nat
  /\ length (queue (hook (promote k messageId w))) = length (queue (hook w))
  /\ filter (fun item => Message.id (QueueItem.message item) ≠ messageId)
       (queue (hook (promote k messageId w)))
     = filter (fun item => Message.id (QueueItem.message item) ≠ messageId) (queue (hook w))
  /\ promote (S k) messageId w = promote k messageId w.
Proof.
  intros Hf. rewrite promote_queue.
  destruct (iter_moved_index _ _ _ Hf) as (Hi & Hl & Hfl).
  repeat split; try assumption.
  change (promote (S k) messageId w)
    with (moveMessageUp (queue (hook (promote k messageId w))) messageId
            (promote k messageId w)).
  apply moveMessageUp_noop. left. rewrite promote_queue. exact Hi.
Qed.

Lemma promotions_bring_entry_to_head_witness :
  let w := run (initial 0)
             [AddMessage "first" (Scenario.stamp 1 "a") (Scenario.stamp 1 "b");
              AddMessage "second" (Scenario.stamp 2 "c") (Scenario.stamp 2 "d");
              AddMessage "third" (Scenario.stamp 3 "e") (Scenario.stamp 3 "f")] in
  findIndex "msg_3_e" (queue (hook (promote 2 "msg_3_e" w))) = Some 0%nat
  /\ queued_ids (promote 2 "msg_3_e" w) = ["msg_3_e"; "msg_1_a"; "msg_2_c"].
Proof.
  intros w. split; [|reflexivity].
  apply (promotions_bring_entry_to_head "msg_3_e" 2 w). reflexivity.
Defined.

(** *** Calls on callbacks of one render *)

Lemma moved_elem_back messageId q item : item ∈ q -> item ∈ moved messageId q.
Proof.
  unfold moved. destruct (findIndex messageId q) as [[|k]|] eqn:Hf; auto.
  destruct (findIndex_split _ _ _ Hf) as (l1 & a & b & l2 & -> & <- & _).
  rewrite swap_with_previous_app.
  rewrite !elem_of_app, !elem_of_cons. tauto.
Qed.

Lemma moveMessageUp_messages_closure q messageId w k :
  findIndex messageId q = Some (S k) ->
  messages (hook (moveMessageUp q messageId w))
  = omap (fun queueItem =>
            find_message (Message.id (QueueItem.message queueItem))
              (filter (fun msg => Message.unprocessed_user msg = true) (messages (hook w))))
         (swap_with_previous k q)
    ++ filter (fun msg => Message.unprocessed_user msg = false) (messages (hook w)).
Proof. intros Hf. unfold moveMessageUp. cbn. rewrite Hf. reflexivity. Qed.

Lemma findIndex_app messageId q item k :
  findIndex messageId q = Some k -> findIndex messageId (q ++ [item]) = Some k.
Proof.
  unfold findIndex. intros Hf.
  destruct (list_find _ q) as [[i x]|] eqn:Hl; [|discriminate].
  cbn in Hf. injection Hf as ->.
  rewrite (list_find_app_l _ _ _ _ _ Hl). reflexivity.
Qed.

(** X27. A message submitted and [processQueue] called in one task: the
    callback is the one of the render before the submission, so the drain
    takes the queue of that render without the new entry, and then empties
    the queue cell, new entry included. The new message stays unprocessed
    in the history with no entry in the queue and no place in the batch,
    and the pending counter is 0. Called in a task of its own after the
    submission, [processQueue] takes the new message with the others. *)
Theorem stale_drain_strands_submission
    (content : string) (sm sq : Stamp) (t : Z) (w : World) :
  processingRef (hook w) = false -> queue (hook w) ≠ [] ->
  (message_id sm ∉ queued_ids w) ->
  let w' := step w (Batch [CallAddMessage content sm sq; CallProcessQueue t]) in
  queue (hook w') = []
  /\ inflight w' = Some (QueueItem.message <$> queue (hook w))
  /\ new_user_message content sm ∈ messages (hook w')
  /\ message_id sm ∈ displayed_ids w'
  /\ (message_id sm ∉ queued_ids w')
  /\ Stats.pendingMessages (stats (hook w')) = 0
  /\ inflight (step (step w (AddMessage content sm sq)) (ProcessQueue t))
     = Some ((QueueItem.message <$> queue (hook w)) ++ [new_user_message content sm]).
Proof.
  intros Href Hq Hfresh w'. subst w'. cbn [step foldl call].
  set (w1 := addMessage content sm sq w).
  assert (Href1 : processingRef (hook w1) = false) by exact Href.
  destruct (processQueue_starts (queue (hook w)) (agentContext (hook w)) t w1 Href1 Hq)
    as (_ & _ & Hqu & Hfl & Hms & _ & Hpend & _).
  assert (Hnew : new_user_message content sm ∈ messages (hook (processQueue (queue (hook w))
                   (agentContext (hook w)) t w1))).
  { rewrite Hms. apply list_elem_of_fmap. exists (new_user_message content sm). split.
    - destruct (in_batch _ (new_user_message content sm)) eqn:Hb; [|reflexivity].
      exfalso. apply Hfresh. rewrite queued_ids_batch. apply (in_batch_ids _ _ Hb).
    - subst w1. cbn. apply elem_of_app. right. left. }
  split; [exact Hqu|]. split; [exact Hfl|]. split; [exact Hnew|].
  split.
  { unfold displayed_ids. apply list_elem_of_fmap. exists (new_user_message content sm).
    split; [reflexivity|]. apply list_elem_of_filter. split; [reflexivity|exact Hnew]. }
  split; [unfold queued_ids; rewrite Hqu; intros Hin; inversion Hin|].
  split; [exact Hpend|].
  assert (Hq1 : queue (hook w1) ≠ []).
  { subst w1. cbn. intros Hnil. apply app_eq_nil in Hnil as [_ Hnil]. discriminate. }
  destruct (processQueue_starts (queue (hook w1)) (agentContext (hook w1)) t w1 Href1 Hq1)
    as (_ & _ & _ & Hfl1 & _).
  rewrite Hfl1. subst w1. cbn. rewrite fmap_app. reflexivity.
Qed.

Lemma stale_drain_strands_submission_witness :
  let w := run (initial 0) [AddMessage "first" (Scenario.stamp 1 "a") (Scenario.stamp 1 "b")] in
  let w' := step w (Batch [CallAddMessage "second" (Scenario.stamp 2 "c") (Scenario.stamp 2 "d");
                           CallProcessQueue 3]) in
  queue (hook w') = []
  /\ displayed_ids w' = ["msg_2_c"]
  /\ Message.content <$> default [] (inflight w') = ["first"].
Proof.
  intros w w'.
  split; [|split; reflexivity].
  apply (stale_drain_strands_submission "second" (Scenario.stamp 2 "c") (Scenario.stamp 2 "d")
           3 w eq_refl); [discriminate|].
  intros Hin. apply list_elem_of_In in Hin. vm_compute in Hin. intuition discriminate.
Defined.

(** X28. A message submitted and [moveMessageUp] called in one task, on
    an entry that is not the head: the callback rebuilds the unprocessed
    part of the history from the queue of the render before the
    submission, which has no entry for the new message. The new message is
    dropped from the history, while its entry stays in the queue and the
    total counter counts it. Called in a task of its own after the
    submission, [moveMessageUp] keeps the new message in the history. *)
Theorem stale_reorder_loses_submission
    (content : string) (sm sq : Stamp) (messageId : string) (k : nat) (w : World) :
  findIndex messageId (queue (hook w)) = Some (S k) ->
  (message_id sm ∉ queued_ids w) ->
  (message_id sm ∉ Message.id <$> messages (hook w)) ->
  let w' := step w (Batch [CallAddMessage content sm sq; CallMoveMessageUp messageId]) in
  message_id sm ∈ queued_ids w'
  /\ (message_id sm ∉ Message.id <$> messages (hook w'))
  /\ Stats.totalMessages (stats (hook w')) = Stats.totalMessages (stats (hook w)) + 1
  /\ message_id sm
     ∈ Message.id <$> messages (hook (step (step w (AddMessage content sm sq))
                                        (MoveMessageUp messageId))).
Proof.
  intros Hf Hfq Hfm w'. subst w'. cbn [step foldl call].
  set (w1 := addMessage content sm sq w).
  assert (Hq1 : queue (hook w1)
                = queue (hook w) ++ [new_queue_item (new_user_message content sm) sq])
    by reflexivity.
  assert (Hm1 : messages (hook w1) = messages (hook w) ++ [new_user_message content sm])
    by reflexivity.
  split; [|split; [|split]].
  - unfold queued_ids. apply list_elem_of_fmap.
    exists (new_queue_item (new_user_message content sm) sq). split; [reflexivity|].
    destruct (moveMessageUp_any_closure (queue (hook w)) messageId w1) as (_ & -> & _).
    apply moved_elem_back. rewrite Hq1. apply elem_of_app. right. left.
  - rewrite (moveMessageUp_messages_closure _ _ w1 k Hf), Hm1.
    intros Hin. apply list_elem_of_fmap in Hin as (msg & Hid & Hin).
    apply elem_of_app in Hin as [Hin|Hin].
    + apply list_elem_of_omap in Hin as (item & Hitem & Hfind).
      apply swap_with_previous_elem in Hitem.
      unfold find_message in Hfind.
      destruct (list_find _ _) as [[j m]|] eqn:Hl; [|discriminate].
      cbn in Hfind. injection Hfind as <-.
      apply list_find_Some in Hl as (_ & Hmid & _).
      apply Hfq, list_elem_of_fmap. exists item. split; [congruence|exact Hitem].
    + apply list_elem_of_filter in Hin as [Hp Hin].
      apply elem_of_app in Hin as [Hin|Hin].
      * apply Hfm, list_elem_of_fmap. eauto.
      * apply list_elem_of_singleton in Hin as ->. discriminate Hp.
  - destruct (moveMessageUp_any_closure (queue (hook w)) messageId w1) as (_ & _ & -> & _).
    reflexivity.
  - assert (Hf1 : findIndex messageId (queue (hook w1)) = Some (S k))
      by (rewrite Hq1; apply findIndex_app, Hf).
    rewrite (moveMessageUp_messages _ _ _ Hf1), fmap_app. apply elem_of_app. left.
    destruct (find_message_elem (message_id sm)
                (filter (fun msg => Message.unprocessed_user msg = true) (messages (hook w1))))
      as (msg & Hfind & _ & Hid).
    { exists (new_user_message content sm). split; [|reflexivity].
      apply list_elem_of_filter. split; [reflexivity|].
      rewrite Hm1. apply elem_of_app. right. left. }
    apply list_elem_of_fmap. exists msg. split; [auto|].
    apply list_elem_of_omap. exists (new_queue_item (new_user_message content sm) sq).
    split; [|exact Hfind].
    assert (Hin : new_queue_item (new_user_message content sm) sq
                  ∈ moved messageId (queue (hook w1))).
    { apply moved_elem_back. rewrite Hq1. apply elem_of_app. right. left. }
    unfold moved in Hin. rewrite Hf1 in Hin. exact Hin.
Qed.

Lemma stale_reorder_loses_submission_witness :
  let w := run (initial 0)
             [AddMessage "first" (Scenario.stamp 1 "a") (Scenario.stamp 1 "b");
              AddMessage "second" (Scenario.stamp 2 "c") (Scenario.stamp 2 "d")] in
  let w' := step w (Batch [CallAddMessage "third" (Scenario.stamp 3 "e") (Scenario.stamp 3 "f");
                           CallMoveMessageUp "msg_2_c"]) in
  "msg_3_e" ∈ queued_ids w'
  /\ Message.id <$> messages (hook w') = ["msg_2_c"; "msg_1_a"].
Proof.
  intros w w'.
  split; [|reflexivity].
  apply (stale_reorder_loses_submission "third" (Scenario.stamp 3 "e") (Scenario.stamp 3 "f")
           "msg_2_c" 0 w eq_refl).
  - intros Hin. apply list_elem_of_In in Hin. vm_compute in Hin. intuition discriminate.
  - intros Hin. apply list_elem_of_In in Hin. vm_compute in Hin. intuition discriminate.
Defined.

End InvariantFacts.

(** ** The persisted record, as a whole *)

Section ReloadFacts.
Import Engine Saved.

Lemma through_json_plain v : Time.is_date v = false -> Time.through_json v = v.
Proof. destruct v; [discriminate|discriminate|reflexivity|reflexivity]. Qed.

Lemma append_nonempty a c r : a +:+ String c r ≠ "".
Proof. destruct a; discriminate. Qed.

Lemma toISOString_nonempty ms : Time.toISOString ms ≠ "".
Proof.
  unfold Time.toISOString. destruct (Time.civil_from_days _) as [[y m] d].
  apply append_nonempty.
Qed.

(** A valid date is written as a non-empty string, so the test before
    reviving [stats.lastProcessedAt] passes. *)
Lemma revive_optional_date v :
  Time.valid_date v ->
  (if Storage.truthy_time (Time.through_json v)
   then Some (Time.new_Date (Time.through_json v)) else None) = Some v.
Proof.
  intros Hv. rewrite date_survives by exact Hv.
  destruct v as [ms| | |]; try contradiction. cbn.
  destruct (String.eqb _ "") eqn:He; [|reflexivity].
  apply String.eqb_eq in He. destruct (toISOString_nonempty ms He).
Qed.

Lemma fmap_fixed {A} (f : A -> A) (l : list A) :
  Forall (fun x => f x = x) l -> f <$> l = l.
Proof. induction 1 as [|x l Hx Hl IH]; [reflexivity|]. cbn. congruence. Qed.

Lemma revive_item_json (i : QueueItem.t) :
  Time.valid_date (QueueItem.addedAt i) ->
  Time.valid_date (Message.timestamp (QueueItem.message i)) ->
  Storage.revive_item (Storage.item_json i) = i.
Proof.
  intros Ha Hm. destruct i. unfold Storage.revive_item, Storage.item_json. cbn in *.
  rewrite revive_message_json by exact Hm. rewrite date_survives by exact Ha. reflexivity.
Qed.

(** What a save followed by a load gives back unchanged. *)
Lemma reload_fixed (h : Hook) (t t' : Z) :
  dates_valid h -> nested_dates_plain h -> at_rest h -> Storage.reload h t t' = h.
Proof.
  intros (Hm & Hq & Hs & Hc & Ha) (Nt & Nc & Nd) (Hip & Hpr & Hcp).
  destruct h as [q ms st cx ac ip cp md ap pr].
  destruct st as [tot prc pnd ide lst], cx as [ch ct cg cu],
    ac as [sid turns topic ins ideas pts lp strat].
  cbn in *. subst ip pr.
  unfold Storage.reload, Storage.loadFromStorage, Storage.saveToStorage. cbn.
  f_equal.
  - rewrite <- list_fmap_compose. apply fmap_fixed.
    eapply Forall_impl; [exact Hq|]. intros i [Hi1 Hi2]. apply revive_item_json; assumption.
  - rewrite <- list_fmap_compose. apply fmap_fixed.
    eapply Forall_impl; [exact Hm|]. intros m Hv. apply revive_message_json, Hv.
  - f_equal. destruct lst as [v|]; [|reflexivity]. cbn.
    apply revive_optional_date, Hs. reflexivity.
  - f_equal; [|apply date_survives, Hc].
    apply fmap_fixed. eapply Forall_impl; [exact Nc|].
    intros m Hn. destruct m. unfold Storage.message_json. cbn in *.
    rewrite through_json_plain by exact Hn. reflexivity.
  - f_equal; [|apply date_survives, Ha].
    apply fmap_fixed. eapply Forall_impl; [exact Nt|].
    intros turn Hn. destruct turn. unfold Storage.turn_json. cbn in *.
    rewrite through_json_plain by exact Hn. reflexivity.
  - destruct (String.eqb cp "") eqn:He; [|reflexivity].
    apply String.eqb_eq in He. contradiction.
  - destruct md as [d|]; [|reflexivity]. cbn. f_equal.
    destruct d. unfold Storage.summary_json. cbn in *.
    rewrite through_json_plain; [reflexivity|]. apply (Nd _ eq_refl).
Qed.

(** X11. A hook at rest whose revived dates are valid and which holds no
    [Date] in its context turns or its summary (it has none yet, or was
    itself loaded) comes back from a save and a load exactly as it was:
    history, queue, counters, context, summary, provider and mode. *)
Theorem reload_restores_a_hook_at_rest (h : Hook) (t t' : Z) :
  dates_valid h -> nested_dates_plain h -> at_rest h -> Storage.reload h t t' = h.
Proof. apply reload_fixed. Qed.

(** Two messages submitted, nothing drained yet. *)
Lemma reload_restores_a_hook_at_rest_witness :
  let h := hook (run (initial 1700000000000)
                   [AddMessage "first" (Scenario.stamp 1700000001000 "a")
                      (Scenario.stamp 1700000001000 "b");
                    AddMessage "second" (Scenario.stamp 1700000002000 "c")
                      (Scenario.stamp 1700000002000 "d")]) in
  Storage.reload h 1700000003000 1700000004000 = h.
Proof.
  intros h. apply (reload_restores_a_hook_at_rest h).
  - unfold dates_valid. cbn.
    repeat split; repeat constructor; try discriminate; cbn; unfold Time.in_range; lia.
  - unfold nested_dates_plain. cbn. repeat split; try constructor. discriminate.
  - unfold at_rest. cbn. repeat split. discriminate.
Defined.

(** After a load the hook is at rest, its revived dates are valid and its
    other dates are plain. *)
Lemma reload_lands (h : Hook) (t t' : Z) :
  dates_valid h ->
  dates_valid (Storage.reload h t t')
  /\ nested_dates_plain (Storage.reload h t t')
  /\ at_rest (Storage.reload h t t').
Proof.
  intros (Hm & Hq & Hs & Hc & Ha).
  split; [|split].
  - unfold dates_valid.
    rewrite reload_messages by exact Hm. rewrite reload_queue by exact Hq.
    unfold Storage.reload, Storage.loadFromStorage, Storage.saveToStorage. cbn.
    rewrite !date_survives by assumption.
    repeat split; try assumption.
    intros v. destruct (Stats.lastProcessedAt (stats h)) as [v0|]; [|discriminate]. cbn.
    rewrite revive_optional_date by (apply Hs; reflexivity).
    intros [= <-]. apply Hs. reflexivity.
  - destruct (reload_nested_dates h t t') as [Ht Hd].
    split; [exact Ht|]. split; [|exact Hd].
    unfold Storage.reload, Storage.loadFromStorage, Storage.saveToStorage. cbn.
    apply Forall_fmap, Forall_forall. intros m _. cbn. apply through_json_not_date.
  - unfold at_rest, Storage.reload, Storage.loadFromStorage, Storage.saveToStorage. cbn.
    repeat split. destruct (String.eqb (currentProvider h) "") eqn:He; cbn; [discriminate|].
    intros Heq. rewrite Heq in He. discriminate.
Qed.

(** X12. Saving and loading is idempotent: for a hook whose revived dates
    are valid, a second save and load gives exactly what the first one
    gave, at whatever times they are made. What the first load changes
    (the dates it leaves as strings, the flags it resets) it changes once. *)
Theorem reload_is_idempotent (h : Hook) (t1 t1' t2 t2' : Z) :
  dates_valid h ->
  Storage.reload (Storage.reload h t1 t1') t2 t2' = Storage.reload h t1 t1'.
Proof.
  intros Hv. destruct (reload_lands h t1 t1' Hv) as (H1 & H2 & H3).
  apply reload_fixed; assumption.
Qed.

Lemma reload_is_idempotent_witness :
  let h := hook (run (initial 1699999990000) Scenario.drain_with_submission) in
  Storage.reload (Storage.reload h 1700000004000 1700000005000) 1700000006000 1700000007000
  = Storage.reload h 1700000004000 1700000005000.
Proof.
  intros h. apply (reload_is_idempotent h).
  unfold dates_valid. cbn.
  repeat split; repeat constructor; cbn; unfold Time.in_range; try lia.
  intros v [= <-]. cbn. unfold Time.in_range. lia.
Defined.

End ReloadFacts.

(** ** The provider manager, beyond the current adapter *)

Section ManagerQueries.
Import Providers LLMProviderManager.

Variable env : Env.

Ltac lookup_insert :=
  repeat first [rewrite lookup_insert_eq | rewrite lookup_insert_ne by (intros [=])];
  try reflexivity.

(** The identifiers registered in a reachable manager are the three the
    constructor registers. *)
Lemma reachable_dom m :
  reachable env m -> dom (providers m) = {["llama"; "gemini"; "openai"]}.
Proof.
  induction 1 as [cfg|name m Hm IH|newConfig m Hm IH].
  - cbn [new providers]. unfold initializeProviders.
    rewrite !dom_insert_L, dom_empty_L. set_solver.
  - unfold setProvider. destruct (has name (providers m)); exact IH.
  - rewrite updateConfig_dom. exact IH.
Qed.

Lemma reachable_registered m name :
  reachable env m ->
  is_Some (providers m !! name) <-> name = "llama" \/ name = "gemini" \/ name = "openai".
Proof.
  intros Hm. rewrite <- elem_of_dom, (reachable_dom m Hm).
  rewrite !elem_of_union, !elem_of_singleton. tauto.
Qed.

(** The two hosted adapters of a reachable manager hold one key. *)
Lemma reachable_hosted m :
  reachable env m ->
  exists k, providers m !! "gemini" = Some (GeminiProvider k)
            /\ providers m !! "openai" = Some (OpenAIProvider k).
Proof.
  induction 1 as [cfg|name m Hm IH|newConfig m Hm IH].
  - exists (apiKey cfg). split; reflexivity.
  - unfold setProvider. destruct (has name (providers m)); exact IH.
  - destruct IH as (k & Hg & Ho).
    assert (Hhg : has "gemini" (providers m) = true) by (apply has_spec; eauto).
    unfold updateConfig. cbn [providers]. rewrite Hhg.
    destruct (truthy_str (new_apiKey newConfig)).
    + assert (Hho : has "openai" (<["gemini" := GeminiProvider (new_apiKey newConfig)]>
                                     (providers m)) = true).
      { apply has_spec. rewrite lookup_insert_ne by discriminate. eauto. }
      rewrite Hho. exists (new_apiKey newConfig).
      destruct (truthy_str (new_url newConfig) && has "llama" _); split; lookup_insert.
    + exists k.
      destruct (truthy_str (new_url newConfig) && has "llama" _);
        rewrite ?lookup_insert_ne by discriminate; split; assumption.
Qed.

Lemma updateConfig_hosted m newConfig name :
  name <> "llama" ->
  truthy_str (new_apiKey newConfig) = false ->
  providers (updateConfig env newConfig m) !! name = providers m !! name.
Proof.
  intros Hn Hk. unfold updateConfig. cbn [providers]. rewrite Hk.
  destruct (truthy_str (new_url newConfig) && has "llama" _); [|reflexivity].
  apply lookup_insert_ne. congruence.
Qed.

Lemma mapM_returns {A B} (f : A -> outcome JsError B) (g : A -> B) (l : list A) :
  (forall x, f x = Ret (g x)) -> mapM f l = Ret (g <$> l).
Proof.
  intros Hf. induction l as [|x l IH]; [reflexivity|].
  cbn. rewrite Hf. cbn. unfold mbind, outcome_bind in *. cbn.
  rewrite IH. reflexivity.
Qed.

(** Whether the probe of an adapter succeeds. *)
Lemma isAvailable_true p fetch :
  isAvailable p fetch = Ret true <->
  (type p = local \/ truthy_str (Providers.apiKey p) = true)
  /\ exists r, fetch (probe_request p) = Ret r /\ ok r = true.
Proof.
  rewrite isAvailable_value. split.
  - intros [= H]. apply andb_prop in H. destruct H as [H1 H2]. split.
    + destruct p; cbn in *; auto.
    + destruct (fetch (probe_request p)) as [r|e]; [eauto|discriminate].
  - intros [H1 (r & Hr & Hok)]. rewrite Hr, Hok, andb_true_r. f_equal.
    destruct p; cbn in *; try reflexivity; destruct H1 as [H1|H1]; congruence.
Qed.

(** X13. In a manager built by the constructor and changed by
    [setProvider] and [updateConfig], [setProvider] returns [true] exactly
    for ['llama'], ['gemini'] and ['openai']. A refused call leaves the
    manager as it was; an accepted one changes the current identifier
    only (the adapters and the configuration, its [provider] field
    included, stay), and [generate] then calls the adapter registered
    under that name. *)
Theorem setProvider_selects_registered_adapter (m : Manager) (name : string) :
  reachable env m ->
  ((setProvider name m).1 = true <-> name = "llama" \/ name = "gemini" \/ name = "openai")
  /\ ((setProvider name m).1 = false -> (setProvider name m).2 = m)
  /\ ((setProvider name m).1 = true ->
      getCurrentProviderName (setProvider name m).2 = name
      /\ exists p, getProvider name m = Some p
                   /\ forall request, exists r,
                        generate (setProvider name m).2 request = Ret (p, r))
  /\ providers (setProvider name m).2 = providers m
  /\ config (setProvider name m).2 = config m.
Proof.
  intros Hm. pose proof (reachable_registered m name Hm) as Hreg.
  unfold setProvider. destruct (has name (providers m)) eqn:Hhas; cbn [fst snd].
  - pose proof (proj1 (has_spec name (providers m)) Hhas) as [p Hp].
    split; [split; [intros _; apply Hreg; eauto|reflexivity]|].
    split; [discriminate|].
    split; [|split; reflexivity].
    intros _. split; [reflexivity|]. exists p. split; [exact Hp|].
    intros request. unfold generate, getCurrentProvider. cbn. rewrite Hp. eauto.
  - split.
    + split; [discriminate|]. intros Hn. apply Hreg, has_spec in Hn. congruence.
    + split; [reflexivity|]. split; [discriminate|]. split; reflexivity.
Qed.

(** X14. The Gemini and the OpenAI adapter of a reachable manager always
    hold the same key. [updateConfig] with a non-empty [apiKey] replaces
    both by adapters holding the new key; with no [apiKey], or an empty
    one, it keeps both adapters as they are, although an empty key is
    stored in the configuration: an empty string does not clear the key
    the adapters send. *)
Theorem updateConfig_rekeys_hosted_adapters (m : Manager) (newConfig : PartialConfig) :
  reachable env m ->
  (exists k, getProvider "gemini" m = Some (GeminiProvider k)
             /\ getProvider "openai" m = Some (OpenAIProvider k))
  /\ (truthy_str (new_apiKey newConfig) = true ->
      getProvider "gemini" (updateConfig env newConfig m)
      = Some (GeminiProvider (new_apiKey newConfig))
      /\ getProvider "openai" (updateConfig env newConfig m)
         = Some (OpenAIProvider (new_apiKey newConfig)))
  /\ (truthy_str (new_apiKey newConfig) = false ->
      getProvider "gemini" (updateConfig env newConfig m) = getProvider "gemini" m
      /\ getProvider "openai" (updateConfig env newConfig m) = getProvider "openai" m)
  /\ (new_apiKey newConfig = Some "" ->
      apiKey (getConfig (updateConfig env newConfig m)) = Some ""
      /\ getProvider "openai" (updateConfig env newConfig m) = getProvider "openai" m).
Proof.
  intros Hm. unfold getProvider, getConfig.
  split; [apply reachable_hosted, Hm|].
  split.
  - intros Hk. destruct (reachable_hosted m Hm) as (k & Hg & Ho).
    assert (Hhg : has "gemini" (providers m) = true) by (apply has_spec; eauto).
    assert (Hho : has "openai" (<["gemini" := GeminiProvider (new_apiKey newConfig)]>
                                   (providers m)) = true).
    { apply has_spec. rewrite lookup_insert_ne by discriminate. eauto. }
    unfold updateConfig. cbn [providers]. rewrite Hk, Hhg, Hho.
    destruct (truthy_str (new_url newConfig) && has "llama" _); split; lookup_insert.
  - split.
    + intros Hk. split; apply updateConfig_hosted; [discriminate|exact Hk|discriminate|exact Hk].
    + intros Hk. split.
      * cbn. rewrite Hk. reflexivity.
      * apply updateConfig_hosted; [discriminate|]. rewrite Hk. reflexivity.
Qed.

(** X15. [testConnection] never throws. In a reachable manager it is the
    availability probe of the current adapter, and it answers [true]
    exactly when that adapter is the local one or holds a key, and its
    probe got a success response. *)
Theorem testConnection_probes_current_adapter (m : Manager) (fetch : Fetch) :
  reachable env m ->
  exists p b,
    getCurrentProvider m = Some p
    /\ testConnection m fetch = Ret b
    /\ testConnection m fetch = isAvailable p fetch
    /\ (b = true <->
        (Providers.type p = local \/ truthy_str (Providers.apiKey p) = true)
        /\ exists r, fetch (probe_request p) = Ret r /\ ok r = true).
Proof.
  intros Hm.
  pose proof (reachable_current_registered env m Hm) as Hreg.
  apply elem_of_dom in Hreg. destruct Hreg as [p Hp].
  exists p. unfold testConnection, getCurrentProvider. rewrite Hp.
  pose proof (isAvailable_value p fetch) as Hv.
  eexists. split; [reflexivity|]. split; [exact Hv|]. split; [reflexivity|].
  rewrite <- isAvailable_true, Hv. split; [intros ->; reflexivity|intros [= ->]; reflexivity].
Qed.

(** X16. [getAvailableProviders] never throws. In a reachable manager it
    returns three entries, one for each of ['llama'], ['gemini'] and
    ['openai'] and no name twice, each with the kind of the adapter
    registered under the name and the answer of its availability probe. *)
Theorem getAvailableProviders_lists_every_adapter (m : Manager) (fetch : Fetch) :
  reachable env m ->
  exists l,
    getAvailableProviders m fetch = Ret l
    /\ length l = 3%nat
    /\ NoDup (Availability.name <$> l)
    /\ (forall entry, entry ∈ l ->
          Availability.name entry = "llama" \/ Availability.name entry = "gemini"
          \/ Availability.name entry = "openai")
    /\ (forall name available type,
          {| Availability.name := name; Availability.available := available;
             Availability.type := type |} ∈ l
          <-> exists p, getProvider name m = Some p
                        /\ isAvailable p fetch = Ret available
                        /\ Providers.type p = type).
Proof.
  intros Hm.
  set (value := fun p : Provider =>
         match p with LlamaProvider _ => true | _ => truthy_str (Providers.apiKey p) end
         && match fetch (probe_request p) with Ret response => ok response | Throw _ => false end).
  set (g := fun entry : string * Provider =>
         {| Availability.name := entry.1; Availability.available := value entry.2;
            Availability.type := Providers.type entry.2 |}).
  exists (g <$> map_to_list (providers m)).
  assert (Hmem : forall name available type,
            {| Availability.name := name; Availability.available := available;
               Availability.type := type |} ∈ g <$> map_to_list (providers m)
            <-> exists p, getProvider name m = Some p
                          /\ isAvailable p fetch = Ret available
                          /\ Providers.type p = type).
  { intros name available type. rewrite list_elem_of_fmap. unfold getProvider. split.
    - intros ([n p] & Heq & Hin). apply elem_of_map_to_list in Hin.
      unfold g in Heq. cbn in Heq. injection Heq as -> -> ->.
      exists p. split; [exact Hin|]. split; [apply isAvailable_value|reflexivity].
    - intros (p & Hp & Hav & Hty). exists (name, p).
      split; [|apply elem_of_map_to_list, Hp].
      unfold g. cbn. rewrite isAvailable_value in Hav. injection Hav as <-.
      rewrite Hty. reflexivity. }
  split; [|split; [|split; [|split]]].
  - unfold getAvailableProviders. apply mapM_returns.
    intros [n p]. cbn. rewrite isAvailable_value. reflexivity.
  - rewrite length_fmap, length_map_to_list, <- size_dom, (reachable_dom m Hm).
    reflexivity.
  - rewrite <- list_fmap_compose.
    replace (Availability.name ∘ g) with (@fst string Provider) by reflexivity.
    apply NoDup_fst_map_to_list.
  - intros [n a t] Hin. cbn. apply Hmem in Hin. destruct Hin as (p & Hp & _).
    apply (reachable_registered m n Hm). unfold getProvider in Hp. eauto.
  - exact Hmem.
Qed.

End ManagerQueries.

(** A manager after a key was set and the provider switched. *)
Lemma setProvider_selects_registered_adapter_witness :
  let env := {| Providers.has_window := true; Providers.VITE_OLLAMA_URL := None;
                Providers.hostname := "localhost" |} in
  let cfg := {| LLMProviderManager.provider := "llama"; LLMProviderManager.model := "llama3.1";
                LLMProviderManager.temperature := (7, -1);
                LLMProviderManager.maxTokens := 2000;
                LLMProviderManager.apiKey := None; LLMProviderManager.url := None |} in
  let m := LLMProviderManager.new env cfg in
  (LLMProviderManager.setProvider "gemini" m).1 = true
  /\ (LLMProviderManager.setProvider "claude" m).1 = false
  /\ LLMProviderManager.provider
       (LLMProviderManager.config (LLMProviderManager.setProvider "gemini" m).2) = "llama".
Proof.
  intros env cfg m.
  pose proof (setProvider_selects_registered_adapter env m "gemini"
                (LLMProviderManager.reach_new env cfg)) as Hg.
  pose proof (setProvider_selects_registered_adapter env m "claude"
                (LLMProviderManager.reach_new env cfg)) as Hc.
  split; [apply (proj1 Hg); auto|].
  split.
  - destruct (LLMProviderManager.setProvider "claude" m).1 eqn:He; [|reflexivity].
    destruct (proj1 (proj1 Hc) eq_refl) as [Hn|[Hn|Hn]]; discriminate.
  - destruct Hg as (_ & _ & _ & _ & Hcfg). rewrite Hcfg. reflexivity.
Defined.

Lemma updateConfig_rekeys_hosted_adapters_witness :
  let env := {| Providers.has_window := true; Providers.VITE_OLLAMA_URL := None;
                Providers.hostname := "localhost" |} in
  let cfg := {| LLMProviderManager.provider := "llama"; LLMProviderManager.model := "llama3.1";
                LLMProviderManager.temperature := (7, -1);
                LLMProviderManager.maxTokens := 2000;
                LLMProviderManager.apiKey := None; LLMProviderManager.url := None |} in
  let key := {| LLMProviderManager.new_provider := None; LLMProviderManager.new_model := None;
                LLMProviderManager.new_temperature := None;
                LLMProviderManager.new_maxTokens := None;
                LLMProviderManager.new_apiKey := Some "sk-1";
                LLMProviderManager.new_url := None |} in
  LLMProviderManager.getProvider "openai"
    (LLMProviderManager.updateConfig env key (LLMProviderManager.new env cfg))
  = Some (Providers.OpenAIProvider (Some "sk-1")).
Proof.
  intros env cfg key.
  apply (updateConfig_rekeys_hosted_adapters env (LLMProviderManager.new env cfg) key
           (LLMProviderManager.reach_new env cfg)).
  reflexivity.
Defined.

Lemma testConnection_probes_current_adapter_witness :
  let env := {| Providers.has_window := true; Providers.VITE_OLLAMA_URL := None;
                Providers.hostname := "localhost" |} in
  let cfg := {| LLMProviderManager.provider := "llama"; LLMProviderManager.model := "llama3.1";
                LLMProviderManager.temperature := (7, -1);
                LLMProviderManager.maxTokens := 2000;
                LLMProviderManager.apiKey := None; LLMProviderManager.url := None |} in
  let fetch := fun _ : Providers.Request =>
                 Ret {| Providers.ok := true; Providers.status := 200 |} in
  exists p b,
    LLMProviderManager.getCurrentProvider (LLMProviderManager.new env cfg) = Some p
    /\ LLMProviderManager.testConnection (LLMProviderManager.new env cfg) fetch = Ret b.
Proof.
  intros env cfg fetch.
  destruct (testConnection_probes_current_adapter env (LLMProviderManager.new env cfg) fetch
              (LLMProviderManager.reach_new env cfg)) as (p & b & H1 & H2 & _).
  exists p, b. split; assumption.
Defined.

Lemma getAvailableProviders_lists_every_adapter_witness :
  let env := {| Providers.has_window := true; Providers.VITE_OLLAMA_URL := None;
                Providers.hostname := "localhost" |} in
  let cfg := {| LLMProviderManager.provider := "llama"; LLMProviderManager.model := "llama3.1";
                LLMProviderManager.temperature := (7, -1);
                LLMProviderManager.maxTokens := 2000;
                LLMProviderManager.apiKey := None; LLMProviderManager.url := None |} in
  let fetch := fun _ : Providers.Request =>
                 Ret {| Providers.ok := true; Providers.status := 200 |} in
  exists l,
    LLMProviderManager.getAvailableProviders (LLMProviderManager.new env cfg) fetch = Ret l
    /\ length l = 3%nat.
Proof.
  intros env cfg fetch.
  destruct (getAvailableProviders_lists_every_adapter env (LLMProviderManager.new env cfg) fetch
              (LLMProviderManager.reach_new env cfg)) as (l & H1 & H2 & _).
  exists l. split; assumption.
Defined.

(** ** Generation by the adapters *)

Section AdapterFacts.
Import Providers Adapters.

Lemma split_lines_nonempty s : split_lines s <> [].
Proof.
  destruct s as [|c r]; cbn; [discriminate|].
  destruct (Ascii.eqb c newline); [discriminate|].
  destruct (split_lines r); discriminate.
Qed.

(** The pieces of a split hold no line feed: splitting one gives it
    back. *)
Lemma split_lines_pieces s : Forall (fun piece => split_lines piece = [piece]) (split_lines s).
Proof.
  induction s as [|c r IH]; cbn.
  - constructor; [reflexivity|constructor].
  - destruct (Ascii.eqb c newline) eqn:Hc.
    + constructor; [reflexivity|exact IH].
    + destruct (split_lines r) as [|line lines]; cbn.
      * constructor; [|constructor]. cbn. rewrite Hc. reflexivity.
      * inversion IH as [|? ? Hline Hlines]; subst.
        constructor; [|exact Hlines]. cbn. rewrite Hc, Hline. reflexivity.
Qed.

Lemma removelast_cons {A} (x : A) (l : list A) :
  l <> [] -> removelast (x :: l) = x :: removelast l.
Proof. destruct l; [congruence|reflexivity]. Qed.

Lemma last_cons_nonempty {A} (x : A) (l : list A) : l <> [] -> last (x :: l) = last l.
Proof. destruct l; [congruence|reflexivity]. Qed.

(** Splitting a text cut in two: the last piece of the first part and
    the first piece of the second are one line. *)
Lemma split_lines_app a b :
  split_lines (a +:+ b) =
  removelast (split_lines a)
  ++ (default "" (last (split_lines a)) +:+ hd "" (split_lines b)) :: tl (split_lines b).
Proof.
  induction a as [|c r IH].
  - change ("" +:+ b) with b. cbn. pose proof (split_lines_nonempty b) as Hb.
    destruct (split_lines b); [congruence|reflexivity].
  - change (String c r +:+ b) with (String c (r +:+ b)).
    cbn [split_lines]. rewrite IH. clear IH.
    pose proof (split_lines_nonempty r) as Hr.
    destruct (Ascii.eqb c newline).
    + rewrite removelast_cons, last_cons_nonempty by exact Hr. reflexivity.
    + destruct (split_lines r) as [|line lines]; [congruence|].
      destruct lines as [|line' lines]; [reflexivity|].
      rewrite (removelast_cons line), (removelast_cons (String c line)) by discriminate.
      rewrite !last_cons_nonempty by discriminate. reflexivity.
Qed.

Lemma scan_app step l1 l2 :
  scan step (l1 ++ l2) =
  if (scan step l1).2 then scan step l1
  else ((scan step l1).1 ++ (scan step l2).1, (scan step l2).2).
Proof.
  induction l1 as [|line l1 IH]; cbn.
  - destruct (scan step l2); reflexivity.
  - destruct (step line).2; [reflexivity|].
    rewrite IH. destruct (scan step l1).2 eqn:Hs; cbn; [rewrite Hs; reflexivity|].
    rewrite app_assoc. reflexivity.
Qed.

Lemma append_assoc (a b c : string) : (a +:+ b) +:+ c = a +:+ (b +:+ c).
Proof.
  induction a as [|x a IH]; [reflexivity|].
  change (String x ((a +:+ b) +:+ c) = String x (a +:+ (b +:+ c))). f_equal. exact IH.
Qed.

Lemma append_empty_r (s : string) : s +:+ "" = s.
Proof.
  induction s as [|c s IH]; [reflexivity|].
  change (String c (s +:+ "") = String c s). f_equal. exact IH.
Qed.

(** The loop over the chunks processes the complete lines of the text
    read, the buffer first. *)
Lemma pump_scan step chunks : forall buffer,
  split_lines buffer = [buffer] ->
  pump step buffer chunks = scan step (complete_lines (buffer +:+ text_of chunks)).
Proof.
  unfold complete_lines.
  induction chunks as [|value rest IH]; intros buffer Hb.
  - cbn [text_of foldr pump]. rewrite split_lines_app, Hb. cbn. reflexivity.
  - cbn [text_of foldr pump]. fold (text_of rest).
    rewrite <- append_assoc.
    rewrite (split_lines_app (buffer +:+ value) (text_of rest)).
    set (lines := split_lines (buffer +:+ value)).
    assert (Hlast : split_lines (default "" (last lines)) = [default "" (last lines)]).
    { pose proof (split_lines_pieces (buffer +:+ value)) as Hp. fold lines in Hp.
      destruct (last lines) as [piece|] eqn:Hl; [|reflexivity].
      cbn. apply last_Some_elem_of in Hl.
      rewrite Forall_forall in Hp. apply Hp, Hl. }
    rewrite removelast_app by discriminate.
    rewrite scan_app.
    rewrite (IH _ Hlast), split_lines_app, Hlast. cbn [removelast last default app].
    cbv zeta. destruct (scan step (removelast lines)) as [ys stop].
    destruct stop; reflexivity.
Qed.

Lemma stream_of_body step fetched not_ok response chunks failure :
  fetched = Ret response -> ok response = true -> body response = Some (chunks, failure) ->
  stream_of step fetched not_ok =
  {| yields := (scan step (complete_lines (text_of chunks))).1;
     thrown := if (scan step (complete_lines (text_of chunks))).2 then None else failure |}.
Proof.
  intros -> Hok Hbody. unfold stream_of, read_all. rewrite Hok, Hbody. cbn.
  rewrite (pump_scan step chunks "" eq_refl). reflexivity.
Qed.

(** A line that no line feed ends is not complete. *)
Lemma complete_lines_tail text tail :
  split_lines tail = [tail] ->
  complete_lines (text +:+ nl +:+ tail) = complete_lines (text +:+ nl).
Proof.
  intros Ht. unfold complete_lines.
  rewrite <- append_assoc, (split_lines_app (text +:+ nl) tail), Ht. cbn [hd tl].
  rewrite removelast_app by discriminate. cbn [removelast].
  rewrite app_nil_r.
  rewrite (split_lines_app text nl). cbn.
  rewrite removelast_app by discriminate. cbn. reflexivity.
Qed.

Lemma or_else_empty_or_truthy a :
  JSON.or_else a (JSON.JStr "") = JSON.JStr "" \/ JSON.truthy (JSON.or_else a (JSON.JStr "")) = true.
Proof.
  unfold JSON.or_else. destruct a as [v|]; [|left; reflexivity].
  destruct (JSON.truthy v) eqn:Hv; [right; exact Hv|left; reflexivity].
Qed.

Lemma json_null_dec (data : JSON.json) : {data = JSON.JNull} + {data <> JSON.JNull}.
Proof. destruct data; [left; reflexivity|right; discriminate..]. Qed.

Lemma prop_not_null data key :
  data <> JSON.JNull -> prop data key = Ret (opt_prop (Some data) key).
Proof. destruct data; cbn; congruence. Qed.

(** X17. [LlamaProvider.generate] returns exactly when the request got a
    success response whose body parses to a value other than [null]; the
    content is then the [response] field, or the empty string when that
    field is missing or falsy, and the finish reason is ['stop']. Every
    error it throws has a message that starts with "Failed to generate
    response: "; for a response that is not a success the message goes on
    with "HTTP error! status: " and the status. *)
Theorem llama_generate_wraps_every_failure
    (baseUrl : string) (fetch : HttpFetch) (request : LLMRequest) :
  (forall r, llama_generate baseUrl fetch request = Ret r <->
     exists response data,
       fetch (llama_generate_request baseUrl request) = Ret response
       /\ ok response = true /\ json response = Ret data /\ data <> JSON.JNull
       /\ r = {| content := JSON.or_else (opt_prop (Some data) "response") (JSON.JStr "");
                 usage := None;
                 model := Some (JSON.JStr (default "llama3.1" (Providers.model request)));
                 finishReason := Some (JSON.JStr "stop") |})
  /\ (forall e, llama_generate baseUrl fetch request = Throw e ->
        exists message, e = "Failed to generate response: " +:+ message)
  /\ (forall response,
        fetch (llama_generate_request baseUrl request) = Ret response -> ok response = false ->
        llama_generate baseUrl fetch request
        = Throw ("Failed to generate response: HTTP error! status: "
                 +:+ pretty (status response)))
  /\ (forall r, llama_generate baseUrl fetch request = Ret r ->
        content r = JSON.JStr "" \/ JSON.truthy (content r) = true).
Proof.
  unfold llama_generate.
  destruct (fetch (llama_generate_request baseUrl request)) as [response|e0] eqn:Hf; cbn.
  2:{ split; [intros r; split; [discriminate|intros (response & data & [=] & _)]|].
      split; [intros e [= <-]; eauto|].
      split; [discriminate|discriminate]. }
  destruct (ok response) eqn:Hok; cbn.
  2:{ split; [intros r; split;
              [discriminate|intros (response' & data & [= <-] & Hok' & _); congruence]|].
      split; [intros e [= <-]; eauto|].
      split; [intros response' [= <-] _; reflexivity|discriminate]. }
  destruct (json response) as [data|e1] eqn:Hj; cbn.
  2:{ split; [intros r; split;
              [discriminate|intros (response' & data & [= <-] & _ & Hj' & _); congruence]|].
      split; [intros e [= <-]; eauto|].
      split; [intros response' [= <-]; congruence|discriminate]. }
  destruct (json_null_dec data) as [->|Hn].
  - cbn.
    split; [intros r; split;
            [discriminate|intros (response' & data & [= <-] & _ & Hj' & Hn & _); congruence]|].
    split; [intros e [= <-]; eauto|].
    split; [intros response' [= <-]; congruence|discriminate].
  - rewrite (prop_not_null data "response" Hn). cbn.
    split.
    + intros r; split.
      * intros [= <-]. exists response, data. repeat split; assumption.
      * intros (response' & data' & [= <-] & _ & Hj' & _ & ->).
        rewrite Hj in Hj'. injection Hj' as <-. reflexivity.
    + split; [discriminate|].
      split; [intros response' [= <-]; congruence|].
      intros r [= <-]. cbn. apply or_else_empty_or_truthy.
Qed.

Section OpenAIFacts.
Variable ToString : JSON.json -> string.

Ltac close :=
  intros; simplify_eq; cbn [opt_prop] in *; try congruence;
  try match goal with
      | Hj : json ?r = Ret ?d, H : json ?r = Ret ?d' |- _ =>
          assert (d' = d) by congruence; subst d'
      end;
  try congruence;
  try (eexists; reflexivity); try (eexists; split; reflexivity);
  try (cbn; apply or_else_empty_or_truthy).
Ltac five := split; [|split; [|split; [|split]]]; close.

(** X18. [OpenAIProvider.generate] without a key (none, or an empty one)
    throws "OpenAI API key not provided" and sends no request: the outcome
    does not depend on [fetch]. With a key, every error it throws has a
    message that starts with "Failed to generate response: "; a response
    that is not a success gives the adapter's API error, a success
    response without a first choice gives "No response from OpenAI API";
    and a returned content is the empty string or a truthy value. *)
Theorem openai_generate_failures
    (apiKey : option string) (fetch : HttpFetch) (request : LLMRequest) :
  (truthy_str apiKey = false ->
     openai_generate ToString apiKey fetch request = Throw "OpenAI API key not provided")
  /\ (truthy_str apiKey = true ->
      (forall e, openai_generate ToString apiKey fetch request = Throw e ->
         exists message, e = "Failed to generate response: " +:+ message)
      /\ (forall response,
            fetch (openai_request (default "" apiKey) request false) = Ret response ->
            ok response = false ->
            openai_generate ToString apiKey fetch request
            = Throw ("Failed to generate response: " +:+ openai_error ToString response))
      /\ (forall response data,
            fetch (openai_request (default "" apiKey) request false) = Ret response ->
            ok response = true -> json response = Ret data -> data <> JSON.JNull ->
            truthy_opt (opt_first (opt_prop (Some data) "choices")) = false ->
            openai_generate ToString apiKey fetch request
            = Throw "Failed to generate response: No response from OpenAI API")
      /\ (forall response data,
            fetch (openai_request (default "" apiKey) request false) = Ret response ->
            ok response = true -> json response = Ret data -> data <> JSON.JNull ->
            truthy_opt (opt_first (opt_prop (Some data) "choices")) = true ->
            exists r, openai_generate ToString apiKey fetch request = Ret r
                      /\ content r
                         = JSON.or_else
                             (opt_prop (opt_prop (opt_first (opt_prop (Some data) "choices"))
                                          "message") "content")
                             (JSON.JStr ""))
      /\ (forall r, openai_generate ToString apiKey fetch request = Ret r ->
            content r = JSON.JStr "" \/ JSON.truthy (content r) = true)).
Proof.
  unfold openai_generate. split; [intros ->; reflexivity|]. intros ->. cbn [negb].
  destruct (fetch (openai_request (default "" apiKey) request false)) as [response|e0]; cbn;
    [|five].
  destruct (ok response) eqn:Hok; cbn; [|five].
  destruct (json response) as [data|e1] eqn:Hj; cbn; [|five].
  destruct (json_null_dec data) as [->|Hn]; [cbn; five|].
  rewrite (prop_not_null data "choices" Hn). cbn -[opt_prop opt_first truthy_opt].
  destruct (truthy_opt (opt_first (opt_prop (Some data) "choices"))) eqn:Ht;
    cbn -[opt_prop opt_first truthy_opt]; five.
Qed.

End OpenAIFacts.

(** X19. The values [LlamaProvider.generateStream] yields depend on the
    text of the body only, not on how the reader cuts it into chunks:
    they are what the complete lines of the whole text yield, taken in
    order up to the first line that says [done]. A read that rejects is
    thrown on unless such a line came before. *)
Theorem llama_stream_ignores_chunking
    (baseUrl : string) (fetch : HttpFetch) (request : LLMRequest)
    (response : HttpResponse) (chunks : list string) (failure : option JsError) :
  fetch (llama_stream_request baseUrl request) = Ret response ->
  ok response = true ->
  body response = Some (chunks, failure) ->
  yields (llama_generateStream baseUrl fetch request)
  = (scan (llama_line (default "llama3.1" (Providers.model request)))
       (complete_lines (text_of chunks))).1
  /\ thrown (llama_generateStream baseUrl fetch request)
     = (if (scan (llama_line (default "llama3.1" (Providers.model request)))
              (complete_lines (text_of chunks))).2
        then None else failure)
  /\ (forall chunks', text_of chunks' = text_of chunks ->
        pump (llama_line (default "llama3.1" (Providers.model request))) "" chunks'
        = pump (llama_line (default "llama3.1" (Providers.model request))) "" chunks).
Proof.
  intros Hf Hok Hbody. unfold llama_generateStream.
  rewrite (stream_of_body _ _ _ response chunks failure Hf Hok Hbody). cbn.
  split; [reflexivity|]. split; [reflexivity|].
  intros chunks' Ht. rewrite !(pump_scan _ _ "" eq_refl), Ht. reflexivity.
Qed.

(** X20. The values [OpenAIProvider.generateStream] yields depend on the
    text of the body only, not on how the reader cuts it into chunks:
    they are what the complete lines of the whole text yield, taken in
    order up to the line "data: [DONE]". *)
Theorem openai_stream_ignores_chunking
    (ToString : JSON.json -> string) (apiKey : option string) (fetch : HttpFetch)
    (request : LLMRequest) (response : HttpResponse) (chunks : list string)
    (failure : option JsError) :
  truthy_str apiKey = true ->
  fetch (openai_request (default "" apiKey) request true) = Ret response ->
  ok response = true ->
  body response = Some (chunks, failure) ->
  yields (openai_generateStream ToString apiKey fetch request)
  = (scan openai_line (complete_lines (text_of chunks))).1
  /\ thrown (openai_generateStream ToString apiKey fetch request)
     = (if (scan openai_line (complete_lines (text_of chunks))).2 then None else failure)
  /\ (forall chunks', text_of chunks' = text_of chunks ->
        pump openai_line "" chunks' = pump openai_line "" chunks).
Proof.
  intros Hk Hf Hok Hbody. unfold openai_generateStream. rewrite Hk. cbn [negb].
  rewrite (stream_of_body _ _ _ response chunks failure Hf Hok Hbody). cbn.
  split; [reflexivity|]. split; [reflexivity|].
  intros chunks' Ht. rewrite !(pump_scan openai_line _ "" eq_refl), Ht. reflexivity.
Qed.

(** X21. [LlamaProvider.generateStream] never processes what follows the
    last line feed of the body: a body that ends in a line no line feed
    closes yields what it yields without that line. *)
Theorem llama_stream_drops_unterminated_line
    (baseUrl : string) (fetch : HttpFetch) (request : LLMRequest)
    (response : HttpResponse) (text tail : string) (failure : option JsError) :
  fetch (llama_stream_request baseUrl request) = Ret response ->
  ok response = true ->
  body response = Some ([text +:+ nl +:+ tail], failure) ->
  split_lines tail = [tail] ->
  yields (llama_generateStream baseUrl fetch request)
  = (scan (llama_line (default "llama3.1" (Providers.model request)))
       (complete_lines (text +:+ nl))).1.
Proof.
  intros Hf Hok Hbody Ht. unfold llama_generateStream.
  rewrite (stream_of_body _ _ _ response _ failure Hf Hok Hbody). cbn [yields text_of foldr].
  rewrite append_empty_r, complete_lines_tail by exact Ht. reflexivity.
Qed.

End AdapterFacts.

(** The same text cut in three places. *)
Lemma llama_stream_ignores_chunking_witness :
  Adapters.yields (Adapters.llama_generateStream "http://localhost:11434"
            (StreamScenario.respond
               [StreamScenario.first_line; nl +:+ StreamScenario.second_line;
                nl +:+ StreamScenario.last_line +:+ nl])
            StreamScenario.request)
  = (Adapters.scan (Adapters.llama_line "llama3.1")
       (Adapters.complete_lines
          (StreamScenario.first_line +:+ nl +:+ StreamScenario.second_line +:+ nl
           +:+ StreamScenario.last_line +:+ nl))).1.
Proof.
  apply (proj1 (llama_stream_ignores_chunking "http://localhost:11434"
                  (StreamScenario.respond
                     [StreamScenario.first_line; nl +:+ StreamScenario.second_line;
                      nl +:+ StreamScenario.last_line +:+ nl])
                  StreamScenario.request _ _ None eq_refl eq_refl eq_refl)).
Defined.

Lemma openai_stream_ignores_chunking_witness :
  Adapters.yields (Adapters.openai_generateStream JSON.stringify (Some "sk-1")
            (StreamScenario.respond
               ["data"; ": " +:+ String.substring 6 200 StreamScenario.delta_line;
                nl +:+ "data: [DONE]" +:+ nl])
            StreamScenario.request)
  = (Adapters.scan Adapters.openai_line
       (Adapters.complete_lines
          (Adapters.text_of
             ["data"; ": " +:+ String.substring 6 200 StreamScenario.delta_line;
              nl +:+ "data: [DONE]" +:+ nl]))).1.
Proof.
  apply (proj1 (openai_stream_ignores_chunking JSON.stringify (Some "sk-1")
                  (StreamScenario.respond
                     ["data"; ": " +:+ String.substring 6 200 StreamScenario.delta_line;
                      nl +:+ "data: [DONE]" +:+ nl])
                  StreamScenario.request _ _ None eq_refl eq_refl eq_refl eq_refl)).
Defined.

(** The line that says [done] comes without a line feed and is lost. *)
Lemma llama_stream_drops_unterminated_line_witness :
  Adapters.yields (Adapters.llama_generateStream "http://localhost:11434"
            (StreamScenario.respond
               [StreamScenario.first_line +:+ nl +:+ StreamScenario.last_line])
            StreamScenario.request)
  = (Adapters.scan (Adapters.llama_line "llama3.1")
       (Adapters.complete_lines (StreamScenario.first_line +:+ nl))).1.
Proof.
  apply (llama_stream_drops_unterminated_line "http://localhost:11434"
           (StreamScenario.respond
              [StreamScenario.first_line +:+ nl +:+ StreamScenario.last_line])
           StreamScenario.request _ StreamScenario.first_line StreamScenario.last_line None
           eq_refl eq_refl eq_refl).
  vm_compute. reflexivity.
Defined.

(** ** The hook and its provider manager *)

Section SessionFacts.
Import Providers LLMProviderManager Session.

Variable defaultModel : Provider -> string.
Variable env : Env.

(** What holds between the hook and its manager as long as the provider
    is changed through [switchProvider]. *)
Lemma switchProvider_accepted name s p :
  providers (llmManager s) !! name = Some p ->
  switchProvider defaultModel env name s =
  {| hook := set_currentProvider name (hook s);
     llmManager :=
       {| providers := providers (llmManager s);
          currentProvider := name;
          config := {| provider := name; model := defaultModel p;
                       temperature := temperature (config (llmManager s));
                       maxTokens := maxTokens (config (llmManager s));
                       apiKey := apiKey (config (llmManager s));
                       url := url (config (llmManager s)) |} |} |}.
Proof.
  intros Hp. unfold switchProvider, setProvider.
  assert (Hhas : has name (providers (llmManager s)) = true) by (apply has_spec; eauto).
  rewrite Hhas. cbn [fst snd]. unfold getCurrentProvider. cbn [providers currentProvider].
  rewrite Hp. reflexivity.
Qed.

Lemma switchProvider_refused name s :
  providers (llmManager s) !! name = None -> switchProvider defaultModel env name s = s.
Proof.
  intros Hp. unfold switchProvider, setProvider, has.
  rewrite bool_decide_eq_false_2; [reflexivity|]. rewrite Hp. intros [? ?]. discriminate.
Qed.

Lemma choose_invariant names t0 :
  reachable env (llmManager (choose defaultModel env t0 names))
  /\ Engine.currentProvider (hook (choose defaultModel env t0 names))
     = getCurrentProviderName (llmManager (choose defaultModel env t0 names))
  /\ provider (getConfig (llmManager (choose defaultModel env t0 names)))
     = Engine.currentProvider (hook (choose defaultModel env t0 names)).
Proof.
  unfold choose.
  assert (H0 : reachable env (llmManager (mount env t0))
               /\ Engine.currentProvider (hook (mount env t0))
                  = getCurrentProviderName (llmManager (mount env t0))
               /\ provider (getConfig (llmManager (mount env t0)))
                  = Engine.currentProvider (hook (mount env t0))).
  { split; [apply reach_new|]. split; reflexivity. }
  revert H0. generalize (mount env t0). induction names as [|name names IH]; intros s Hs.
  - exact Hs.
  - cbn [foldl]. apply IH. destruct Hs as (Hr & Ha & Hc).
    destruct (providers (llmManager s) !! name) as [p|] eqn:Hp.
    + rewrite (switchProvider_accepted name s p Hp). cbn.
      split; [|split; reflexivity].
      pose proof (reach_updateConfig env
                    {| new_provider := Some name; new_model := Some (defaultModel p);
                       new_temperature := None; new_maxTokens := None;
                       new_apiKey := None; new_url := None |}
                    _ (reach_setProvider env name _ Hr)) as Hr'.
      unfold setProvider in Hr'.
      assert (Hhas : has name (providers (llmManager s)) = true) by (apply has_spec; eauto).
      rewrite Hhas in Hr'. exact Hr'.
    + rewrite (switchProvider_refused name s Hp). auto.
Qed.

(** X22. [handleLLMConfigTest] never throws, and whatever configuration
    it is given (provider, key, address), what it tests is the local
    Llama adapter at its default address: the manager built for the test
    starts with ['llama'] as its current provider and nothing selects the
    provider of the configuration. *)
Theorem config_test_probes_default_llama (config : LLMConfig) (fetch : Fetch) :
  handleLLMConfigTest env config fetch
  = Ret match fetch {| Providers.url := default_baseUrl env +:+ "/api/tags";
                       method := "GET"; headers := json_headers; body := None |} with
        | Ret response => ok response
        | Throw _ => false
        end
  /\ handleLLMConfigTest env config fetch = isAvailable (new_LlamaProvider env None) fetch
  /\ (forall config', handleLLMConfigTest env config' fetch
                      = handleLLMConfigTest env config fetch).
Proof.
  assert (Hv : forall c, handleLLMConfigTest env c fetch
                         = isAvailable (new_LlamaProvider env None) fetch).
  { intros c. unfold handleLLMConfigTest, testConnection, getCurrentProvider.
    cbn [new providers currentProvider]. unfold initializeProviders. rewrite !lookup_insert_ne by (intros [=]).
    rewrite lookup_insert_eq. rewrite isAvailable_value. reflexivity. }
  split; [|split; [apply Hv|intros config'; rewrite !Hv; reflexivity]].
  rewrite Hv, isAvailable_value. reflexivity.
Qed.

(** X23. As long as the provider is changed through [switchProvider],
    the provider the hook shows is the current provider of its manager
    and the [provider] of the manager's configuration. A call with a
    registered name makes that name current in both and sets the
    configured model to the default model of the adapter registered under
    it; a call with any other name changes nothing. *)
Theorem switchProvider_keeps_hook_and_manager_agreed
    (t0 : Z) (providerNames : list string) (providerName : string) :
  Engine.currentProvider (hook (choose defaultModel env t0 providerNames))
  = getCurrentProviderName (llmManager (choose defaultModel env t0 providerNames))
  /\ provider (getConfig (llmManager (choose defaultModel env t0 providerNames)))
     = Engine.currentProvider (hook (choose defaultModel env t0 providerNames))
  /\ ((providerName = "llama" \/ providerName = "gemini" \/ providerName = "openai") ->
      exists p,
        getProvider providerName (llmManager (choose defaultModel env t0 providerNames)) = Some p
        /\ Engine.currentProvider
             (hook (choose defaultModel env t0 (providerNames ++ [providerName])))
           = providerName
        /\ getCurrentProvider
             (llmManager (choose defaultModel env t0 (providerNames ++ [providerName])))
           = Some p
        /\ model (getConfig
                    (llmManager (choose defaultModel env t0 (providerNames ++ [providerName]))))
           = defaultModel p)
  /\ (~ (providerName = "llama" \/ providerName = "gemini" \/ providerName = "openai") ->
      choose defaultModel env t0 (providerNames ++ [providerName])
      = choose defaultModel env t0 providerNames).
Proof.
  destruct (choose_invariant providerNames t0) as (Hr & Ha & Hc).
  split; [exact Ha|]. split; [exact Hc|].
  pose proof (reachable_registered env _ providerName Hr) as Hreg.
  unfold choose in *. rewrite foldl_app. cbn [foldl].
  set (s := foldl _ (mount env t0) providerNames) in *.
  split.
  - intros Hn. apply Hreg in Hn. destruct Hn as [p Hp]. exists p.
    rewrite (switchProvider_accepted providerName s p Hp). cbn.
    unfold getProvider, getCurrentProvider. cbn. auto.
  - intros Hn. apply switchProvider_refused.
    destruct (providers (llmManager s) !! providerName) eqn:Hp; [|reflexivity].
    exfalso. apply Hn, Hreg. eauto.
Qed.

(** X24. The page opened again shows the provider that was saved, but
    its manager is a new one: its current provider is ['llama'] and
    [generate] calls the Llama adapter at its default address. After a
    switch to another provider the hook and the manager of the reopened
    page disagree. *)
Theorem reopened_page_generates_with_llama
    (t0 saved opened : Z) (providerNames : list string) :
  Engine.currentProvider
    (hook (reopen env (choose defaultModel env t0 providerNames) saved opened))
  = Engine.currentProvider (hook (choose defaultModel env t0 providerNames))
  /\ getCurrentProviderName
       (llmManager (reopen env (choose defaultModel env t0 providerNames) saved opened))
     = "llama"
  /\ (forall request, exists r,
        generate (llmManager (reopen env (choose defaultModel env t0 providerNames)
                                saved opened)) request
        = Ret (LlamaProvider (default_baseUrl env), r))
  /\ (Engine.currentProvider (hook (choose defaultModel env t0 providerNames)) <> "llama" ->
      Engine.currentProvider
        (hook (reopen env (choose defaultModel env t0 providerNames) saved opened))
      <> getCurrentProviderName
           (llmManager (reopen env (choose defaultModel env t0 providerNames) saved opened))).
Proof.
  destruct (choose_invariant providerNames t0) as (Hr & Ha & Hc).
  set (s := choose defaultModel env t0 providerNames) in *.
  assert (Hshown : Engine.currentProvider (hook (reopen env s saved opened))
                   = Engine.currentProvider (hook s)).
  { unfold reopen, Storage.reload, Storage.loadFromStorage, Storage.saveToStorage. cbn.
    destruct (String.eqb (Engine.currentProvider (hook s)) "") eqn:He; [|reflexivity].
    exfalso. apply String.eqb_eq in He.
    pose proof (reachable_current_registered env _ Hr) as Hreg.
    unfold current_registered in Hreg. rewrite (reachable_dom env _ Hr) in Hreg.
    unfold getCurrentProviderName in Ha. rewrite <- Ha, He in Hreg.
    rewrite !elem_of_union, !elem_of_singleton in Hreg.
    destruct Hreg as [[Hreg|Hreg]|Hreg]; discriminate. }
  split; [exact Hshown|]. split; [reflexivity|]. split.
  - intros request. unfold generate, getCurrentProvider, reopen. cbn.
    unfold initializeProviders. rewrite !lookup_insert_ne by (intros [=]).
    rewrite lookup_insert_eq. eauto.
  - intros Hn. rewrite Hshown. exact Hn.
Qed.

End SessionFacts.

Lemma switchProvider_keeps_hook_and_manager_agreed_witness :
  let defaultModel := fun p : Providers.Provider =>
                        match p with
                        | Providers.LlamaProvider _ => "llama3.1"
                        | Providers.OpenAIProvider _ => "gpt-3.5-turbo"
                        | _ => "gemini-1.5-flash"
                        end in
  let env := {| Providers.has_window := true; Providers.VITE_OLLAMA_URL := None;
                Providers.hostname := "localhost" |} in
  Engine.currentProvider
    (Session.hook (Session.choose defaultModel env 1700000000000 (["gemini"] ++ ["openai"])))
  = "openai"
  /\ Session.choose defaultModel env 1700000000000 (["gemini"] ++ ["claude"])
     = Session.choose defaultModel env 1700000000000 ["gemini"].
Proof.
  intros defaultModel env.
  destruct (switchProvider_keeps_hook_and_manager_agreed defaultModel env 1700000000000
              ["gemini"] "openai") as (_ & _ & Hyes & _).
  destruct (switchProvider_keeps_hook_and_manager_agreed defaultModel env 1700000000000
              ["gemini"] "claude") as (_ & _ & _ & Hno).
  split.
  - destruct Hyes as (p & _ & Hshown & _); [auto|exact Hshown].
  - apply Hno. intros [Hn|[Hn|Hn]]; discriminate.
Defined.

(** ** Processing one message *)

Section ProcessingFacts.
Import Engine Processing.

Lemma determineStrategy_updated message context :
  determineStrategy (updatedContext message context)
  = if (9 <=? length (AgentContext.conversationHistory context))%nat then summarize
    else if (4 <=? length (AgentContext.conversationHistory context))%nat then generate
    else accumulate.
Proof.
  unfold determineStrategy, updatedContext, summaryThreshold, processingThreshold.
  cbn [AgentContext.conversationHistory]. rewrite length_app. cbn [length].
  repeat match goal with
         | |- context [(?a <=? ?b)%nat] => destruct (Nat.leb_spec a b)
         end; try reflexivity; lia.
Qed.

Lemma strategy_result_flags strategy context content r :
  strategy_result strategy context content = Ret r ->
  nextStrategy r = match strategy with summarize => generate | _ => accumulate end
  /\ shouldGenerateSummary r
     = match strategy with
       | summarize => true
       | _ => (10 <=? length (AgentContext.conversationHistory context))%nat
       end.
Proof.
  unfold strategy_result.
  destruct (JSON.get _ "response") as [a|]; [|discriminate]. cbn.
  destruct (JSON.get _ "insights") as [b|]; [|discriminate]. cbn.
  destruct (JSON.get _ "ideas") as [c|]; [|discriminate]. cbn.
  destruct (JSON.get _ "summaryPoints") as [d|]; [|discriminate]. cbn.
  intros [= <-]. split; reflexivity.
Qed.

Lemma strategy_result_throws strategy context content e :
  strategy_result strategy context content = Throw e <->
  AgentProcessor.parseAgentResponse content = JSON.JNull
  /\ e = "TypeError: Cannot read properties of null (reading 'response')".
Proof.
  unfold strategy_result.
  destruct (AgentProcessor.parseAgentResponse content); cbn;
    (split; [intros [= <-]; split; reflexivity | intros [_ ->]; reflexivity])
    || (split; [discriminate | intros [[=] _]]).
Qed.

(** X25. [processMessage] chooses by the number of turns the context
    holds before the message: with 9 or more it asks for a summary, with
    4 to 8 for ideas, with fewer it accumulates. Its result asks for a
    summary ([shouldGenerateSummary]) exactly in the first case, where
    the next strategy is ['generate']; in the two others the next
    strategy is ['accumulate'] and the comparison with the summary
    threshold made there is never true. *)
Theorem processMessage_chooses_by_turn_count
    (message : AgentMessage.t) (context : AgentContext.t)
    (llm : Providers.LLMRequest -> outcome JsError string) (r : AgentProcessingResult) :
  processMessage message context llm = Ret r ->
  (exists content,
     llm (strategy_request
            (if (9 <=? length (AgentContext.conversationHistory context))%nat then summarize
             else if (4 <=? length (AgentContext.conversationHistory context))%nat
                  then generate else accumulate)
            message (updatedContext message context)) = Ret content)
  /\ (shouldGenerateSummary r = true
      <-> (9 <= length (AgentContext.conversationHistory context))%nat)
  /\ (nextStrategy r = generate
      <-> (9 <= length (AgentContext.conversationHistory context))%nat)
  /\ (nextStrategy r = accumulate
      <-> (length (AgentContext.conversationHistory context) < 9)%nat).
Proof.
  unfold processMessage. rewrite determineStrategy_updated.
  set (strategy := if (9 <=? _)%nat then _ else _).
  destruct (llm _) as [content|e] eqn:Hl; [|discriminate]. cbn.
  intros Hr. apply strategy_result_flags in Hr. destruct Hr as [Hn Hs].
  split; [eauto|]. rewrite Hn, Hs. subst strategy.
  cbn [updatedContext AgentContext.conversationHistory]. rewrite length_app. cbn [length].
  destruct (Nat.leb_spec 9 (length (AgentContext.conversationHistory context))) as [H9|H9].
  - repeat split; auto; try lia. discriminate.
  - destruct (4 <=? _)%nat;
      (destruct (Nat.leb_spec 10 (length (AgentContext.conversationHistory context) + 1));
       [lia|]); repeat split; auto; try lia; try discriminate.
Qed.

Lemma processMessage_chooses_by_turn_count_witness :
  let message := {| AgentMessage.id := "msg_1"; AgentMessage.role := user;
                    AgentMessage.content := "A reading app for commuters";
                    AgentMessage.timestamp := Time.Date 1700000001000 |} in
  exists r,
    processMessage message (agentContext (initial_hook 1700000000000))
      (fun _ => Ret "Tell me more.") = Ret r
    /\ nextStrategy r = accumulate.
Proof.
  intros message. eexists. split; [reflexivity|].
  apply (processMessage_chooses_by_turn_count message
           (agentContext (initial_hook 1700000000000)) (fun _ => Ret "Tell me more.") _ eq_refl).
  cbn. lia.
Defined.

(** X26. [processMessage] has no handler of its own: it throws exactly
    when the generation throws, with the same error, or when the reply
    parses to [null] (the text "null" does), where reading [response]
    throws a [TypeError]. *)
Theorem processMessage_throws_for_failed_or_null_reply
    (message : AgentMessage.t) (context : AgentContext.t)
    (llm : Providers.LLMRequest -> outcome JsError string) (e : JsError) :
  (processMessage message context llm = Throw e <->
   llm (strategy_request (determineStrategy (updatedContext message context)) message
          (updatedContext message context)) = Throw e
   \/ exists content,
        llm (strategy_request (determineStrategy (updatedContext message context)) message
               (updatedContext message context)) = Ret content
        /\ AgentProcessor.parseAgentResponse content = JSON.JNull
        /\ e = "TypeError: Cannot read properties of null (reading 'response')")
  /\ AgentProcessor.parseAgentResponse "null" = JSON.JNull.
Proof.
  split; [|reflexivity].
  unfold processMessage.
  destruct (llm _) as [content|e'] eqn:Hl; cbn.
  - rewrite strategy_result_throws. split.
    + intros [Hp ->]. right. exists content. auto.
    + intros [[=]|(content' & [= <-] & Hp & ->)]. auto.
  - split.
    + intros [= ->]. left. reflexivity.
    + intros [[= ->]|(content' & [=] & _)]. reflexivity.
Qed.

End ProcessingFacts.

